(** * The screen engine of the terminal review client

    A shallow embedding of the Bubble Tea client of the multi-agent email
    assistant (the model of [cli/]: the view/state machine, its renderers,
    the gateway request shapes), and the properties of its specification.

    Conventions.
    - Go [int] is a 64-bit signed integer: it is a [Z], and every addition
      or subtraction of the source goes through [wrap64].
    - Go strings are byte strings: [string] with one [ascii] per byte.
    - Go [float64] is IEEE 754 binary64: [spec_float] at precision 53.
    - A Go map that may be [nil] is an [option (gmap ...)].
    - The widgets of the bubbles and lipgloss libraries, and the JSON
      encoder, are not part of the repository: they are the fields of the
      class [Toolkit], about which nothing is assumed. *)

From Stdlib Require Import ZArith String Ascii List Lia DecimalString.
From Stdlib Require Import Floats.SpecFloat.
From stdpp Require Import gmap strings list fin_maps sorting.

Set Warnings "-register-all".
Local Open Scope Z_scope.

(** ** Go integers *)

Module GoInt.

Definition wrap64 (z : Z) : Z := (z + 2 ^ 63) mod 2 ^ 64 - 2 ^ 63.

Definition add (a b : Z) : Z := wrap64 (a + b).
Definition sub (a b : Z) : Z := wrap64 (a - b).

(** [len(s)] of a slice or of a map. *)
Definition len {A} (l : list A) : Z := Z.of_nat (length l).

Definition in_range (z : Z) : Prop := - 2 ^ 63 <= z < 2 ^ 63.

End GoInt.

Abbreviation len := GoInt.len.

(** [maxInt] of the source. *)
Definition maxInt (a b : Z) : Z := if b <? a then a else b.

(** ** The functions of package [strings] and of [fmt] that the client uses *)

Module GoStrings.

Definition byte (c : ascii) : Z := Z.of_N (N_of_ascii c).

Definition nl : string := String "010"%char EmptyString.

Definition chars (s : string) : list ascii := list_ascii_of_string s.
Definition text (l : list ascii) : string := string_of_list_ascii l.

(** [unicode.IsSpace] on an encoded rune: the six ASCII white-space
    bytes, U+0085 and U+00A0, and the white-space runes U+1680,
    U+2000..U+200A, U+2028, U+2029, U+202F, U+205F, U+3000 in UTF-8. *)
Definition space_rune (bs : list Z) : bool :=
  match bs with
  | [b] => (b =? 9) || (b =? 10) || (b =? 11) || (b =? 12) || (b =? 13) || (b =? 32)
  | [b0; b1] => (b0 =? 194) && ((b1 =? 133) || (b1 =? 160))
  | [b0; b1; b2] =>
      ((b0 =? 225) && (b1 =? 154) && (b2 =? 128))
      || ((b0 =? 226) && (b1 =? 128)
          && (((128 <=? b2) && (b2 <=? 138)) || (b2 =? 168) || (b2 =? 169) || (b2 =? 175)))
      || ((b0 =? 226) && (b1 =? 129) && (b2 =? 159))
      || ((b0 =? 227) && (b1 =? 128) && (b2 =? 128))
  | _ => false
  end.

(** Number of bytes of the white-space rune a byte sequence starts with,
    0 when it starts with none. *)
Definition leading_space (l : list ascii) : nat :=
  if space_rune (byte <$> take 1 l) then 1%nat
  else if space_rune (byte <$> take 2 l) then 2%nat
  else if space_rune (byte <$> take 3 l) then 3%nat
  else 0%nat.

(** The same at the end of the sequence, given reversed. *)
Definition trailing_space (r : list ascii) : nat :=
  if space_rune (byte <$> rev (take 1 r)) then 1%nat
  else if space_rune (byte <$> rev (take 2 r)) then 2%nat
  else if space_rune (byte <$> rev (take 3 r)) then 3%nat
  else 0%nat.

Fixpoint trim_with (width : list ascii -> nat) (fuel : nat) (l : list ascii) : list ascii :=
  match fuel with
  | O => l
  | S fuel' =>
      match width l with
      | O => l
      | S k => trim_with width fuel' (drop (S k) l)
      end
  end.

(** [strings.TrimSpace]: the white space is trimmed at the start, then
    at the end. Every round removes at least one byte, so the length of
    the input is fuel enough ([trim_with_settles]). *)
Definition TrimSpace (s : string) : string :=
  let l := chars s in
  let l1 := trim_with leading_space (length l) l in
  text (rev (trim_with trailing_space (length l1) (rev l1))).

Definition lower (c : ascii) : ascii :=
  let b := byte c in
  if (65 <=? b) && (b <=? 90) then ascii_of_N (Z.to_N (b + 32)) else c.

(** [strings.ToLower], on the ASCII letters. The client only compares
    its result with the one-letter strings a, m, n, q, r and y, and no
    rune outside ASCII has one of these as its lower case, so the
    comparisons of the source are decided as in Go. *)
Definition ToLower (s : string) : string := text (lower <$> chars s).

(** [strings.Join]. *)
Fixpoint Join (parts : list string) (sep : string) : string :=
  match parts with
  | [] => ""
  | [p] => p
  | p :: rest => p +:+ sep +:+ Join rest sep
  end.

(** [strings.ReplaceAll(s, "\r\n", "\n")]. *)
Fixpoint crlf_to_lf (l : list ascii) : list ascii :=
  match l with
  | [] => []
  | c :: rest =>
      match rest with
      | d :: _ =>
          if (byte c =? 13) && (byte d =? 10) then crlf_to_lf rest
          else c :: crlf_to_lf rest
      | [] => [c]
      end
  end.

(** [strings.Split(s, "\n")]: the pieces between the line feeds, one
    more than there are line feeds. *)
Fixpoint split_lines (l : list ascii) (cur : list ascii) : list string :=
  match l with
  | [] => [text (rev cur)]
  | c :: rest =>
      if byte c =? 10 then text (rev cur) :: split_lines rest []
      else split_lines rest (c :: cur)
  end.

Definition SplitLines (s : string) : list string := split_lines (chars s) [].

(** [strings.TrimSuffix(s, "\n")]. *)
Definition TrimSuffixNl (s : string) : string :=
  match rev (chars s) with
  | c :: r => if byte c =? 10 then text (rev r) else s
  | [] => s
  end.

(** The verb [%d] of [fmt]. *)
Definition itoa (z : Z) : string := NilZero.string_of_int (Z.to_int z).

End GoStrings.

Import GoStrings.

(** ** IEEE 754 binary64 *)

Abbreviation float64 := spec_float.

Module Float64.

Definition prec : Z := 53.
Definition emax : Z := 1024.

(** The product of two [float64], rounded to nearest even. *)
Definition mul (x y : float64) : float64 := SFmul prec emax x y.

(** An integer constant converted to [float64]. *)
Definition of_Z (z : Z) : float64 := binary_normalize prec emax z 0 false.

(** The binary64 value nearest to [n * 10 ^ e10], for [0 <= n]
    ([strconv.ParseFloat]; the sign is [neg]). A negative [e10] is a
    division, done exactly: the quotient is taken with more than 54
    significant bits and one more bit records a non-zero remainder. *)
Definition of_decimal (neg : bool) (n e10 : Z) : float64 :=
  if n =? 0 then S754_zero neg
  else
    let sgn := fun m : Z => if neg then - m else m in
    if 0 <=? e10 then binary_normalize prec emax (sgn (n * 10 ^ e10)) 0 neg
    else
      let d := 10 ^ (- e10) in
      let s := Z.max 0 (56 + Z.log2_up d - Z.log2 n) in
      let q := (n * 2 ^ s) / d in
      let r := (n * 2 ^ s) mod d in
      let m := 2 * q + (if r =? 0 then 0 else 1) in
      binary_normalize prec emax (sgn m) (- s - 1) neg.

(** [round (m * 2 ^ e * 10)] to the nearest integer, ties to even. *)
Definition tenths (m : positive) (e : Z) : Z :=
  if 0 <=? e then Z.pos m * 2 ^ e * 10
  else
    let num := Z.pos m * 10 in
    let den := 2 ^ (- e) in
    let q := num / den in
    let r := num mod den in
    match 2 * r ?= den with
    | Lt => q
    | Gt => q + 1
    | Eq => if Z.even q then q else q + 1
    end.

(** The magnitude [m * 2 ^ e] of a finite [float64] of mantissa [m] and
    exponent [e], as a fraction of two integers. *)
Definition numerator (m : positive) (e : Z) : Z := Z.pos m * 2 ^ Z.max 0 e.
Definition denominator (e : Z) : Z := 2 ^ Z.max 0 (- e).

(** What rounding to one decimal place asks for, said without the way
    to compute it: [t] tenths are nearest to the magnitude
    [m * 2 ^ e], that is, [t / 10] is at most half a tenth away from
    it, and when two numbers of tenths are equally near, [t] is the
    even one. *)
Definition nearest_tenths (m : positive) (e : Z) (t : Z) : Prop :=
  let away := t * denominator e - 10 * numerator m e in
  2 * Z.abs away <= denominator e
  /\ (2 * Z.abs away = denominator e -> Z.even t = true).

(** The verb [%.1f] of [fmt]: one digit after the point, the exact
    value rounded to nearest, ties to even. *)
Definition format_f1 (x : float64) : string :=
  match x with
  | S754_nan => "NaN"
  | S754_infinity false => "+Inf"
  | S754_infinity true => "-Inf"
  | S754_zero s => (if s then "-" else "") +:+ "0.0"
  | S754_finite s m e =>
      let t := tenths m e in
      (if s then "-" else "") +:+ itoa (t / 10) +:+ "." +:+ itoa (t mod 10)
  end.

End Float64.


(** ** Package [encoding/json]: decoding

    The decoder of the Go library, as far as [json.Unmarshal] into a
    [map[string]interface{}] goes: the scanner's grammar, the decoding of
    string escapes, the conversion of numbers, and what each kind of
    top-level value does to a map target. *)

Module JSON.

(** What an [interface{}] holds after decoding. *)
Inductive value : Type :=
| Null
| Bool (b : bool)
| Number (f : float64)
| Str (s : string)
| Array (l : list value)
| Object (m : gmap string value).

(** The document as written. *)
Inductive tree : Type :=
| TNull
| TBool (b : bool)
| TNumber (lit : list ascii)
| TString (s : string)
| TArray (l : list tree)
| TObject (l : list (string * tree)).

Inductive error : Type :=
| SyntaxError
| TypeError (what : string)
| RangeError (lit : string).

(** *** Bytes *)

Definition isc (c : ascii) (code : Z) : bool := byte c =? code.
Definition between (lo : Z) (c : ascii) (hi : Z) : bool := (lo <=? byte c) && (byte c <=? hi).

Definition is_ws (c : ascii) : bool := isc c 32 || isc c 9 || isc c 13 || isc c 10.
Definition is_digit (c : ascii) : bool := between 48 c 57.
Definition is_hex (c : ascii) : bool := is_digit c || between 97 c 102 || between 65 c 70.
Definition is_lower (c : ascii) : bool := between 97 c 122.

Definition hex_val (c : ascii) : Z :=
  if is_digit c then byte c - 48
  else if between 97 c 102 then byte c - 87
  else byte c - 55.

Definition chr (z : Z) : ascii := ascii_of_N (Z.to_N z).

(** [utf8.EncodeRune] for a code point that is not a surrogate. *)
Definition utf8 (r : Z) : list ascii :=
  if r <? 128 then [chr r]
  else if r <? 2048 then [chr (192 + r / 64); chr (128 + r mod 64)]
  else if r <? 65536 then
    [chr (224 + r / 4096); chr (128 + (r / 64) mod 64); chr (128 + r mod 64)]
  else
    [chr (240 + r / 262144); chr (128 + (r / 4096) mod 64);
     chr (128 + (r / 64) mod 64); chr (128 + r mod 64)].

Definition replacement : list ascii := utf8 65533.

Definition cont (c : ascii) : bool := between 128 c 191.

(** *** Strings: the body between the quotes, unquoted *)

Definition escape (e : ascii) : ascii :=
  if isc e 98 then chr 8
  else if isc e 102 then chr 12
  else if isc e 110 then chr 10
  else if isc e 114 then chr 13
  else if isc e 116 then chr 9
  else e.

Definition u4 (h1 h2 h3 h4 : ascii) : Z :=
  ((hex_val h1 * 16 + hex_val h2) * 16 + hex_val h3) * 16 + hex_val h4.

Definition surrogate (r : Z) : bool := (55296 <=? r) && (r <? 57344).

(** The low half of a surrogate pair, when the text goes on with one. *)
Definition low_half (l : list ascii) : option Z :=
  match l with
  | b :: u :: g1 :: g2 :: g3 :: g4 :: _ =>
      let r := u4 g1 g2 g3 g4 in
      if isc b 92 && isc u 117 && is_hex g1 && is_hex g2 && is_hex g3 && is_hex g4
         && (56320 <=? r) && (r <? 57344)
      then Some r else None
  | _ => None
  end.

Fixpoint unquote (l : list ascii) : list ascii :=
  match l with
  | [] => []
  | c :: rest =>
      if isc c 92 then
        match rest with
        | [] => []
        | e :: rest1 =>
            if isc e 117 then
              match rest1 with
              | h1 :: h2 :: h3 :: h4 :: rest2 =>
                  let r := u4 h1 h2 h3 h4 in
                  if surrogate r then
                    match low_half rest2, rest2 with
                    | Some lo, _ :: _ :: _ :: _ :: _ :: _ :: rest3 =>
                        if r <? 56320
                        then utf8 ((r - 55296) * 1024 + (lo - 56320) + 65536) ++ unquote rest3
                        else replacement ++ unquote rest2
                    | _, _ => replacement ++ unquote rest2
                    end
                  else utf8 r ++ unquote rest2
              | _ => []
              end
            else escape e :: unquote rest1
        end
      else if byte c <? 128 then c :: unquote rest
      else
        (* a rune written as such: copied when well-formed UTF-8,
           replaced by U+FFFD byte by byte otherwise *)
        let b := byte c in
        match rest with
        | c1 :: rest1 =>
            if (194 <=? b) && (b <=? 223) then
              if cont c1 then c :: c1 :: unquote rest1 else replacement ++ unquote rest
            else
              match rest1 with
              | c2 :: rest2 =>
                  let lo1 := if b =? 224 then 160 else if b =? 240 then 144 else 128 in
                  let hi1 := if b =? 237 then 159 else if b =? 244 then 143 else 191 in
                  if (224 <=? b) && (b <=? 239) then
                    if between lo1 c1 hi1 && cont c2 then c :: c1 :: c2 :: unquote rest2
                    else replacement ++ unquote rest
                  else
                    match rest2 with
                    | c3 :: rest3 =>
                        if (240 <=? b) && (b <=? 244) && between lo1 c1 hi1 && cont c2 && cont c3
                        then c :: c1 :: c2 :: c3 :: unquote rest3
                        else replacement ++ unquote rest
                    | [] => replacement ++ unquote rest
                    end
              | [] => replacement ++ unquote rest
              end
        | [] => replacement
        end
  end.

(** *** Tokens: the scanner, one byte at a time *)

Inductive token : Type :=
| LBrace | RBrace | LBracket | RBracket | Comma | Colon
| TokString (body : list ascii)
| TokNumber (lit : list ascii)
| TokWord (w : list ascii).

(** Where the scanner is. In a string, [esc] is 0 in plain text, 1 after
    a backslash, and [k + 1] while [k] hexadecimal digits are due. The
    accumulators are reversed. *)
Inductive lex_state : Type :=
| Idle
| InString (acc : list ascii) (esc : nat)
| InNumber (acc : list ascii)
| InWord (acc : list ascii).

Definition number_char (c : ascii) : bool :=
  is_digit c || isc c 45 || isc c 43 || isc c 46 || isc c 101 || isc c 69.

Definition simple_escape (c : ascii) : bool :=
  isc c 34 || isc c 92 || isc c 47 || isc c 98 || isc c 102 || isc c 110
  || isc c 114 || isc c 116.

Definition lex_start (c : ascii) : option (lex_state * list token) :=
  if is_ws c then Some (Idle, [])
  else if isc c 123 then Some (Idle, [LBrace])
  else if isc c 125 then Some (Idle, [RBrace])
  else if isc c 91 then Some (Idle, [LBracket])
  else if isc c 93 then Some (Idle, [RBracket])
  else if isc c 44 then Some (Idle, [Comma])
  else if isc c 58 then Some (Idle, [Colon])
  else if isc c 34 then Some (InString [] 0, [])
  else if is_digit c || isc c 45 then Some (InNumber [c], [])
  else if is_lower c then Some (InWord [c], [])
  else None.

Definition lex_after (t : token) (c : ascii) : option (lex_state * list token) :=
  match lex_start c with
  | Some (st, toks) => Some (st, t :: toks)
  | None => None
  end.

Definition lex_step (st : lex_state) (c : ascii) : option (lex_state * list token) :=
  match st with
  | Idle => lex_start c
  | InString acc O =>
      if isc c 34 then Some (Idle, [TokString (rev acc)])
      else if isc c 92 then Some (InString (c :: acc) 1, [])
      else if byte c <? 32 then None
      else Some (InString (c :: acc) 0, [])
  | InString acc (S O) =>
      if simple_escape c then Some (InString (c :: acc) 0, [])
      else if isc c 117 then Some (InString (c :: acc) 5, [])
      else None
  | InString acc (S (S k)) =>
      if is_hex c then Some (InString (c :: acc) (match k with O => O | S _ => S k end), [])
      else None
  | InNumber acc =>
      if number_char c then Some (InNumber (c :: acc), [])
      else lex_after (TokNumber (rev acc)) c
  | InWord acc =>
      if is_lower c then Some (InWord (c :: acc), [])
      else lex_after (TokWord (rev acc)) c
  end.

(** [out] is the reversed list of the tokens read so far. *)
Fixpoint lex (st : lex_state) (l : list ascii) (out : list token) : option (list token) :=
  match l with
  | [] =>
      match st with
      | Idle => Some (rev out)
      | InString _ _ => None
      | InNumber acc => Some (rev (TokNumber (rev acc) :: out))
      | InWord acc => Some (rev (TokWord (rev acc) :: out))
      end
  | c :: rest =>
      match lex_step st c with
      | Some (st', toks) => lex st' rest (rev toks ++ out)
      | None => None
      end
  end.

(** *** Numbers *)

Fixpoint span_digits (l : list ascii) : list ascii * list ascii :=
  match l with
  | c :: rest =>
      if is_digit c then let '(ds, r) := span_digits rest in (c :: ds, r) else ([], l)
  | [] => ([], [])
  end.

Definition digits_value (ds : list ascii) : Z :=
  fold_left (fun n c => 10 * n + (byte c - 48)) ds 0.

(** A number literal taken apart: sign, the digits before and after the
    point read as one integer, and the power of ten that goes with it.
    [None] when the literal is not of the JSON grammar: an optional
    minus sign; a zero, or digits that do not start with a zero; then
    optionally a point and at least one digit; then optionally an [e]
    or [E], an optional sign and at least one digit. *)
Definition number_parts (lit : list ascii) : option (bool * Z * Z) :=
  let '(neg, l0) :=
    match lit with
    | c :: r => if isc c 45 then (true, r) else (false, lit)
    | [] => (false, lit)
    end in
  let '(ip, l1) := span_digits l0 in
  let int_ok :=
    match ip with
    | [] => false
    | [_] => true
    | c :: _ => negb (isc c 48)
    end in
  let '(fp, frac_ok, l2) :=
    match l1 with
    | c :: r =>
        if isc c 46 then let '(fs, r') := span_digits r in (fs, negb (length fs =? 0)%nat, r')
        else ([], true, l1)
    | [] => ([], true, l1)
    end in
  let '(ex, exp_ok) :=
    match l2 with
    | [] => (0, true)
    | c :: r =>
        if isc c 101 || isc c 69 then
          let '(eneg, r1) :=
            match r with
            | s :: r' => if isc s 45 then (true, r') else if isc s 43 then (false, r') else (false, r)
            | [] => (false, r)
            end in
          let '(es, r2) := span_digits r1 in
          ((if eneg then - digits_value es else digits_value es),
           negb (length es =? 0)%nat && (length r2 =? 0)%nat)
        else (0, false)
    end in
  if int_ok && frac_ok && exp_ok
  then Some (neg, digits_value (ip ++ fp), ex - Z.of_nat (length fp))
  else None.

(** [convertNumber]: [strconv.ParseFloat(s, 64)], an error when the
    value is out of range. *)
Definition convertNumber (lit : list ascii) : option float64 :=
  match number_parts lit with
  | Some (neg, n, e10) =>
      match Float64.of_decimal neg n e10 with
      | S754_finite s m e => Some (S754_finite s m e)
      | S754_zero s => Some (S754_zero s)
      | _ => None
      end
  | None => None
  end.

(** *** The grammar: a stack of open arrays and objects *)

(** What has been read of an open array or object: the elements or
    members so far (reversed), and the key whose value is being read. *)
Inductive frame : Type :=
| FArray (acc : list tree)
| FObject (acc : list (string * tree)) (key : string).

Inductive parse_state : Type :=
| WantValue
| WantValueOrClose
| WantKeyOrClose
| WantKey
| WantColon
| Have (v : tree).

Definition maxNestingDepth : Z := 10000.

Definition scalar (t : token) : option tree :=
  match t with
  | TokString body => Some (TString (text (unquote body)))
  | TokNumber lit =>
      match number_parts lit with
      | Some _ => Some (TNumber lit)
      | None => None
      end
  | TokWord w =>
      if String.eqb (text w) "true" then Some (TBool true)
      else if String.eqb (text w) "false" then Some (TBool false)
      else if String.eqb (text w) "null" then Some TNull
      else None
  | _ => None
  end.

Definition begin_value (t : token) (stk : list frame) : option (parse_state * list frame) :=
  match t with
  | LBracket =>
      if len stk <? maxNestingDepth then Some (WantValueOrClose, FArray [] :: stk) else None
  | LBrace =>
      if len stk <? maxNestingDepth then Some (WantKeyOrClose, FObject [] "" :: stk) else None
  | _ =>
      match scalar t with
      | Some v => Some (Have v, stk)
      | None => None
      end
  end.

Definition read_key (t : token) (stk : list frame) : option (parse_state * list frame) :=
  match t, stk with
  | TokString body, FObject acc _ :: stk' =>
      Some (WantColon, FObject acc (text (unquote body)) :: stk')
  | _, _ => None
  end.

Definition parse_step (st : parse_state) (stk : list frame) (t : token)
  : option (parse_state * list frame) :=
  match st with
  | WantValue => begin_value t stk
  | WantValueOrClose =>
      match t, stk with
      | RBracket, FArray _ :: stk' => Some (Have (TArray []), stk')
      | _, _ => begin_value t stk
      end
  | WantKeyOrClose =>
      match t, stk with
      | RBrace, FObject _ _ :: stk' => Some (Have (TObject []), stk')
      | _, _ => read_key t stk
      end
  | WantKey => read_key t stk
  | WantColon =>
      match t with
      | Colon => Some (WantValue, stk)
      | _ => None
      end
  | Have v =>
      match stk, t with
      | FArray acc :: stk', Comma => Some (WantValue, FArray (v :: acc) :: stk')
      | FArray acc :: stk', RBracket => Some (Have (TArray (rev (v :: acc))), stk')
      | FObject acc k :: stk', Comma => Some (WantKey, FObject ((k, v) :: acc) "" :: stk')
      | FObject acc k :: stk', RBrace => Some (Have (TObject (rev ((k, v) :: acc))), stk')
      | _, _ => None
      end
  end.

Fixpoint parse_tokens (st : parse_state) (stk : list frame) (ts : list token) : option tree :=
  match ts with
  | [] =>
      match st, stk with
      | Have v, [] => Some v
      | _, _ => None
      end
  | t :: rest =>
      match parse_step st stk t with
      | Some (st', stk') => parse_tokens st' stk' rest
      | None => None
      end
  end.

(** The document a text is, [None] on a syntax error ([checkValid]). *)
Definition parse (data : string) : option tree :=
  match lex Idle (chars data) [] with
  | Some ts => parse_tokens WantValue [] ts
  | None => None
  end.

(** *** Decoding *)

(** The value an [interface{}] receives. An object becomes a map, a
    later member replacing an earlier one of the same key; a number
    becomes a [float64]; the first number out of range is the error. *)
Fixpoint to_value (t : tree) : error + value :=
  match t with
  | TNull => inr Null
  | TBool b => inr (Bool b)
  | TNumber lit =>
      match convertNumber lit with
      | Some f => inr (Number f)
      | None => inl (RangeError (text lit))
      end
  | TString s => inr (Str s)
  | TArray l =>
      match
        (fix elements (l : list tree) : error + list value :=
           match l with
           | [] => inr []
           | t :: rest =>
               match to_value t with
               | inl e => inl e
               | inr v =>
                   match elements rest with
                   | inl e => inl e
                   | inr vs => inr (v :: vs)
                   end
               end
           end) l
      with
      | inl e => inl e
      | inr vs => inr (Array vs)
      end
  | TObject l =>
      match
        (fix members (l : list (string * tree)) (m : gmap string value)
           : error + gmap string value :=
           match l with
           | [] => inr m
           | (k, t) :: rest =>
               match to_value t with
               | inl e => inl e
               | inr v => members rest (<[k:=v]> m)
               end
           end) l ∅
      with
      | inl e => inl e
      | inr m => inr (Object m)
      end
  end.

(** The members of a top-level object, decoded into a map. *)
Fixpoint members_map (l : list (string * tree)) (m : gmap string value)
  : error + gmap string value :=
  match l with
  | [] => inr m
  | (k, t) :: rest =>
      match to_value t with
      | inl e => inl e
      | inr v => members_map rest (<[k:=v]> m)
      end
  end.

(** [json.Unmarshal(data, &parsed)] for [var parsed map[string]interface{}].
    A text that is not a JSON document is a syntax error, and [parsed]
    is left alone. An object fills a new map. The document [null] sets
    the map to [nil] and is no error. An array, a string, a number or a
    boolean cannot be stored in a map: a type error. *)
Definition Unmarshal (data : string) : error + option (gmap string value) :=
  match parse data with
  | None => inl SyntaxError
  | Some TNull => inr None
  | Some (TObject l) =>
      match members_map l ∅ with
      | inl e => inl e
      | inr m => inr (Some m)
      end
  | Some (TArray _) => inl (TypeError "array")
  | Some (TBool _) => inl (TypeError "bool")
  | Some (TString _) => inl (TypeError "string")
  | Some (TNumber _) => inl (TypeError "number")
  end.

End JSON.

(** ** The data model ([models.go]) *)

Record Email : Type := {
  MailID : string;
  ExternalID : string;
  ThreadID : string;
  FromName : string;
  FromEmail : string;
  To : list string;
  CC : list string;
  Subject : string;
  Body : string
}.

Record SummaryPayload : Type := { Text : string }.

Record ClassificationPayload : Type := {
  Probabilities : option (gmap string float64);
  Decisions : option (gmap string bool)
}.

Record Action : Type := {
  ActionID : string;
  Action_MailID : string;
  Action_Type : string;
  Status : string;
  Payload : option (gmap string JSON.value);
  Result : option (gmap string JSON.value)
}.

Record NewEmailResponse : Type := {
  Response_MailID : string;
  Summary : option SummaryPayload;
  ProposedActions : list Action;
  Classification : ClassificationPayload
}.

(** [Action{}], the zero value. *)
Definition zeroAction : Action :=
  {| ActionID := ""; Action_MailID := ""; Action_Type := ""; Status := "";
     Payload := None; Result := None |}.

(** ** The gateway client ([api.go]) *)

Record APIClient : Type := { baseURL : string }.

(** What the gateway answers to a request: an error with its text (a
    failed transport, a status outside 2xx, a body that does not decode),
    or the decoded body. *)
Inductive reply (A : Type) : Type :=
| Failed (text : string)
| Decoded (body : A).
Arguments Failed {A} text.
Arguments Decoded {A} body.

(** A request: [post(ctx, path, payload, &response)]. *)
Record request : Type := { path : string; body : gmap string JSON.value }.

Definition approve_request (actionID : string) : request :=
  {| path := "/action/approve"; body := {[ "action_id" := JSON.Str actionID ]} |}.

Definition reject_request (actionID : string) : request :=
  {| path := "/action/reject"; body := {[ "action_id" := JSON.Str actionID ]} |}.

Definition payload_value (payload : option (gmap string JSON.value)) : JSON.value :=
  match payload with
  | Some m => JSON.Object m
  | None => JSON.Null
  end.

Definition modify_request (actionID : string) (payload : option (gmap string JSON.value))
    (applyToGeneral : bool) : request :=
  {| path := "/action/modify";
     body := <[ "action_id" := JSON.Str actionID ]>
             (<[ "payload" := payload_value payload ]>
             (<[ "record_preferences" := JSON.Bool true ]>
             (<[ "apply_to_general_preferences" := JSON.Bool applyToGeneral ]> ∅))) |}.

Definition PostNewEmail (r : reply NewEmailResponse) : option NewEmailResponse * option string :=
  match r with
  | Failed e => (None, Some e)
  | Decoded response => (Some response, None)
  end.

(** [ApproveAction], [RejectAction] and [ModifyAction] hand over what
    [post] answered to their request in the same way. *)
Definition action_result (r : reply Action) : Action * option string :=
  match r with
  | Failed e => (zeroAction, Some e)
  | Decoded response => (response, None)
  end.

(** ** Screens, keys and the viewport *)

Inductive viewState : Type :=
| stateLoading
| statePreviewEmail
| stateSummary
| stateReview
| stateEditingPayload
| statePromptGeneral
| stateSubmittingAction
| stateDone
| stateError.

Definition previewInstruction : string :=
  "Press Enter to submit the email to the agents. Press 'q' to quit.".

(** The key types of [tea] that the client tells apart; any other is
    [KeyOther]. *)
Inductive KeyType : Type :=
| KeyRunes | KeyEnter | KeyCtrlC | KeyCtrlS | KeyEsc
| KeyUp | KeyDown | KeyPgUp | KeyPgDown | KeyHome | KeyEnd
| KeyOther (code : Z).

(** [tea.KeyMsg]; [Runes] is [string(msg.Runes)]. *)
Record KeyMsg : Type := { Type_ : KeyType; Runes : string }.

(** [viewport.Model] of the bubbles library: the public fields [Width],
    [Height] and [YOffset], and the lines of the content. *)
Record viewport_Model : Type := {
  Width : Z;
  Height : Z;
  YOffset : Z;
  lines : list string
}.

Module Viewport.

Definition maxYOffset (v : viewport_Model) : Z := Z.max 0 (GoInt.sub (len (lines v)) (Height v)).

Definition SetYOffset (n : Z) (v : viewport_Model) : viewport_Model :=
  {| Width := Width v; Height := Height v;
     YOffset := Z.max 0 (Z.min n (maxYOffset v)); lines := lines v |}.

Definition AtTop (v : viewport_Model) : bool := YOffset v <=? 0.
Definition AtBottom (v : viewport_Model) : bool := maxYOffset v <=? YOffset v.

Definition GotoTop (v : viewport_Model) : viewport_Model :=
  if AtTop v then v else SetYOffset 0 v.

Definition GotoBottom (v : viewport_Model) : viewport_Model := SetYOffset (maxYOffset v) v.

Definition LineUp (n : Z) (v : viewport_Model) : viewport_Model :=
  if AtTop v || (n =? 0) then v else SetYOffset (GoInt.sub (YOffset v) n) v.

Definition LineDown (n : Z) (v : viewport_Model) : viewport_Model :=
  if AtBottom v || (n =? 0) || (len (lines v) =? 0) then v
  else SetYOffset (GoInt.add (YOffset v) n) v.

Definition ViewUp (v : viewport_Model) : viewport_Model :=
  if AtTop v then v else SetYOffset (GoInt.sub (YOffset v) (Height v)) v.

Definition ViewDown (v : viewport_Model) : viewport_Model :=
  if AtBottom v then v else SetYOffset (GoInt.add (YOffset v) (Height v)) v.

Definition SetContent (s : string) (v : viewport_Model) : viewport_Model :=
  let v1 := {| Width := Width v; Height := Height v; YOffset := YOffset v;
               lines := SplitLines (text (crlf_to_lf (chars s))) |} in
  if GoInt.sub (len (lines v1)) 1 <? YOffset v1 then GotoBottom v1 else v1.

Definition with_size (w h : Z) (v : viewport_Model) : viewport_Model :=
  {| Width := w; Height := h; YOffset := YOffset v; lines := lines v |}.

(** [viewport.New(width, height)]. *)
Definition New (w h : Z) : viewport_Model :=
  {| Width := w; Height := h; YOffset := 0; lines := [] |}.

End Viewport.

(** ** What the libraries provide

    The styles of lipgloss, the spinner and the text area of bubbles, the
    drawing of the viewport's window, the JSON encoder and the wording of
    the decoder's errors. [otherMsg] stands for the messages of the
    runtime that the client has no case for (the ticks of the spinner,
    the blinking of the cursor, the mouse), [widgetCmd] for the commands
    that the widgets hand back. *)

Class Toolkit : Type := {
  titleStyle : string -> string;
  labelStyle : string -> string;
  successStyle : string -> string;
  errorTextStyle : string -> string;
  subtleTextStyle : string -> string;

  otherMsg : Type;
  widgetCmd : Type;

  spinner_Model : Type;
  (** [spinner.New()] with the dot frames and the style of [newAppModel] *)
  spinner_New : spinner_Model;
  spinner_Update : spinner_Model -> otherMsg -> spinner_Model * option widgetCmd;
  spinner_View : spinner_Model -> string;

  textarea_Model : Type;
  (** [textarea.New()] with the placeholder, the line numbers and the
      character limit of [newAppModel] *)
  textarea_New : textarea_Model;
  textarea_SetWidth : Z -> textarea_Model -> textarea_Model;
  textarea_SetHeight : Z -> textarea_Model -> textarea_Model;
  textarea_SetValue : string -> textarea_Model -> textarea_Model;
  textarea_CursorEnd : textarea_Model -> textarea_Model;
  textarea_Focus : textarea_Model -> textarea_Model;
  textarea_Value : textarea_Model -> string;
  textarea_View : textarea_Model -> string;
  textarea_Update : textarea_Model -> KeyMsg -> textarea_Model * option widgetCmd;

  viewport_View : viewport_Model -> string;

  (** [json.MarshalIndent(value, "", "  ")] of a payload or result: the
      text, or the text of the error *)
  MarshalIndent : option (gmap string JSON.value) -> string + string;
  (** [err.Error()] of what [json.Unmarshal] returned for a text *)
  Unmarshal_Error : string -> JSON.error -> string
}.

(** ** The engine ([model.go]) *)

Section Engine.

Context {T : Toolkit}.

(** Commands: what [Update] hands to the runtime. [tea.Quit], the tick
    of the spinner, a command of a widget, the four gateway calls (with
    the arguments their closures capture), and [tea.Batch]. A [nil]
    command is [None]. *)
Inductive Cmd : Type :=
| Quit
| spinner_Tick
| Widget (c : widgetCmd)
| loadSampleEmailCmd (email : Email)
| approveActionCmd (index : Z) (actionID : string)
| rejectActionCmd (index : Z) (actionID : string)
| modifyActionCmd (index : Z) (actionID : string)
    (payload : option (gmap string JSON.value)) (applyToGeneral : bool)
| Batch (cmds : list Cmd).

(** Messages: what the runtime hands to [Update]. An [error] that is
    not [nil] is [Some] of its text. *)
Inductive Msg : Type :=
| WindowSizeMsg (Width Height : Z)
| Key (msg : KeyMsg)
| newEmailMsg (email : Email) (resp : option NewEmailResponse) (err : option string)
| actionUpdatedMsg (index : Z) (action : Action) (err : option string)
| Other (msg : otherMsg).

Record appModel : Type := {
  client : APIClient;
  view : viewState;
  spinner : spinner_Model;
  email : Email;
  emails : list Email;
  currentEmail : Z;
  response : option NewEmailResponse;
  currentAction : Z;
  status : string;
  editor : textarea_Model;
  editorErr : string;
  pending : option (gmap string JSON.value);
  err : option string;
  viewport : viewport_Model
}.

Definition with_view (x : viewState) (m : appModel) : appModel :=
  {| client := client m; view := x; spinner := spinner m; email := email m; emails := emails m; currentEmail := currentEmail m; response := response m; currentAction := currentAction m; status := status m; editor := editor m; editorErr := editorErr m; pending := pending m; err := err m; viewport := viewport m |}.
Definition with_spinner (x : spinner_Model) (m : appModel) : appModel :=
  {| client := client m; view := view m; spinner := x; email := email m; emails := emails m; currentEmail := currentEmail m; response := response m; currentAction := currentAction m; status := status m; editor := editor m; editorErr := editorErr m; pending := pending m; err := err m; viewport := viewport m |}.
Definition with_email (x : Email) (m : appModel) : appModel :=
  {| client := client m; view := view m; spinner := spinner m; email := x; emails := emails m; currentEmail := currentEmail m; response := response m; currentAction := currentAction m; status := status m; editor := editor m; editorErr := editorErr m; pending := pending m; err := err m; viewport := viewport m |}.
Definition with_emails (x : list Email) (m : appModel) : appModel :=
  {| client := client m; view := view m; spinner := spinner m; email := email m; emails := x; currentEmail := currentEmail m; response := response m; currentAction := currentAction m; status := status m; editor := editor m; editorErr := editorErr m; pending := pending m; err := err m; viewport := viewport m |}.
Definition with_currentEmail (x : Z) (m : appModel) : appModel :=
  {| client := client m; view := view m; spinner := spinner m; email := email m; emails := emails m; currentEmail := x; response := response m; currentAction := currentAction m; status := status m; editor := editor m; editorErr := editorErr m; pending := pending m; err := err m; viewport := viewport m |}.
Definition with_response (x : option NewEmailResponse) (m : appModel) : appModel :=
  {| client := client m; view := view m; spinner := spinner m; email := email m; emails := emails m; currentEmail := currentEmail m; response := x; currentAction := currentAction m; status := status m; editor := editor m; editorErr := editorErr m; pending := pending m; err := err m; viewport := viewport m |}.
Definition with_currentAction (x : Z) (m : appModel) : appModel :=
  {| client := client m; view := view m; spinner := spinner m; email := email m; emails := emails m; currentEmail := currentEmail m; response := response m; currentAction := x; status := status m; editor := editor m; editorErr := editorErr m; pending := pending m; err := err m; viewport := viewport m |}.
Definition with_status (x : string) (m : appModel) : appModel :=
  {| client := client m; view := view m; spinner := spinner m; email := email m; emails := emails m; currentEmail := currentEmail m; response := response m; currentAction := currentAction m; status := x; editor := editor m; editorErr := editorErr m; pending := pending m; err := err m; viewport := viewport m |}.
Definition with_editor (x : textarea_Model) (m : appModel) : appModel :=
  {| client := client m; view := view m; spinner := spinner m; email := email m; emails := emails m; currentEmail := currentEmail m; response := response m; currentAction := currentAction m; status := status m; editor := x; editorErr := editorErr m; pending := pending m; err := err m; viewport := viewport m |}.
Definition with_editorErr (x : string) (m : appModel) : appModel :=
  {| client := client m; view := view m; spinner := spinner m; email := email m; emails := emails m; currentEmail := currentEmail m; response := response m; currentAction := currentAction m; status := status m; editor := editor m; editorErr := x; pending := pending m; err := err m; viewport := viewport m |}.
Definition with_pending (x : option (gmap string JSON.value)) (m : appModel) : appModel :=
  {| client := client m; view := view m; spinner := spinner m; email := email m; emails := emails m; currentEmail := currentEmail m; response := response m; currentAction := currentAction m; status := status m; editor := editor m; editorErr := editorErr m; pending := x; err := err m; viewport := viewport m |}.
Definition with_err (x : option string) (m : appModel) : appModel :=
  {| client := client m; view := view m; spinner := spinner m; email := email m; emails := emails m; currentEmail := currentEmail m; response := response m; currentAction := currentAction m; status := status m; editor := editor m; editorErr := editorErr m; pending := pending m; err := x; viewport := viewport m |}.
Definition with_viewport (x : viewport_Model) (m : appModel) : appModel :=
  {| client := client m; view := view m; spinner := spinner m; email := email m; emails := emails m; currentEmail := currentEmail m; response := response m; currentAction := currentAction m; status := status m; editor := editor m; editorErr := editorErr m; pending := pending m; err := err m; viewport := x |}.

Definition newAppModel (client : APIClient) : appModel :=
  {| client := client; view := stateLoading; spinner := spinner_New;
     email := {| MailID := ""; ExternalID := ""; ThreadID := ""; FromName := "";
                 FromEmail := ""; To := []; CC := []; Subject := ""; Body := "" |};
     emails := []; currentEmail := 0; response := None; currentAction := 0;
     status := "";
     editor := textarea_SetHeight 12 (textarea_SetWidth 80 textarea_New);
     editorErr := ""; pending := None; err := None;
     viewport := Viewport.SetContent "" (Viewport.New 80 20) |}.

(** *** Access to the proposed actions *)

Definition hasActions (m : appModel) : bool :=
  match response m with
  | Some r => 0 <? len (ProposedActions r)
  | None => false
  end.

(** [actionAt]: the action at an index, [None] for the [nil] pointer. *)
Definition actionAt (m : appModel) (index : Z) : option Action :=
  match response m with
  | None => None
  | Some r =>
      if (index <? 0) || (len (ProposedActions r) <=? index) then None
      else ProposedActions r !! Z.to_nat index
  end.

Definition currentActionRef (m : appModel) : option Action := actionAt m (currentAction m).

Definition currentActionID (m : appModel) : string :=
  match currentActionRef m with
  | Some action => ActionID action
  | None => ""
  end.

(** [*action = a] through the pointer that [actionAt m index] returned:
    the element of the response's slice is overwritten in place. *)
Definition store_action (index : Z) (a : Action) (m : appModel) : appModel :=
  match response m with
  | Some r =>
      with_response
        (Some {| Response_MailID := Response_MailID r; Summary := Summary r;
                 ProposedActions := <[Z.to_nat index := a]> (ProposedActions r);
                 Classification := Classification r |}) m
  | None => m
  end.

Definition hasMoreEmails (m : appModel) : bool :=
  GoInt.add (currentEmail m) 1 <? len (emails m).

(** *** Rendering *)

Definition labelledLine (label value : string) : string := labelStyle label +:+ " " +:+ value.

Definition formatSender (email : Email) : string :=
  let name := TrimSpace (FromName email) in
  if String.eqb name "" then FromEmail email
  else name +:+ " <" +:+ FromEmail email +:+ ">".

Definition formatAddressList (addresses : list string) : string :=
  if len addresses =? 0 then "" else Join addresses ", ".

Definition indentMultiline (txt indent : string) : string :=
  if String.eqb txt "" then indent
  else
    let lines := SplitLines (text (crlf_to_lf (chars txt))) in
    Join ((fun line => if String.eqb line "" then indent else indent +:+ line) <$> lines) nl.

Definition renderEmailPreview (email : Email) : string :=
  let subject := TrimSpace (Subject email) in
  let to := formatAddressList (To email) in
  let cc := formatAddressList (CC email) in
  titleStyle "Email Ready to Submit" +:+ nl +:+ nl
  +:+ labelledLine "Mail ID:" (MailID email)
  +:+ (if String.eqb subject "" then "" else nl +:+ labelledLine "Subject:" subject)
  +:+ nl +:+ labelledLine "From:" (formatSender email)
  +:+ (if String.eqb to "" then "" else nl +:+ labelledLine "To:" to)
  +:+ (if String.eqb cc "" then "" else nl +:+ labelledLine "CC:" cc)
  +:+ nl +:+ nl +:+ labelStyle "Body:" +:+ nl
  +:+ indentMultiline (Body email) "  ".

Definition renderPreviewEmailContent (m : appModel) : string :=
  let content := renderEmailPreview (email m) in
  let instruction := TrimSpace (status m) in
  let instruction := if String.eqb instruction "" then previewInstruction else instruction in
  content +:+ nl +:+ nl +:+ subtleTextStyle instruction.

(** [mapsKeys] followed by [slices.Sort]: the keys of the map in
    increasing order, bytes compared as unsigned numbers. The order in
    which Go enumerates the map does not show after the sort. *)
Definition mapsKeys (m : gmap string float64) : list string := (map_to_list m).*1.

Definition sortedKeys (m : gmap string float64) : list string :=
  merge_sort String.le (mapsKeys m).

Definition percent (p : float64) : string :=
  Float64.format_f1 (Float64.mul p (Float64.of_Z 100)) +:+ "%".

(** [c.Decisions != nil && c.Decisions[key]] *)
Definition selected (c : ClassificationPayload) (key : string) : bool :=
  match Decisions c with
  | Some d => default false (d !! key)
  | None => false
  end.

Definition classificationLine (c : ClassificationPayload) (probs : gmap string float64)
    (key : string) : string :=
  "- " +:+ key +:+ ": " +:+ percent (default (S754_zero false) (probs !! key))
  +:+ (if selected c key then " (selected)" else "").

Definition renderClassification (c : ClassificationPayload) : string :=
  match Probabilities c with
  | None => "No classification data."
  | Some probs =>
      if len (map_to_list probs) =? 0 then "No classification data."
      else Join (classificationLine c probs <$> sortedKeys probs) nl
  end.

Definition renderSummaryContent (m : appModel) : string :=
  match response m with
  | None => ""
  | Some r =>
      let name := TrimSpace (FromName (email m)) in
      let from :=
        if String.eqb name "" then FromEmail (email m)
        else name +:+ " <" +:+ FromEmail (email m) +:+ ">" in
      let summary :=
        match Summary r with
        | Some s =>
            if String.eqb (TrimSpace (Text s)) "" then ""
            else nl +:+ labelStyle "Summary:" +:+ nl +:+ Text s
        | None => ""
        end in
      titleStyle "Email Summary" +:+ nl +:+ nl
      +:+ labelledLine "Mail ID:" (Response_MailID r) +:+ nl
      +:+ labelledLine "Subject:" (Subject (email m)) +:+ nl
      +:+ labelledLine "From:" from +:+ nl
      +:+ labelledLine "To:" (Join (To (email m)) ", ") +:+ summary +:+ nl +:+ nl
      +:+ labelStyle "Classification:" +:+ nl
      +:+ renderClassification (Classification r) +:+ nl
      +:+ subtleTextStyle "Press Enter to review proposed actions. Use arrow keys to scroll."
  end.

(** [toPrettyJSON] *)
Definition toPrettyJSON (value : option (gmap string JSON.value)) : string + string :=
  MarshalIndent value.

Definition jsonBlock (title : string) (value : option (gmap string JSON.value)) : string :=
  let txt :=
    match toPrettyJSON value with
    | inr t => t
    | inl e => "<unable to render " +:+ ToLower title +:+ ": " +:+ e +:+ ">"
    end in
  nl +:+ labelStyle (title +:+ ":") +:+ nl +:+ txt.

(** The position shown on the review screen: [m.currentAction+1]. *)
Definition position (m : appModel) : Z := GoInt.add (currentAction m) 1.

Definition renderCurrentActionContent (m : appModel) : string :=
  match currentActionRef m, response m with
  | Some action, Some r =>
      let result :=
        match Result action with
        | Some res => jsonBlock "Result" (Some res)
        | None => ""
        end in
      let st :=
        if String.eqb (status m) "" then "" else nl +:+ nl +:+ subtleTextStyle (status m) in
      titleStyle "Proposed Action" +:+ " (" +:+ itoa (position m) +:+ "/"
      +:+ itoa (len (ProposedActions r)) +:+ ")" +:+ nl +:+ nl
      +:+ labelledLine "Action ID:" (ActionID action) +:+ nl
      +:+ labelledLine "Type:" (Action_Type action) +:+ nl
      +:+ labelledLine "Status:" (Status action)
      +:+ jsonBlock "Payload" (Payload action) +:+ result +:+ st +:+ nl +:+ nl
      +:+ "Choose: [a]pprove  [m]odify  [r]eject  [q]uit" +:+ nl
      +:+ "Use arrow keys or PgUp/PgDn to scroll."
  | _, _ => ""
  end.

Definition renderPromptGeneralContent (m : appModel) : string :=
  titleStyle "Preference Update" +:+ nl +:+ nl +:+ status m +:+ nl +:+ nl
  +:+ "Press 'y' to apply to general preferences, 'n' for per-recipient, or Enter for the default (No).".

Definition renderPayloadEditor (m : appModel) : string :=
  let errorLine :=
    if String.eqb (editorErr m) "" then "" else nl +:+ errorTextStyle (editorErr m) in
  titleStyle "Modify Payload" +:+ nl +:+ nl +:+ textarea_View (editor m) +:+ errorLine +:+ nl
  +:+ subtleTextStyle "Press Ctrl+S to submit changes, Esc to cancel.".

Definition renderFinalStatusContent (m : appModel) : string :=
  let actions :=
    match response m with
    | Some r =>
        String.concat ""
          ((fun action => "- " +:+ ActionID action +:+ ": " +:+ Status action +:+ nl)
             <$> ProposedActions r)
        +:+ (if 0 <? len (ProposedActions r) then nl else "")
    | None => ""
    end in
  let st := if String.eqb (status m) "" then "" else status m +:+ nl in
  let instruction :=
    if hasMoreEmails m
    then "Press Enter to load the next email, or 'q' to exit. Use arrow keys to review the list."
    else "Press Enter or 'q' to exit. Use arrow keys to review the list." in
  TrimSuffixNl
    (titleStyle "Review Complete" +:+ nl +:+ nl +:+ actions +:+ st
     +:+ subtleTextStyle instruction).

Definition renderErrorContent (m : appModel) : string :=
  let message :=
    match err m with
    | Some e => errorTextStyle e +:+ nl +:+ nl
    | None => ""
    end in
  titleStyle "Error" +:+ nl +:+ nl +:+ message +:+ subtleTextStyle "Press Enter to exit.".

(** *** The viewport and the current screen *)

Definition viewUsesViewport (m : appModel) : bool :=
  match view m with
  | statePreviewEmail | stateSummary | stateReview | statePromptGeneral
  | stateDone | stateError => true
  | _ => false
  end.

Definition currentViewContent (m : appModel) : string :=
  match view m with
  | statePreviewEmail => renderPreviewEmailContent m
  | stateSummary => renderSummaryContent m
  | stateReview => renderCurrentActionContent m
  | statePromptGeneral => renderPromptGeneralContent m
  | stateDone => renderFinalStatusContent m
  | stateError => renderErrorContent m
  | _ => ""
  end.

Definition refreshViewport (reset : bool) (m : appModel) : appModel :=
  if viewUsesViewport m then
    let vp := Viewport.SetContent (currentViewContent m) (viewport m) in
    with_viewport (if reset then Viewport.GotoTop vp else vp) m
  else m.

Definition setView (v : viewState) (st : string) (m : appModel) : appModel :=
  refreshViewport true (with_status st (with_view v m)).

Definition fail (e : string) (m : appModel) : appModel * option Cmd :=
  (setView stateError "" (with_err (Some e) m), None).

Definition View (m : appModel) : string :=
  match view m with
  | stateLoading | stateSubmittingAction => spinner_View (spinner m) +:+ " " +:+ status m +:+ nl
  | stateEditingPayload => renderPayloadEditor m
  | _ => viewport_View (viewport m)
  end.

(** *** Sample emails *)

Definition buildSampleEmails : list Email :=
  [ {| MailID := "mail-1"; ExternalID := ""; ThreadID := "thread-team-lunch";
       FromName := "Jamie Lee"; FromEmail := "jamie.lee@example.com";
       To := ["user@example.com"]; CC := [];
       Subject := "Team Lunch Catch-Up?";
       Body := Join
         [ "Hi Adrian," +:+ nl +:+ nl +:+ "It's been a while since the Mobile team grabbed lunch together. Are you free next week for a quick catch-up?";
           "I was thinking something casual near the office. Let me know what days work and I'll loop in Taylor to help lock it down." +:+ nl +:+ nl +:+ "Thanks!" +:+ nl +:+ "Jamie" ] " " |};
    {| MailID := "mail-2"; ExternalID := ""; ThreadID := "thread-team-lunch";
       FromName := "Taylor Brooks"; FromEmail := "taylor.brooks@example.com";
       To := ["user@example.com"; "jamie.lee@example.com"]; CC := [];
       Subject := "Re: Team Lunch Catch-Up?";
       Body := Join
         [ "Hi both," +:+ nl +:+ nl +:+ "Great! I can hold a 45-minute slot on either Tuesday at 12:00 PM or Thursday at 12:30 PM.";
           "Let me know which one you prefer and I'll send the calendar invite." +:+ nl +:+ nl +:+ "Thanks," +:+ nl +:+ "Taylor" ] " " |};
    {| MailID := "mail-3"; ExternalID := ""; ThreadID := "thread-team-lunch";
       FromName := "Jamie Lee"; FromEmail := "jamie.lee@example.com";
       To := ["taylor.brooks@example.com"]; CC := ["user@example.com"];
       Subject := "Re: Team Lunch Catch-Up?";
       Body := Join
         [ "Taylor," +:+ nl +:+ nl +:+ "Let's go with Tuesday at 12:00 PM. Adrian and I will meet you in the lobby and walk over to Bella's Deli.";
           "Please send the invite when you have a minute." +:+ nl +:+ nl +:+ "Thanks!" +:+ nl +:+ "Jamie" ] " " |};
    {| MailID := "mail-4"; ExternalID := ""; ThreadID := "thread-team-lunch";
       FromName := "Taylor Brooks"; FromEmail := "taylor.brooks@example.com";
       To := ["user@example.com"; "jamie.lee@example.com"]; CC := [];
       Subject := "Calendar Invite: Tuesday Lunch at Bella's Deli";
       Body := Join
         [ "Calendar invite sent for Tuesday at 12:00 PM at Bella's Deli.";
           "See you both then!" +:+ nl +:+ nl +:+ "Taylor" ] " " |} ].

(** [buildSampleEmail]; [now] is [time.Now().UnixNano()]. *)
Definition buildSampleEmail (now : Z) : Email :=
  {| MailID := "mail-" +:+ itoa now; ExternalID := "";
     ThreadID := "thread-project-launch";
     FromName := "Priya Singh"; FromEmail := "pm@example.com";
     To := ["alice.johnson@example.com"; "diego.martinez@example.com"];
     CC := ["finance@example.com"; "product@example.com"];
     Subject := "Re: Project Launch - Kickoff Prep";
     Body := Join
       [ "Looks solid now! Finance confirmed the numbers on slide 6.";
         "I suggest we trim slide 9 a bit -- too much detail for kickoff.";
         "Otherwise, I think we're ready to present tomorrow.";
         "Please let me know if you're available. Please respond." +:+ nl +:+ nl +:+ "- Priya" ] " " |}.

(** *** Preparing an email *)

Definition prepareEmail (index : Z) (m : appModel) : appModel * option Cmd :=
  if (index <? 0) || (len (emails m) <=? index) then (m, None)
  else
    match emails m !! Z.to_nat index with
    | None => (m, None)
    | Some e =>
        (setView statePreviewEmail previewInstruction
           (with_err None
           (with_editorErr ""
           (with_currentAction 0
           (with_pending None
           (with_response None
           (with_email e
           (with_currentEmail index m))))))),
         None)
    end.

Definition prepareNextEmail (m : appModel) : appModel * option Cmd :=
  let next := GoInt.add (currentEmail m) 1 in
  if len (emails m) <=? next then (m, None) else prepareEmail next m.

Definition Init (now : Z) (m : appModel) : appModel * option Cmd :=
  let emails := buildSampleEmails in
  let emails := if len emails =? 0 then [buildSampleEmail now] else emails in
  prepareEmail 0 (with_emails emails m).

(** *** The handlers *)

Definition handleWindowSize (m : appModel) (Width Height : Z) : appModel :=
  if (Width <=? 0) || (Height <=? 0) then m
  else
    let vh := maxInt 5 (GoInt.sub Height 2) in
    let m1 := with_viewport (Viewport.with_size Width vh (viewport m)) m in
    let m2 :=
      with_editor
        (textarea_SetHeight (maxInt 5 (GoInt.sub vh 2))
           (textarea_SetWidth (maxInt 20 (GoInt.sub Width 4)) (editor m1))) m1 in
    refreshViewport true m2.

(** [handleViewportScroll]: [Some] of the scrolled model for [true],
    [None] for [false], in which case nothing was touched. *)
Definition handleViewportScroll (m : appModel) (msg : KeyMsg) : option appModel :=
  match Type_ msg with
  | KeyUp => Some (with_viewport (Viewport.LineUp 1 (viewport m)) m)
  | KeyDown => Some (with_viewport (Viewport.LineDown 1 (viewport m)) m)
  | KeyPgUp => Some (with_viewport (Viewport.ViewUp (viewport m)) m)
  | KeyPgDown => Some (with_viewport (Viewport.ViewDown (viewport m)) m)
  | KeyHome => Some (with_viewport (Viewport.GotoTop (viewport m)) m)
  | KeyEnd => Some (with_viewport (Viewport.GotoBottom (viewport m)) m)
  | _ => None
  end.

Definition beginEmailSubmission (m : appModel) : appModel * option Cmd :=
  let m1 := setView stateLoading "Submitting email to the agents..." m in
  (m1, Some (Batch [spinner_Tick; loadSampleEmailCmd (email m1)])).

Definition beginActionUpdate (message : string) (cmd : Cmd) (m : appModel)
  : appModel * option Cmd :=
  (setView stateSubmittingAction message m, Some (Batch [spinner_Tick; cmd])).

Definition submitModifiedAction (apply : bool) (m : appModel) : appModel * option Cmd :=
  let cmd := modifyActionCmd (currentAction m) (currentActionID m) (pending m) apply in
  beginActionUpdate "Submitting modified action..." cmd m.

Definition enterPayloadEditor (m : appModel) : appModel * option Cmd :=
  match currentActionRef m with
  | None => (m, None)
  | Some action =>
      match toPrettyJSON (Payload action) with
      | inl e => fail ("format payload: " +:+ e) m
      | inr pretty =>
          (with_view stateEditingPayload
             (with_editorErr ""
             (with_editor
                (textarea_Focus (textarea_CursorEnd (textarea_SetValue pretty (editor m)))) m)),
           None)
      end
  end.

Definition handlePreviewKey (m : appModel) (msg : KeyMsg) : appModel * option Cmd :=
  match Type_ msg with
  | KeyEnter => beginEmailSubmission m
  | KeyRunes => if String.eqb (ToLower (Runes msg)) "q" then (m, Some Quit) else (m, None)
  | _ => (m, None)
  end.

Definition handleReviewKey (m : appModel) (msg : KeyMsg) : appModel * option Cmd :=
  match currentActionRef m, Type_ msg with
  | Some action, KeyRunes =>
      let id := ActionID action in
      let choice := ToLower (Runes msg) in
      if String.eqb choice "a" then
        beginActionUpdate "Approving action..." (approveActionCmd (currentAction m) id) m
      else if String.eqb choice "r" then
        beginActionUpdate "Rejecting action..." (rejectActionCmd (currentAction m) id) m
      else if String.eqb choice "m" then enterPayloadEditor m
      else if String.eqb choice "q" then (m, Some Quit)
      else (m, None)
  | _, _ => (m, None)
  end.

Definition handlePayloadKey (m : appModel) (msg : KeyMsg) : appModel * option Cmd :=
  let '(ed, c) := textarea_Update (editor m) msg in
  let m := with_editor ed m in
  let cmd := Widget <$> c in
  match Type_ msg with
  | KeyCtrlS =>
      let raw := TrimSpace (textarea_Value (editor m)) in
      if String.eqb raw "" then (with_editorErr "Payload cannot be empty." m, cmd)
      else
        match JSON.Unmarshal raw with
        | inl e => (with_editorErr ("Invalid JSON: " +:+ Unmarshal_Error raw e) m, cmd)
        | inr parsed =>
            (setView statePromptGeneral
               "Apply extracted preferences to general profile? (y/N)"
               (with_editorErr "" (with_pending parsed m)),
             cmd)
        end
  | KeyEsc => (setView stateReview (subtleTextStyle "Modification cancelled.") m, cmd)
  | _ => (m, cmd)
  end.

Definition handlePromptKey (m : appModel) (msg : KeyMsg) : appModel * option Cmd :=
  match Type_ msg with
  | KeyRunes =>
      let choice := ToLower (Runes msg) in
      if String.eqb choice "y" then submitModifiedAction true m
      else if String.eqb choice "n" then submitModifiedAction false m
      else (m, None)
  | KeyEnter => submitModifiedAction false m
  | _ => (m, None)
  end.

Definition handleViewKey (m : appModel) (msg : KeyMsg) : appModel * option Cmd :=
  match view m with
  | statePreviewEmail => handlePreviewKey m msg
  | stateSummary =>
      match Type_ msg with
      | KeyEnter => (setView stateReview "" (with_currentAction 0 m), None)
      | _ => (m, None)
      end
  | stateReview => handleReviewKey m msg
  | stateEditingPayload => handlePayloadKey m msg
  | statePromptGeneral => handlePromptKey m msg
  | stateDone =>
      match Type_ msg with
      | KeyEnter => if hasMoreEmails m then prepareNextEmail m else (m, Some Quit)
      | KeyRunes => if String.eqb (ToLower (Runes msg)) "q" then (m, Some Quit) else (m, None)
      | _ => (m, None)
      end
  | stateError =>
      match Type_ msg with
      | KeyEnter => (m, Some Quit)
      | _ => (m, None)
      end
  | _ => (m, None)
  end.

(** [handleKeyMsg]: the terminate key, then the scrolling keys on the
    screens that show the viewport, then the switch on the screen
    ([handleViewKey]). *)
Definition handleKeyMsg (m : appModel) (msg : KeyMsg) : appModel * option Cmd :=
  match Type_ msg with
  | KeyCtrlC => (m, Some Quit)
  | _ =>
      match (if viewUsesViewport m then handleViewportScroll m msg else None) with
      | Some m' => (m', None)
      | None => handleViewKey m msg
      end
  end.

Definition Update (m : appModel) (msg : Msg) : appModel * option Cmd :=
  match msg with
  | WindowSizeMsg w h => (handleWindowSize m w h, None)
  | Key k => handleKeyMsg m k
  | newEmailMsg email resp err =>
      match err with
      | Some e => fail e m
      | None =>
          let m1 := with_response resp (with_email email m) in
          if hasActions m1 then (setView stateSummary "" m1, None)
          else (setView stateDone "No actions to review." m1, None)
      end
  | actionUpdatedMsg index action err =>
      match err with
      | Some e => fail e m
      | None =>
          let m1 :=
            match actionAt m index with
            | Some _ => store_action index action m
            | None => m
            end in
          match actionAt m1 (GoInt.add index 1) with
          | Some _ =>
              (setView stateReview (successStyle "Action updated successfully.")
                 (with_currentAction (GoInt.add index 1) m1),
               Some spinner_Tick)
          | None =>
              (setView stateDone (successStyle "All actions reviewed.") m1,
               Some spinner_Tick)
          end
      end
  | Other o =>
      let '(sp, c) := spinner_Update (spinner m) o in
      (with_spinner sp m, Widget <$> c)
  end.

(** *** The event loop

    The runtime keeps the commands that have been issued and have not
    completed. An event is a key, a resize, a message of the runtime,
    or the completion of one of the commands in flight, which delivers
    the message that its closure returns. *)

Record world : Type := { model : appModel; inflight : list Cmd }.

(** The commands of a (possibly nested) batch. *)
Fixpoint leaves (c : Cmd) : list Cmd :=
  match c with
  | Batch cmds => concat (leaves <$> cmds)
  | _ => [c]
  end.

Definition issued (c : option Cmd) : list Cmd :=
  match c with
  | Some c => leaves c
  | None => []
  end.

Definition is_gateway (c : Cmd) : bool :=
  match c with
  | loadSampleEmailCmd _ | approveActionCmd _ _ | rejectActionCmd _ _
  | modifyActionCmd _ _ _ _ => true
  | _ => false
  end.

(** The gateway calls among the commands that an update returned. *)
Definition gateway_calls (c : option Cmd) : list Cmd := filter is_gateway (issued c).

(** The request that a command posts. *)
Definition request_of (c : Cmd) : option request :=
  match c with
  | approveActionCmd _ id => Some (approve_request id)
  | rejectActionCmd _ id => Some (reject_request id)
  | modifyActionCmd _ id payload apply => Some (modify_request id payload apply)
  | _ => None
  end.

(** What a completion brings: the answer of the gateway, or a message of
    a widget. *)
Inductive outcome : Type :=
| GatewayFailed (text : string)
| EmailProcessed (r : NewEmailResponse)
| ActionReturned (a : Action)
| WidgetSaid (o : otherMsg).

(** A slice of Go has fewer than [2 ^ 63] elements. *)
Definition slice_ok (r : NewEmailResponse) : bool := len (ProposedActions r) <? 2 ^ 63.

(** The message that the closure of a command returns. [tea.Quit]
    returns the message that stops the program: nothing is delivered to
    [Update]. *)
Definition delivers (c : Cmd) (o : outcome) : option Msg :=
  match c, o with
  | loadSampleEmailCmd email, GatewayFailed e =>
      let '(resp, err) := PostNewEmail (Failed e) in Some (newEmailMsg email resp err)
  | loadSampleEmailCmd email, EmailProcessed r =>
      if slice_ok r
      then let '(resp, err) := PostNewEmail (Decoded r) in Some (newEmailMsg email resp err)
      else None
  | approveActionCmd index _, GatewayFailed e
  | rejectActionCmd index _, GatewayFailed e
  | modifyActionCmd index _ _ _, GatewayFailed e =>
      let '(action, err) := action_result (Failed e) in Some (actionUpdatedMsg index action err)
  | approveActionCmd index _, ActionReturned a
  | rejectActionCmd index _, ActionReturned a
  | modifyActionCmd index _ _ _, ActionReturned a =>
      let '(action, err) := action_result (Decoded a) in Some (actionUpdatedMsg index action err)
  | spinner_Tick, WidgetSaid o => Some (Other o)
  | Widget _, WidgetSaid o => Some (Other o)
  | _, _ => None
  end.

Inductive event : Type :=
| Pressed (k : KeyMsg)
| Resized (Width Height : Z)
| Received (o : otherMsg)
| Completed (n : nat) (o : outcome).

Definition deliver (w : world) (rest : list Cmd) (msg : Msg) : world :=
  let '(m, c) := Update (model w) msg in
  {| model := m; inflight := issued c ++ rest |}.

(** One turn of the loop; [None] when the event cannot happen ([n] is
    not a command in flight, or the outcome is not one of its kind). *)
Definition fire (w : world) (e : event) : option world :=
  match e with
  | Pressed k => Some (deliver w (inflight w) (Key k))
  | Resized width height => Some (deliver w (inflight w) (WindowSizeMsg width height))
  | Received o => Some (deliver w (inflight w) (Other o))
  | Completed n o =>
      match inflight w !! n with
      | Some c =>
          match delivers c o with
          | Some msg => Some (deliver w (delete n (inflight w)) msg)
          | None => None
          end
      | None => None
      end
  end.

Fixpoint run (w : world) (es : list event) : option world :=
  match es with
  | [] => Some w
  | e :: rest =>
      match fire w e with
      | Some w' => run w' rest
      | None => None
      end
  end.

(** The program starts with [Init] on the new model. *)
Definition start (client : APIClient) (now : Z) : world :=
  let '(m, c) := Init now (newAppModel client) in
  {| model := m; inflight := issued c |}.

Definition reachable (w : world) : Prop :=
  exists client now es, run (start client now) es = Some w.

End Engine.

(** ** Reviewing the actions one after the other *)

Section Review.

Context {T : Toolkit}.

(** The worlds after each of the events of a run; [None] when one of
    the events cannot happen. *)
Fixpoint run_trace (w : world) (es : list event) : option (list world) :=
  match es with
  | [] => Some []
  | e :: rest =>
      match fire w e with
      | Some w' => (fun ws => w' :: ws) <$> run_trace w' rest
      | None => None
      end
  end.

(** The action that an event brings back: the event is the successful
    completion of a call, of whatever kind (approve, reject or
    modify), that returns an action. Such an event happens only for an
    action call in flight ([delivers]). *)
Definition returned (e : event) : option Action :=
  match e with
  | Completed _ (ActionReturned a) => Some a
  | _ => None
  end.

(** How many of the events are successful completions of action
    calls. *)
Definition completions (es : list event) : nat := length (omap returned es).

(** The screens of the review of the actions of one email once it has
    begun, and the error screen. *)
Definition in_review (v : viewState) : bool :=
  match v with
  | stateReview | stateEditingPayload | statePromptGeneral | stateSubmittingAction
  | stateError => true
  | _ => false
  end.

(** The review goes on in [m'] as in [m]: same result, same action
    index. *)
Definition review_kept (m m' : appModel) : Prop :=
  in_review (view m') = true
  /\ response m' = response m
  /\ currentAction m' = currentAction m.

(** How many times the action index changes along a trace that starts
    at index [cur]. *)
Fixpoint advances (cur : Z) (trace : list appModel) : nat :=
  match trace with
  | [] => 0%nat
  | m :: rest =>
      let moved := if cur =? currentAction m then 0%nat else 1%nat in
      (moved + advances (currentAction m) rest)%nat
  end.

(** How many times the screen becomes [stateDone] along a trace that
    starts on the screen [from]. *)
Fixpoint entries_to_Done (from : viewState) (trace : list appModel) : nat :=
  match trace with
  | [] => 0%nat
  | m :: rest =>
      let entered :=
        match from, view m with
        | stateDone, _ => 0%nat
        | _, stateDone => 1%nat
        | _, _ => 0%nat
        end in
      (entered + entries_to_Done (view m) rest)%nat
  end.

(** The proposed actions of the current response, none before a
    submission. *)
Definition actions (m : appModel) : list Action :=
  match response m with
  | Some r => ProposedActions r
  | None => []
  end.

(** *** Keys by what they mean *)

Definition confirm_key : KeyMsg := {| Type_ := KeyEnter; Runes := "" |}.
Definition save_key : KeyMsg := {| Type_ := KeyCtrlS; Runes := "" |}.

(** A letter key, in either case. *)
Definition letter_key (letter : string) (k : KeyMsg) : Prop :=
  Type_ k = KeyRunes /\ ToLower (Runes k) = letter.

Definition quit_key := letter_key "q".
Definition apply_globally_key := letter_key "y".
Definition per_recipient_key := letter_key "n".

(** The text that the save key submits: the value of the editor once
    it has seen the key, without the surrounding white space. *)
Definition submitted_text (m : appModel) (k : KeyMsg) : string :=
  TrimSpace (textarea_Value (fst (textarea_Update (editor m) k))).

(** What the error screen shows for an error of text [e]. *)
Definition error_screen_text (e : string) : string :=
  titleStyle "Error" +:+ nl +:+ nl +:+ (errorTextStyle e +:+ nl +:+ nl)
  +:+ subtleTextStyle "Press Enter to exit.".

(** The call [c] fails with the error [e], and the completion is
    processed in the model [m]: the model is on the error screen, the
    error is recorded, the content of the screen is the text of the
    error in the error style under the title, the viewport holds the
    lines of that content and is what is drawn, and the confirm key
    quits. *)
Definition fails_to_Error (m : appModel) (c : Cmd) (e : string) : Prop :=
  exists msg,
    delivers c (GatewayFailed e) = Some msg
    /\ snd (Update m msg) = None
    /\ view (fst (Update m msg)) = stateError
    /\ err (fst (Update m msg)) = Some e
    /\ currentViewContent (fst (Update m msg)) = error_screen_text e
    /\ lines (viewport (fst (Update m msg)))
       = SplitLines (text (crlf_to_lf (chars (error_screen_text e))))
    /\ View (fst (Update m msg)) = viewport_View (viewport (fst (Update m msg)))
    /\ handleKeyMsg (fst (Update m msg)) confirm_key = (fst (Update m msg), Some Quit).

(** The viewport after a resize to [w] by [h]: the new size, and on a
    screen that shows it the content of the screen rendered again, from
    the top. *)
Definition resized_viewport (m : appModel) (w h : Z) : viewport_Model :=
  let sized := Viewport.with_size w (maxInt 5 (GoInt.sub h 2)) (viewport m) in
  if viewUsesViewport m
  then Viewport.GotoTop (Viewport.SetContent (currentViewContent m) sized)
  else sized.

Definition resized_editor (m : appModel) (w h : Z) : textarea_Model :=
  textarea_SetHeight (maxInt 5 (GoInt.sub (maxInt 5 (GoInt.sub h 2)) 2))
    (textarea_SetWidth (maxInt 20 (GoInt.sub w 4)) (editor m)).

(** *** What holds of every world that the program reaches *)

Definition calls_in_flight (w : world) : list Cmd := filter is_gateway (inflight w).

Definition reviewing (v : viewState) : bool :=
  match v with
  | stateSummary | stateReview | stateEditingPayload | statePromptGeneral
  | stateSubmittingAction => true
  | _ => false
  end.

Definition not_submitted (v : viewState) : bool :=
  match v with
  | stateLoading | statePreviewEmail => true
  | _ => false
  end.

Definition call_fits (m : appModel) (calls : list Cmd) : Prop :=
  match calls with
  | [] => True
  | [loadSampleEmailCmd _] => view m = stateLoading
  | [approveActionCmd i _] | [rejectActionCmd i _] | [modifyActionCmd i _ _ _] =>
      view m = stateSubmittingAction /\ i = currentAction m
  | _ => False
  end.

(** A model, with the gateway calls in flight: the index into the
    sample emails is valid; the proposed actions are a slice of Go;
    the action index is valid whenever there are actions; there are
    actions on the screens of a review; the action index is 0 until
    the email has been submitted; and at most one call is in flight,
    on the screen that waits for it and for the current action. *)
Definition sound (m : appModel) (calls : list Cmd) : Prop :=
  (0 <= currentEmail m < len (emails m) /\ len (emails m) <= 4)
  /\ len (actions m) < 2 ^ 63
  /\ (actions m <> [] -> 0 <= currentAction m < len (actions m))
  /\ (reviewing (view m) = true -> actions m <> [])
  /\ (not_submitted (view m) = true -> currentAction m = 0)
  /\ call_fits m calls.

Definition consistent (w : world) : Prop := sound (model w) (calls_in_flight w).

End Review.

(** ** A toolkit to run the engine on examples

    No colours, a spinner that counts its frames, a text area that is its
    text and appends the runes typed, a viewport window that shows the
    visible lines, and a stand-in for the encoder. *)

Definition plain : Toolkit := {|
  titleStyle := fun s => s;
  labelStyle := fun s => s;
  successStyle := fun s => s;
  errorTextStyle := fun s => s;
  subtleTextStyle := fun s => s;
  otherMsg := unit;
  widgetCmd := unit;
  spinner_Model := nat;
  spinner_New := 0%nat;
  spinner_Update := fun n _ => (S n, Some tt);
  spinner_View := fun _ => ".";
  textarea_Model := string;
  textarea_New := "";
  textarea_SetWidth := fun _ t => t;
  textarea_SetHeight := fun _ t => t;
  textarea_SetValue := fun s _ => s;
  textarea_CursorEnd := fun t => t;
  textarea_Focus := fun t => t;
  textarea_Value := fun t => t;
  textarea_View := fun t => t;
  textarea_Update := fun t k =>
    match Type_ k with
    | KeyRunes => (t +:+ Runes k, None)
    | _ => (t, None)
    end;
  viewport_View := fun v =>
    Join (take (Z.to_nat (Height v)) (drop (Z.to_nat (YOffset v)) (lines v))) nl;
  MarshalIndent := fun _ => inr "{}";
  Unmarshal_Error := fun _ e =>
    match e with
    | JSON.SyntaxError => "syntax error"
    | JSON.TypeError what =>
        "json: cannot unmarshal " +:+ what +:+ " into Go value of type map[string]interface {}"
    | JSON.RangeError lit =>
        "json: cannot unmarshal number " +:+ lit +:+ " into Go value of type float64"
    end
|}.

Module Examples.

Definition quote : string := String (ascii_of_nat 34) "".

Definition client : APIClient := {| baseURL := "http://localhost:8000" |}.

Definition draft (id : string) : Action :=
  {| ActionID := id; Action_MailID := "mail-1"; Action_Type := "draft_reply";
     Status := "pending"; Payload := Some ∅; Result := None |}.

Definition approved (id : string) : Action :=
  {| ActionID := id; Action_MailID := "mail-1"; Action_Type := "draft_reply";
     Status := "approved"; Payload := Some ∅; Result := None |}.

(** 0.82, as the decoder reads it. *)
Definition p082 : float64 := Float64.of_decimal false 82 (-2).

Definition urgent : ClassificationPayload :=
  {| Probabilities := Some {[ "urgent" := p082 ]};
     Decisions := Some {[ "urgent" := true ]} |}.

(** Three labels, 0.82, 0.125 and 0.0025, the first one selected. *)
Definition three_labels : ClassificationPayload :=
  {| Probabilities := Some {[ "urgent" := p082;
                              "fyi" := Float64.of_decimal false 125 (-3);
                              "spam" := Float64.of_decimal false 25 (-4) ]};
     Decisions := Some {[ "urgent" := true ]} |}.

Definition result_with (acts : list Action) : NewEmailResponse :=
  {| Response_MailID := "mail-1"; Summary := None; ProposedActions := acts;
     Classification := urgent |}.

Definition enter : event (T := plain) := Pressed {| Type_ := KeyEnter; Runes := "" |}.
Definition letter (s : string) : event (T := plain) :=
  Pressed {| Type_ := KeyRunes; Runes := s |}.

(** The first sample email is submitted, and the gateway proposes the
    given actions. After the key, the call is the second command in
    flight, behind the tick of the spinner. *)
Definition submit (acts : list Action) : list (event (T := plain)) :=
  [enter; Completed 1 (EmailProcessed (result_with acts))].

Definition world_after (es : list (event (T := plain))) : world (T := plain) :=
  default (start client 0) (run (start client 0) es).

(** On the review screen, with one action and with two. *)
Definition review_one : world (T := plain) := world_after (submit [draft "act-1"] ++ [enter]).
Definition review_two : world (T := plain) :=
  world_after (submit [draft "act-1"; draft "act-2"] ++ [enter]).

Definition approve_round (a : Action) : list (event (T := plain)) :=
  [letter "a"; Completed 1 (ActionReturned a)].

Definition reject_round (a : Action) : list (event (T := plain)) :=
  [letter "r"; Completed 1 (ActionReturned a)].

(** A review of two actions has left the action index at 1; the next
    sample email is on the preview screen; it has been submitted and
    the call is in flight. *)
Definition reviewed_two : world (T := plain) :=
  world_after (submit [draft "act-1"; draft "act-2"] ++ [enter]
               ++ approve_round (approved "act-1") ++ approve_round (approved "act-2")).

Definition second_submission : world (T := plain) :=
  world_after (submit [draft "act-1"; draft "act-2"] ++ [enter]
               ++ approve_round (approved "act-1") ++ approve_round (approved "act-2")
               ++ [enter; enter]).

Definition press (t : KeyType) : event (T := plain) := Pressed {| Type_ := t; Runes := "" |}.

(** The operator edits the payload of the current action, saves it as
    it is, applies it globally, and the gateway returns the action. *)
Definition modify_round (a : Action) : list (event (T := plain)) :=
  [letter "m"; press KeyCtrlS; letter "y"; Completed 1 (ActionReturned a)].

(** The operator opens the editor, types a letter behind the payload,
    fails to save the text, which is no JSON, and gives up. *)
Definition failed_edit : list (event (T := plain)) :=
  [letter "m"; letter "x"; press KeyCtrlS; press KeyEsc].

(** The completion screen of the first email after a review of two
    actions that has left its traces: the action index is 1, a
    pending edit is still stored and the inline error is not empty. *)
Definition done_edited : world (T := plain) :=
  world_after (submit [draft "act-1"; draft "act-2"] ++ [enter]
               ++ modify_round (approved "act-1")
               ++ failed_edit ++ approve_round (approved "act-2")).

(** The completion screen of the last of the four sample emails. *)
Definition done_last : world (T := plain) :=
  world_after (submit [] ++ [enter] ++ submit [] ++ [enter] ++ submit [] ++ [enter]
               ++ submit []).

(** A review of two actions: the first is modified, the terminal is
    resized, an edit of the second fails and is given up, and the
    second is rejected. *)
Definition review_events : list (event (T := plain)) :=
  modify_round (approved "act-1") ++ [Resized 80 24] ++ failed_edit
  ++ reject_round (approved "act-2").

Definition review_worlds : list (world (T := plain)) :=
  default [] (run_trace review_two review_events).

(** On the completion screen with no action to review, the second
    sample email waiting. *)
Definition done_none : world (T := plain) := world_after (submit []).

(** On the error screen: the gateway failed on the submission. *)
Definition failed : world (T := plain) :=
  world_after [enter; Completed 1 (GatewayFailed "post /new_email: status 500: boom")].

(** In the payload editor, the buffer replaced by the given text. *)
Definition editing (buffer : string) : appModel (T := plain) :=
  with_editor (T := plain) buffer
    (model (world_after (submit [draft "act-1"] ++ [enter; letter "m"]))).

Definition object_text : string := "{" +:+ quote +:+ "k" +:+ quote +:+ ": 1}".

(** An object with a number that no [float64] holds. *)
Definition huge_text : string := "{" +:+ quote +:+ "k" +:+ quote +:+ ": 1e999}".

End Examples.

(** ** The rest of the gateway client ([api.go]) *)

(** [strings.TrimRight(s, "/")]: the slashes at the end are dropped;
    the argument is the text reversed. *)
Fixpoint drop_slashes (r : list ascii) : list ascii :=
  match r with
  | c :: rest => if byte c =? 47 then drop_slashes rest else r
  | [] => []
  end.

Definition TrimRightSlash (s : string) : string := text (rev (drop_slashes (rev (chars s)))).

(** [NewAPIClient]; the HTTP client and its timeout are the library's. *)
Definition NewAPIClient (url : string) : APIClient := {| baseURL := TrimRightSlash url |}.

(** What can happen to a request inside [post]: [json.Marshal] of the
    payload fails, [http.NewRequestWithContext] fails, [httpClient.Do]
    fails (among others by the timeout), or a response comes back with
    its status code and the body as read. *)
Inductive exchange : Type :=
| MarshalFails (e : string)
| NewRequestFails (e : string)
| DoFails (e : string)
| Responds (StatusCode : Z) (Body : string).

(** [post]; [decode] is the decoder of the response into the target,
    which returns the value or the text of its error. *)
Definition post {A : Type} (decode : string -> string + A) (path : string) (x : exchange)
  : reply A :=
  match x with
  | MarshalFails e => Failed ("encode request: " +:+ e)
  | NewRequestFails e => Failed ("create request: " +:+ e)
  | DoFails e => Failed ("post " +:+ path +:+ ": " +:+ e)
  | Responds code raw =>
      if (code <? 200) || (300 <=? code) then
        Failed ("post " +:+ path +:+ ": status " +:+ itoa code +:+ ": " +:+ TrimSpace raw)
      else
        match decode raw with
        | inl e => Failed ("decode response: " +:+ e)
        | inr v => Decoded v
        end
  end.

Section Running.

Context {T : Toolkit}.

(** The closure of a command, run on what happens to its request: the
  message it returns. The commands of the widgets and [tea.Quit] are
  not gateway calls. *)
Definition run_call (decodeEmail : string -> string + NewEmailResponse)
  (decodeAction : string -> string + Action) (c : Cmd) (x : exchange) : option Msg :=
match c with
| loadSampleEmailCmd email =>
    let '(resp, err) := PostNewEmail (post decodeEmail "/new_email" x) in
    Some (newEmailMsg email resp err)
| approveActionCmd index _ =>
    let '(action, err) := action_result (post decodeAction "/action/approve" x) in
    Some (actionUpdatedMsg index action err)
| rejectActionCmd index _ =>
    let '(action, err) := action_result (post decodeAction "/action/reject" x) in
    Some (actionUpdatedMsg index action err)
| modifyActionCmd index _ _ _ =>
    let '(action, err) := action_result (post decodeAction "/action/modify" x) in
    Some (actionUpdatedMsg index action err)
| _ => None
end.

(** [renderClassification] with the keys of the map enumerated in the
  order [keys], as [mapsKeys] may return them in any order. *)
Definition renderClassificationFrom (keys : list string) (c : ClassificationPayload) : string :=
match Probabilities c with
| None => "No classification data."
| Some probs =>
    if len (map_to_list probs) =? 0 then "No classification data."
    else Join (classificationLine c probs <$> merge_sort String.le keys) nl
end.

(** The viewport holds the lines of the content of the current screen,
  on the screens that show it. *)
Definition shows_current_content (m : appModel) : Prop :=
viewUsesViewport m = true ->
lines (viewport m) = SplitLines (text (crlf_to_lf (chars (currentViewContent m)))).

(** The keys that scroll the viewport. *)
Definition scroll_key (k : KeyMsg) : bool :=
match Type_ k with
| KeyUp | KeyDown | KeyPgUp | KeyPgDown | KeyHome | KeyEnd => true
| _ => false
end.

Definition cancel_key : KeyMsg := {| Type_ := KeyEsc; Runes := "" |}.

(** A key that the payload editor only hands to the text area: neither
  the save key nor the cancel key. *)
Definition editing_key (k : KeyMsg) : bool :=
match Type_ k with
| KeyCtrlS | KeyEsc => false
| _ => true
end.

(** The keys pressed one after the other. *)
Fixpoint press_all (m : appModel) (ks : list KeyMsg) : appModel :=
match ks with
| [] => m
| k :: rest => press_all (fst (handleKeyMsg m k)) rest
end.

(** A text without a line feed. *)
Definition one_line (s : string) : Prop := Forall (fun c => byte c <> 10) (chars s).

(** The session, apart from the screen, the status line, the viewport
  and the widgets. *)
Definition same_session (m m' : appModel) : Prop :=
client m' = client m /\ email m' = email m /\ emails m' = emails m
/\ currentEmail m' = currentEmail m /\ response m' = response m
/\ currentAction m' = currentAction m /\ pending m' = pending m /\ err m' = err m.

(** A call carries what is current in the model: a submission the
  current email; an approve or reject command the identifier of the
  current action; a modify command that identifier and the pending
  edit. *)
Definition call_is_current (m : appModel) (c : Cmd) : Prop :=
match c with
| loadSampleEmailCmd e => e = email m
| approveActionCmd _ id | rejectActionCmd _ id => id = currentActionID m
| modifyActionCmd _ id payload _ => id = currentActionID m /\ payload = pending m
| _ => True
end.

(** The current email is the sample at the current index of the list of
  samples, which is the one built at the start, and the calls in
  flight carry what is current. *)
Definition in_step (w : world) : Prop :=
emails (model w) = buildSampleEmails
/\ emails (model w) !! Z.to_nat (currentEmail (model w)) = Some (email (model w))
/\ Forall (call_is_current (model w)) (calls_in_flight w).

End Running.

(** * Properties *)

Local Arguments GoInt.wrap64 : simpl never.
Local Arguments GoInt.add : simpl never.
Local Arguments GoInt.sub : simpl never.
Local Arguments refreshViewport : simpl never.
Local Arguments setView : simpl never.
Local Arguments TrimSpace : simpl never.
Local Arguments ToLower : simpl never.
Local Arguments JSON.Unmarshal : simpl never.

(** ** Integers *)

Lemma wrap64_in_range z : GoInt.in_range z -> GoInt.wrap64 z = z.
Proof.
  unfold GoInt.in_range, GoInt.wrap64. intros Hz.
  rewrite Z.mod_small by lia. lia.
Qed.

Lemma add_in_range a b : GoInt.in_range (a + b) -> GoInt.add a b = a + b.
Proof. apply wrap64_in_range. Qed.

Lemma len_nonneg {A} (l : list A) : 0 <= len l.
Proof. unfold len. lia. Qed.

Lemma len_nil_iff {A} (l : list A) : len l = 0 <-> l = [].
Proof. unfold len. destruct l; simpl; split; intros; try done; lia. Qed.

(** ** Trimming *)

(** With the length of the text as fuel, trimming stops because no white
    space is left, not because the fuel is spent. *)
Lemma trim_with_settles (width : list ascii -> nat) (fuel : nat) (l : list ascii) :
  width [] = 0%nat -> (length l <= fuel)%nat ->
  width (trim_with width fuel l) = 0%nat.
Proof.
  intros Hnil. revert l. induction fuel as [|fuel IH]; intros l Hlen; cbn [trim_with].
  - destruct l; [exact Hnil | cbn in Hlen; lia].
  - destruct (width l) as [|k] eqn:E; [exact E|].
    apply IH. rewrite length_drop. lia.
Qed.

Lemma TrimSpace_start_trimmed (l : list ascii) :
  leading_space (trim_with leading_space (length l) l) = 0%nat.
Proof. apply trim_with_settles; [reflexivity | lia]. Qed.

Lemma TrimSpace_end_trimmed (r : list ascii) :
  trailing_space (trim_with trailing_space (length r) r) = 0%nat.
Proof. apply trim_with_settles; [reflexivity | lia]. Qed.

(** ** What the setters and [setView] leave alone *)

Section Frame.

Context {T : Toolkit}.

Lemma refreshViewport_eq reset (m : appModel) :
  refreshViewport reset m = with_viewport (viewport (refreshViewport reset m)) m.
Proof.
  unfold refreshViewport. destruct (viewUsesViewport m); destruct m; reflexivity.
Qed.

Lemma setView_eq v st (m : appModel) :
  setView v st m = with_viewport (viewport (setView v st m)) (with_status st (with_view v m)).
Proof. unfold setView. apply refreshViewport_eq. Qed.

Lemma setView_view v st (m : appModel) : view (setView v st m) = v.
Proof. rewrite setView_eq. reflexivity. Qed.

Lemma setView_status v st (m : appModel) : status (setView v st m) = st.
Proof. rewrite setView_eq. reflexivity. Qed.

Lemma setView_currentAction v st (m : appModel) :
  currentAction (setView v st m) = currentAction m.
Proof. rewrite setView_eq. reflexivity. Qed.

Lemma setView_response v st (m : appModel) : response (setView v st m) = response m.
Proof. rewrite setView_eq. reflexivity. Qed.

Lemma setView_email v st (m : appModel) : email (setView v st m) = email m.
Proof. rewrite setView_eq. reflexivity. Qed.

Lemma setView_emails v st (m : appModel) : emails (setView v st m) = emails m.
Proof. rewrite setView_eq. reflexivity. Qed.

Lemma setView_currentEmail v st (m : appModel) :
  currentEmail (setView v st m) = currentEmail m.
Proof. rewrite setView_eq. reflexivity. Qed.

Lemma setView_pending v st (m : appModel) : pending (setView v st m) = pending m.
Proof. rewrite setView_eq. reflexivity. Qed.

Lemma setView_err v st (m : appModel) : err (setView v st m) = err m.
Proof. rewrite setView_eq. reflexivity. Qed.

Lemma setView_editorErr v st (m : appModel) : editorErr (setView v st m) = editorErr m.
Proof. rewrite setView_eq. reflexivity. Qed.

Lemma setView_editor v st (m : appModel) : editor (setView v st m) = editor m.
Proof. rewrite setView_eq. reflexivity. Qed.

Lemma setView_spinner v st (m : appModel) : spinner (setView v st m) = spinner m.
Proof. rewrite setView_eq. reflexivity. Qed.

Lemma setView_client v st (m : appModel) : client (setView v st m) = client m.
Proof. rewrite setView_eq. reflexivity. Qed.

Lemma setView_actions v st (m : appModel) : actions (setView v st m) = actions m.
Proof. unfold actions. rewrite setView_response. reflexivity. Qed.

(** On a screen that shows the viewport, [setView] leaves in it the
    lines of the screen's content, scrolled to the top. *)
Lemma GotoTop_lines v : lines (Viewport.GotoTop v) = lines v.
Proof. unfold Viewport.GotoTop. destruct (Viewport.AtTop v); reflexivity. Qed.

Lemma SetContent_lines s v :
  lines (Viewport.SetContent s v) = SplitLines (text (crlf_to_lf (chars s))).
Proof.
  unfold Viewport.SetContent. simpl.
  match goal with |- context [if ?c then _ else _] => destruct c end; reflexivity.
Qed.

Lemma GotoTop_size v :
  Width (Viewport.GotoTop v) = Width v /\ Height (Viewport.GotoTop v) = Height v.
Proof. unfold Viewport.GotoTop. destruct (Viewport.AtTop v); split; reflexivity. Qed.

Lemma SetContent_size s v :
  Width (Viewport.SetContent s v) = Width v /\ Height (Viewport.SetContent s v) = Height v.
Proof.
  unfold Viewport.SetContent. simpl.
  match goal with |- context [if ?c then _ else _] => destruct c end; split; reflexivity.
Qed.

Lemma refreshViewport_lines reset (m : appModel) :
  viewUsesViewport m = true ->
  lines (viewport (refreshViewport reset m))
  = SplitLines (text (crlf_to_lf (chars (currentViewContent m)))).
Proof.
  intros H. unfold refreshViewport. rewrite H. simpl.
  destruct reset; rewrite ?GotoTop_lines; apply SetContent_lines.
Qed.

Lemma setView_lines v st (m : appModel) :
  viewUsesViewport (with_status st (with_view v m)) = true ->
  lines (viewport (setView v st m))
  = SplitLines (text (crlf_to_lf (chars (currentViewContent (with_status st (with_view v m)))))).
Proof. apply refreshViewport_lines. Qed.

(** The content of a screen is drawn from the session, not from the
    viewport or the editor. *)
Lemma currentViewContent_frame vp ed (m : appModel) :
  currentViewContent (with_viewport vp (with_editor ed m)) = currentViewContent m.
Proof. destruct m. reflexivity. Qed.

End Frame.

Create Rewrite HintDb fields.

#[local] Hint Rewrite @setView_view @setView_status @setView_currentAction @setView_response
  @setView_email @setView_emails @setView_currentEmail @setView_pending @setView_err
  @setView_editorErr @setView_editor @setView_spinner @setView_client @setView_actions : fields.

Local Opaque setView refreshViewport.


(** ** Gateway errors, the quit key, resizing *)

Section Screens.

Context {T : Toolkit}.

Lemma fail_Error e (m : appModel) :
  snd (fail e m) = None
  /\ view (fst (fail e m)) = stateError
  /\ err (fst (fail e m)) = Some e
  /\ currentViewContent (fst (fail e m)) = error_screen_text e
  /\ lines (viewport (fst (fail e m)))
     = SplitLines (text (crlf_to_lf (chars (error_screen_text e))))
  /\ View (fst (fail e m)) = viewport_View (viewport (fst (fail e m)))
  /\ handleKeyMsg (fst (fail e m)) confirm_key = (fst (fail e m), Some Quit).
Proof.
  unfold fail. cbn [fst snd]. split_and!.
  - reflexivity.
  - apply setView_view.
  - rewrite setView_err. reflexivity.
  - unfold currentViewContent, renderErrorContent.
    rewrite setView_view, setView_err. reflexivity.
  - rewrite setView_lines; reflexivity.
  - unfold View. rewrite setView_view. reflexivity.
  - unfold handleKeyMsg, handleViewKey, viewUsesViewport.
    rewrite setView_view. reflexivity.
Qed.

(** C5. Whatever the model, when one of the four gateway calls
    (submit-email, approve, reject, modify) fails with an error, the
    processing of its completion puts the engine on the error screen
    and records the error; the content of that screen is the title,
    the text of the error in the error style and the instruction; that
    content is what the viewport holds and draws; and the confirm key
    then returns the quit command. *)
Theorem gateway_error_goes_to_Error (m : appModel) (e : string) email index id payload apply :
  fails_to_Error m (loadSampleEmailCmd email) e
  /\ fails_to_Error m (approveActionCmd index id) e
  /\ fails_to_Error m (rejectActionCmd index id) e
  /\ fails_to_Error m (modifyActionCmd index id payload apply) e.
Proof.
  repeat split; eexists; (split; [reflexivity|]); apply (fail_Error e m).
Qed.

Lemma letter_not_scroll letter (m : appModel) k :
  letter_key letter k -> handleKeyMsg m k = handleViewKey m k.
Proof.
  intros [Hk _]. unfold handleKeyMsg, handleViewportScroll. rewrite Hk.
  destruct (viewUsesViewport m); reflexivity.
Qed.

(** C6, as the code has it. The quit key (q, in either case) returns
    the quit command on the completion screen. On the error screen it
    is ignored, the model is left as it is and no command comes back.
    There the quit command is returned for exactly two keys, the
    confirm key and the terminate key (Ctrl+C): every other key
    returns no command at all, and leaves the model as it is but for
    the viewport, which the scrolling keys move. *)
Theorem quit_key_on_Done_not_on_Error (m : appModel) k :
  quit_key k ->
  match view m with
  | stateDone => handleKeyMsg m k = (m, Some Quit)
  | stateError =>
      handleKeyMsg m k = (m, None)
      /\ handleKeyMsg m confirm_key = (m, Some Quit)
      /\ (forall key, snd (handleKeyMsg m key) = Some Quit
                      <-> Type_ key = KeyEnter \/ Type_ key = KeyCtrlC)
      /\ (forall key, Type_ key <> KeyEnter -> Type_ key <> KeyCtrlC ->
             snd (handleKeyMsg m key) = None
             /\ fst (handleKeyMsg m key)
                = with_viewport (viewport (fst (handleKeyMsg m key))) m)
  | _ => True
  end.
Proof.
  intros Hq. pose proof (letter_not_scroll "q" m k Hq) as Hs. destruct Hq as [Hk Hr].
  destruct (view m) eqn:Hv; try exact I.
  - rewrite Hs. unfold handleViewKey. rewrite Hv, Hk, Hr. reflexivity.
  - assert (Hany : forall key,
               (Type_ key = KeyEnter /\ handleKeyMsg m key = (m, Some Quit))
               \/ (Type_ key = KeyCtrlC /\ handleKeyMsg m key = (m, Some Quit))
               \/ (Type_ key <> KeyEnter /\ Type_ key <> KeyCtrlC
                   /\ snd (handleKeyMsg m key) = None
                   /\ fst (handleKeyMsg m key)
                      = with_viewport (viewport (fst (handleKeyMsg m key))) m)).
    { intros key. unfold handleKeyMsg, handleViewKey, viewUsesViewport, handleViewportScroll.
      rewrite Hv. destruct m as [c v sp em ems ce r ca st ed ee p er vp].
      destruct (Type_ key) eqn:Ht; cbn;
        first [ left; split; [reflexivity|reflexivity]
              | right; left; split; [reflexivity|reflexivity]
              | right; right; split_and!; [discriminate | discriminate | reflexivity
                                          | reflexivity] ]. }
    split_and!.
    + rewrite Hs. unfold handleViewKey. rewrite Hv, Hk. reflexivity.
    + unfold handleKeyMsg, handleViewKey, viewUsesViewport. rewrite Hv. reflexivity.
    + intros key. destruct (Hany key) as [[Ht He] | [[Ht He] | (H1 & H2 & Hn & _)]].
      * rewrite He. split; [intros _; left; exact Ht | reflexivity].
      * rewrite He. split; [intros _; right; exact Ht | reflexivity].
      * rewrite Hn. split; [discriminate | intros [H | H]; contradiction].
    + intros key H1 H2. destruct (Hany key) as [[Ht _] | [[Ht _] | (_ & _ & Hn & Hm)]];
        [contradiction | contradiction | split; assumption].
Qed.

Local Transparent refreshViewport.

Lemma handleWindowSize_eq (m : appModel) w h :
  handleWindowSize m w h
  = if (w <=? 0) || (h <=? 0) then m
    else with_viewport (resized_viewport m w h) (with_editor (resized_editor m w h) m).
Proof.
  unfold handleWindowSize, resized_viewport, resized_editor, refreshViewport.
  destruct ((w <=? 0) || (h <=? 0)); [reflexivity|].
  destruct m as [c v sp em ems ce r ca st ed ee p er vp]. unfold viewUsesViewport. simpl.
  destruct v; reflexivity.
Qed.

Local Opaque refreshViewport.

(** C7. Whatever the model and the size announced, processing a resize
    returns no command and leaves the screen, the action index, the
    current email, the email list and the index into it, the
    submission result with its actions, the pending edit, the recorded
    error, the status line, the editor's error, the spinner and the
    client as they were. A size that is not positive changes nothing.
    Otherwise the editor is given its new width and height, and the
    viewport its new width and height; on a screen that shows the
    viewport its content is the content of the unchanged session
    rendered again, shown from the top. *)
Theorem resize_changes_only_geometry (m : appModel) (w h : Z) :
  snd (Update m (WindowSizeMsg w h)) = None
  /\ view (fst (Update m (WindowSizeMsg w h))) = view m
  /\ currentAction (fst (Update m (WindowSizeMsg w h))) = currentAction m
  /\ email (fst (Update m (WindowSizeMsg w h))) = email m
  /\ emails (fst (Update m (WindowSizeMsg w h))) = emails m
  /\ currentEmail (fst (Update m (WindowSizeMsg w h))) = currentEmail m
  /\ response (fst (Update m (WindowSizeMsg w h))) = response m
  /\ pending (fst (Update m (WindowSizeMsg w h))) = pending m
  /\ err (fst (Update m (WindowSizeMsg w h))) = err m
  /\ status (fst (Update m (WindowSizeMsg w h))) = status m
  /\ editorErr (fst (Update m (WindowSizeMsg w h))) = editorErr m
  /\ spinner (fst (Update m (WindowSizeMsg w h))) = spinner m
  /\ client (fst (Update m (WindowSizeMsg w h))) = client m
  /\ editor (fst (Update m (WindowSizeMsg w h)))
     = (if (w <=? 0) || (h <=? 0) then editor m else resized_editor m w h)
  /\ viewport (fst (Update m (WindowSizeMsg w h)))
     = (if (w <=? 0) || (h <=? 0) then viewport m else resized_viewport m w h)
  /\ (if (w <=? 0) || (h <=? 0) then True
      else Width (resized_viewport m w h) = w
           /\ Height (resized_viewport m w h) = maxInt 5 (GoInt.sub h 2)).
Proof.
  simpl. rewrite handleWindowSize_eq.
  destruct ((w <=? 0) || (h <=? 0)) eqn:E; simpl; split_and!; try reflexivity.
  - unfold resized_viewport. destruct (viewUsesViewport m); [|reflexivity].
    rewrite (proj1 (GotoTop_size _)), (proj1 (SetContent_size _ _)). reflexivity.
  - unfold resized_viewport. destruct (viewUsesViewport m); [|reflexivity].
    rewrite (proj2 (GotoTop_size _)), (proj2 (SetContent_size _ _)). reflexivity.
Qed.

End Screens.

(** The error screen of the example is reached by the program, and the
    quit key does nothing there: C6 as stated fails. *)
Lemma quit_key_ignored_on_Error :
  run (start (T := plain) Examples.client 0)
    [Examples.enter; Completed 1 (GatewayFailed "post /new_email: status 500: boom")]
  = Some Examples.failed
  /\ view (model Examples.failed) = stateError
  /\ quit_key {| Type_ := KeyRunes; Runes := "q" |}
  /\ snd (handleKeyMsg (model Examples.failed) {| Type_ := KeyRunes; Runes := "q" |}) = None
  /\ snd (handleKeyMsg (model Examples.failed) {| Type_ := KeyRunes; Runes := "q" |})
     <> Some Quit.
Proof. vm_compute. repeat split; congruence. Qed.

Lemma quit_key_on_Done_not_on_Error_witness :
  quit_key {| Type_ := KeyRunes; Runes := "Q" |}
  /\ view (model Examples.failed) = stateError
  /\ view (model Examples.done_none) = stateDone
  /\ handleKeyMsg (model Examples.failed) {| Type_ := KeyRunes; Runes := "Q" |}
     = (model Examples.failed, None)
  /\ (forall key, snd (handleKeyMsg (model Examples.failed) key) = Some Quit
                  <-> Type_ key = KeyEnter \/ Type_ key = KeyCtrlC)
  /\ handleKeyMsg (model Examples.done_none) {| Type_ := KeyRunes; Runes := "Q" |}
     = (model Examples.done_none, Some Quit).
Proof.
  assert (Hq : quit_key {| Type_ := KeyRunes; Runes := "Q" |}) by (split; reflexivity).
  split; [exact Hq|].
  split; [vm_compute; reflexivity|]. split; [vm_compute; reflexivity|]. split_and!.
  - exact (proj1 (quit_key_on_Done_not_on_Error (T := plain) (model Examples.failed) _ Hq)).
  - exact (proj1 (proj2 (proj2 (quit_key_on_Done_not_on_Error (T := plain)
                                  (model Examples.failed) _ Hq)))).
  - exact (quit_key_on_Done_not_on_Error (T := plain) (model Examples.done_none) _ Hq).
Defined.

(** ** The classification block *)

Lemma sortedKeys_sorted (probs : gmap string float64) :
  StronglySorted String.le (sortedKeys probs).
Proof. unfold sortedKeys. apply StronglySorted_merge_sort; apply _. Qed.

Lemma sortedKeys_perm (probs : gmap string float64) :
  sortedKeys probs ≡ₚ (map_to_list probs).*1.
Proof. unfold sortedKeys, mapsKeys. apply merge_sort_Permutation. Qed.

Lemma sortedKeys_NoDup (probs : gmap string float64) : NoDup (sortedKeys probs).
Proof. rewrite sortedKeys_perm. apply NoDup_fst_map_to_list. Qed.

Lemma sortedKeys_elem (probs : gmap string float64) (k : string) :
  k ∈ sortedKeys probs <-> is_Some (probs !! k).
Proof.
  rewrite sortedKeys_perm, list_elem_of_fmap. split.
  - intros [[k' v] [-> Hin]]. apply elem_of_map_to_list in Hin. eauto.
  - intros [v Hv]. exists (k, v). split; [reflexivity|]. by apply elem_of_map_to_list.
Qed.

(** The order in which the keys of the map are enumerated does not show:
    any enumeration sorts to the same list. *)
Lemma sorted_keys_unique (probs : gmap string float64) (ks : list string) :
  ks ≡ₚ (map_to_list probs).*1 -> merge_sort String.le ks = sortedKeys probs.
Proof.
  intros Hp. apply (StronglySorted_unique String.le).
  - apply StronglySorted_merge_sort; apply _.
  - apply sortedKeys_sorted.
  - rewrite merge_sort_Permutation, Hp. symmetry. apply sortedKeys_perm.
Qed.

(** *** One decimal place *)

Lemma tenths_nearest (m : positive) (e : Z) :
  Float64.nearest_tenths m e (Float64.tenths m e) /\ 0 <= Float64.tenths m e.
Proof.
  unfold Float64.nearest_tenths, Float64.tenths, Float64.numerator, Float64.denominator.
  cbv zeta. destruct (0 <=? e) eqn:E.
  - apply Z.leb_le in E. rewrite (Z.max_r 0 e), (Z.max_l 0 (- e)) by lia.
    change (2 ^ 0) with 1.
    replace (Z.pos m * 2 ^ e * 10 * 1 - 10 * (Z.pos m * 2 ^ e)) with 0 by ring.
    cbn [Z.abs]. split; [split; [lia | intros H; discriminate H]|].
    assert (0 < 2 ^ e) by (apply Z.pow_pos_nonneg; lia). nia.
  - apply Z.leb_gt in E. rewrite (Z.max_l 0 e), (Z.max_r 0 (- e)) by lia.
    change (2 ^ 0) with 1. rewrite Z.mul_1_r.
    set (den := 2 ^ (- e)).
    assert (Hden : 0 < den) by (apply Z.pow_pos_nonneg; lia).
    pose proof (Z.div_mod (Z.pos m * 10) den ltac:(lia)) as Hdm.
    pose proof (Z.mod_pos_bound (Z.pos m * 10) den Hden) as Hr.
    assert (Hq : 0 <= Z.pos m * 10 / den) by (apply Z.div_pos; lia).
    set (q := Z.pos m * 10 / den) in *. set (r := (Z.pos m * 10) mod den) in *.
    destruct (2 * r ?= den) eqn:C.
    + apply Z.compare_eq in C. destruct (Z.even q) eqn:Ev.
      * split; [split; [|intros _; exact Ev]|lia].
        replace (q * den - 10 * Z.pos m) with (- r) by lia. lia.
      * split; [split|lia].
        -- replace ((q + 1) * den - 10 * Z.pos m) with (den - r) by lia. lia.
        -- intros _. rewrite Z.even_add, Ev. reflexivity.
    + rewrite Z.compare_lt_iff in C. split; [split|lia].
      * replace (q * den - 10 * Z.pos m) with (- r) by lia. lia.
      * replace (q * den - 10 * Z.pos m) with (- r) by lia. lia.
    + rewrite Z.compare_gt_iff in C. split; [split|lia].
      * replace ((q + 1) * den - 10 * Z.pos m) with (den - r) by lia. lia.
      * replace ((q + 1) * den - 10 * Z.pos m) with (den - r) by lia. lia.
Qed.

Lemma nearest_tenths_unique (m : positive) (e : Z) (t t' : Z) :
  Float64.nearest_tenths m e t -> Float64.nearest_tenths m e t' -> t' = t.
Proof.
  unfold Float64.nearest_tenths. cbv zeta.
  set (den := Float64.denominator e). set (n := 10 * Float64.numerator m e).
  assert (Hden : 0 < den) by (apply Z.pow_pos_nonneg; lia).
  intros [H1 E1] [H2 E2].
  assert (Hd : -1 <= t' - t <= 1) by nia.
  destruct (Z.eq_dec t' t) as [|Hne]; [assumption|exfalso].
  assert (Ht : 2 * Z.abs (t * den - n) = den /\ 2 * Z.abs (t' * den - n) = den) by nia.
  destruct Ht as [T1 T2]. specialize (E1 T1). specialize (E2 T2).
  assert (Hs : t' = t + 1 \/ t = t' + 1) by lia.
  destruct Hs as [-> | ->].
  - rewrite Z.even_add, E1 in E2. discriminate.
  - rewrite Z.even_add, E2 in E1. discriminate.
Qed.

Lemma one_digit (d : Z) : 0 <= d <= 9 -> String.length (itoa d) = 1%nat.
Proof.
  intros H.
  assert (Hc : d = 0 \/ d = 1 \/ d = 2 \/ d = 3 \/ d = 4 \/ d = 5 \/ d = 6 \/ d = 7
               \/ d = 8 \/ d = 9) by lia.
  repeat (destruct Hc as [-> | Hc]; [reflexivity|]). subst d. reflexivity.
Qed.

(** C8. A classification without a probability map, or with an empty
    one, renders as the single line [No classification data.]. With a
    non-empty map (any map with one more entry), the block is the lines
    of the keys of the map joined by line feeds, the keys in increasing
    lexicographic order, each key of the map once and no other; the line
    of a key is a dash, the key, a colon, the percentage, and the suffix
    [(selected)] exactly when the decision map is present and maps the
    key to true. The percentage is the [float64] product of the
    probability and 100 (the binary64 multiplication, rounded to
    nearest even, of the probability and the constant 100) with one
    decimal place: a minus sign if the
    product is negative, the whole part in decimal, a point, exactly one
    digit and the percent sign, where whole part and digit are the
    number of tenths nearest to the product, at most half a tenth away
    from it, the even one of two equally near (a product that is zero
    reads 0.0, one that is not a number reads as the package prints
    it). The classification urgent: 0.82, decided true, renders as the
    line [- urgent: 82.0% (selected)]; 0.125 reads 12.5% and 0.0025
    reads 0.2%. *)
Theorem classification_block (d : option (gmap string bool))
    (probs : gmap string float64) (key : string) (p : float64) :
  renderClassification {| Probabilities := None; Decisions := d |} = "No classification data."
  /\ renderClassification {| Probabilities := Some ∅; Decisions := d |}
     = "No classification data."
  /\ renderClassification {| Probabilities := Some (<[key:=p]> probs); Decisions := d |}
     = Join (classificationLine {| Probabilities := Some (<[key:=p]> probs); Decisions := d |}
               (<[key:=p]> probs) <$> sortedKeys (<[key:=p]> probs)) nl
  /\ StronglySorted String.le (sortedKeys (<[key:=p]> probs))
  /\ NoDup (sortedKeys (<[key:=p]> probs))
  /\ (forall k, k ∈ sortedKeys (<[key:=p]> probs) <-> is_Some (<[key:=p]> probs !! k))
  /\ (forall c (m : gmap string float64) (k : string) (q : float64), m !! k = Some q ->
        classificationLine c m k
        = "- " +:+ k +:+ ": "
          +:+ (Float64.format_f1 (Float64.mul q (Float64.of_Z 100)) +:+ "%")
          +:+ (if selected c k then " (selected)" else ""))
  /\ (forall c (m : gmap string float64) (k : string) (q : float64), m !! k = Some q ->
        exists pp,
          classificationLine c m k
          = "- " +:+ k +:+ ": " +:+ (pp +:+ "%")
            +:+ (if selected c k then " (selected)" else "")
          /\ match SFmul 53 1024 q (binary_normalize 53 1024 100 0 false) with
             | S754_finite s mant e =>
                 exists t,
                   Float64.nearest_tenths mant e t
                   /\ (forall t', Float64.nearest_tenths mant e t' -> t' = t)
                   /\ 0 <= t
                   /\ String.length (itoa (t mod 10)) = 1%nat
                   /\ pp = (if s then "-" else "") +:+ itoa (t / 10) +:+ "."
                            +:+ itoa (t mod 10)
             | S754_zero s => pp = (if s then "-" else "") +:+ "0.0"
             | S754_infinity s => pp = if s then "-Inf" else "+Inf"
             | S754_nan => pp = "NaN"
             end)
  /\ (forall k, selected {| Probabilities := Some (<[key:=p]> probs); Decisions := d |} k = true
                <-> exists dm, d = Some dm /\ dm !! k = Some true)
  /\ renderClassification Examples.urgent = "- urgent: 82.0% (selected)"
  /\ renderClassification Examples.three_labels
     = "- fyi: 12.5%" +:+ nl +:+ "- spam: 0.2%" +:+ nl +:+ "- urgent: 82.0% (selected)".
Proof.
  split_and!.
  - reflexivity.
  - unfold renderClassification. simpl. rewrite map_to_list_empty. reflexivity.
  - unfold renderClassification. simpl.
    destruct (map_to_list (<[key:=p]> probs)) eqn:E.
    + apply map_to_list_empty_iff in E. by apply insert_non_empty in E.
    + reflexivity.
  - apply sortedKeys_sorted.
  - apply sortedKeys_NoDup.
  - apply sortedKeys_elem.
  - intros c m k q Hq. unfold classificationLine, percent. rewrite Hq. reflexivity.
  - intros c m k q Hq.
    exists (Float64.format_f1 (Float64.mul q (Float64.of_Z 100))). split.
    + unfold classificationLine, percent. rewrite Hq. reflexivity.
    + change (SFmul 53 1024 q (binary_normalize 53 1024 100 0 false))
        with (Float64.mul q (Float64.of_Z 100)).
      destruct (Float64.mul q (Float64.of_Z 100)) as [s|s| |s mant e].
      * reflexivity.
      * destruct s; reflexivity.
      * reflexivity.
      * destruct (tenths_nearest mant e) as [Hn H0].
        exists (Float64.tenths mant e). split_and!.
        -- exact Hn.
        -- intros t' Ht'. exact (nearest_tenths_unique mant e _ t' Hn Ht').
        -- exact H0.
        -- apply one_digit.
           pose proof (Z.mod_pos_bound (Float64.tenths mant e) 10 ltac:(lia)). lia.
        -- reflexivity.
  - intros k. unfold selected. simpl. destruct d as [dm|].
    + split.
      * intros H. exists dm. split; [reflexivity|].
        destruct (dm !! k) as [[]|]; simpl in H; congruence.
      * intros [dm' [[= <-] H]]. rewrite H. reflexivity.
    + split; [discriminate|]. intros [dm [? _]]. discriminate.
  - vm_compute. reflexivity.
  - vm_compute. reflexivity.
Qed.

(** ** The payload editor and the preference prompt *)

Section Editor.

Context {T : Toolkit}.

Lemma widget_is_no_call (c : option widgetCmd) : gateway_calls (Widget <$> c) = [].
Proof. destruct c; reflexivity. Qed.

(** The save key, unfolded: the editor sees the key, then the text is
    validated. *)
Lemma handlePayloadKey_save (m : appModel) k :
  Type_ k = KeyCtrlS ->
  handlePayloadKey m k
  = let m0 := with_editor (fst (textarea_Update (editor m) k)) m in
    let cmd := Widget <$> snd (textarea_Update (editor m) k) in
    if String.eqb (submitted_text m k) "" then
      (with_editorErr "Payload cannot be empty." m0, cmd)
    else
      match JSON.Unmarshal (submitted_text m k) with
      | inl e =>
          (with_editorErr ("Invalid JSON: " +:+ Unmarshal_Error (submitted_text m k) e) m0, cmd)
      | inr parsed =>
          (setView statePromptGeneral "Apply extracted preferences to general profile? (y/N)"
             (with_editorErr "" (with_pending parsed m0)), cmd)
      end.
Proof.
  intros Hk. unfold handlePayloadKey, submitted_text.
  destruct (textarea_Update (editor m) k) as [ed c]. rewrite Hk. reflexivity.
Qed.

Lemma Unmarshal_empty : JSON.Unmarshal "" = inl JSON.SyntaxError.
Proof. reflexivity. Qed.

(** A text that [json.Unmarshal] takes is stored, whatever it is. *)
Lemma save_accepted (m : appModel) k parsed :
  Type_ k = KeyCtrlS ->
  JSON.Unmarshal (submitted_text m k) = inr parsed ->
  handlePayloadKey m k
  = (setView statePromptGeneral "Apply extracted preferences to general profile? (y/N)"
       (with_editorErr "" (with_pending parsed
          (with_editor (fst (textarea_Update (editor m) k)) m))),
     Widget <$> snd (textarea_Update (editor m) k)).
Proof.
  intros Hk Hu. rewrite (handlePayloadKey_save m k Hk). cbv zeta.
  destruct (String.eqb (submitted_text m k) "") eqn:E.
  - apply String.eqb_eq in E. rewrite E, Unmarshal_empty in Hu. discriminate.
  - rewrite Hu. reflexivity.
Qed.

(** An empty text, and a text on which [json.Unmarshal] returns an
    error, keep the operator in the editor: the screen and the pending
    edit are as before, the inline error is set, and no gateway call is
    issued. *)
Lemma save_rejected (m : appModel) k :
  Type_ k = KeyCtrlS ->
  submitted_text m k = "" \/ (exists e, JSON.Unmarshal (submitted_text m k) = inl e) ->
  view (fst (handlePayloadKey m k)) = view m
  /\ pending (fst (handlePayloadKey m k)) = pending m
  /\ editorErr (fst (handlePayloadKey m k)) <> ""
  /\ gateway_calls (snd (handlePayloadKey m k)) = [].
Proof.
  intros Hk H. rewrite (handlePayloadKey_save m k Hk). cbv zeta.
  destruct (String.eqb (submitted_text m k) "") eqn:E.
  - cbn [fst snd]. split_and!; try reflexivity; [discriminate | apply widget_is_no_call].
  - destruct H as [H | [e He]].
    + apply String.eqb_neq in E. contradiction.
    + rewrite He. cbn [fst snd].
      split_and!; try reflexivity; [discriminate | apply widget_is_no_call].
Qed.

Lemma prompt_letter (m : appModel) k letter :
  view m = statePromptGeneral -> letter_key letter k ->
  handleKeyMsg m k
  = if String.eqb letter "y" then submitModifiedAction true m
    else if String.eqb letter "n" then submitModifiedAction false m
    else (m, None).
Proof.
  intros Hv Hl. rewrite (letter_not_scroll letter m k Hl). destruct Hl as [Hk Hr].
  unfold handleViewKey, handlePromptKey. rewrite Hv, Hk, Hr. reflexivity.
Qed.

Lemma prompt_confirm (m : appModel) :
  view m = statePromptGeneral ->
  handleKeyMsg m confirm_key = submitModifiedAction false m.
Proof.
  intros Hv. unfold handleKeyMsg, handleViewKey, handlePromptKey, viewUsesViewport.
  rewrite Hv. reflexivity.
Qed.

Lemma submitModifiedAction_calls apply (m : appModel) :
  gateway_calls (snd (submitModifiedAction apply m))
  = [modifyActionCmd (currentAction m) (currentActionID m) (pending m) apply].
Proof. reflexivity. Qed.

Lemma currentActionID_frame (m m' : appModel) :
  response m' = response m -> currentAction m' = currentAction m ->
  currentActionID m' = currentActionID m.
Proof.
  intros Hr Hc. unfold currentActionID, currentActionRef, actionAt. rewrite Hr, Hc.
  reflexivity.
Qed.

(** What the prompt issues once a text has been accepted. *)
Lemma prompt_after_save (m : appModel) k parsed :
  Type_ k = KeyCtrlS ->
  JSON.Unmarshal (submitted_text m k) = inr parsed ->
  view (fst (handlePayloadKey m k)) = statePromptGeneral
  /\ pending (fst (handlePayloadKey m k)) = parsed
  /\ editorErr (fst (handlePayloadKey m k)) = ""
  /\ gateway_calls (snd (handlePayloadKey m k)) = []
  /\ (forall key, apply_globally_key key ->
        gateway_calls (snd (handleKeyMsg (fst (handlePayloadKey m k)) key))
        = [modifyActionCmd (currentAction m) (currentActionID m) parsed true])
  /\ (forall key, per_recipient_key key ->
        gateway_calls (snd (handleKeyMsg (fst (handlePayloadKey m k)) key))
        = [modifyActionCmd (currentAction m) (currentActionID m) parsed false])
  /\ gateway_calls (snd (handleKeyMsg (fst (handlePayloadKey m k)) confirm_key))
     = [modifyActionCmd (currentAction m) (currentActionID m) parsed false].
Proof.
  intros Hk Hu. rewrite (save_accepted m k parsed Hk Hu). cbn [fst snd].
  set (m1 := setView _ _ _).
  assert (Hv : view m1 = statePromptGeneral) by apply setView_view.
  assert (Hp : pending m1 = parsed) by (unfold m1; rewrite setView_pending; reflexivity).
  assert (Hc : currentAction m1 = currentAction m)
    by (unfold m1; rewrite setView_currentAction; reflexivity).
  assert (Hi : currentActionID m1 = currentActionID m).
  { apply currentActionID_frame; [|exact Hc]. unfold m1. rewrite setView_response.
    reflexivity. }
  split_and!.
  - exact Hv.
  - exact Hp.
  - unfold m1. rewrite setView_editorErr. reflexivity.
  - apply widget_is_no_call.
  - intros key Hkey. rewrite (prompt_letter m1 key "y" Hv Hkey).
    change (String.eqb "y" "y") with true. cbv iota.
    rewrite submitModifiedAction_calls, Hc, Hi, Hp. reflexivity.
  - intros key Hkey. rewrite (prompt_letter m1 key "n" Hv Hkey).
    change (String.eqb "n" "y") with false. change (String.eqb "n" "n") with true.
    cbv iota. rewrite submitModifiedAction_calls, Hc, Hi, Hp. reflexivity.
  - rewrite (prompt_confirm m1 Hv), submitModifiedAction_calls, Hc, Hi, Hp. reflexivity.
Qed.

(** The request of a modify command. *)
Lemma modify_request_body id payload apply :
  path (modify_request id payload apply) = "/action/modify"
  /\ body (modify_request id payload apply) !! "action_id" = Some (JSON.Str id)
  /\ body (modify_request id payload apply) !! "payload" = Some (payload_value payload)
  /\ body (modify_request id payload apply) !! "record_preferences" = Some (JSON.Bool true)
  /\ body (modify_request id payload apply) !! "apply_to_general_preferences"
     = Some (JSON.Bool apply).
Proof. split_and!; reflexivity. Qed.

(** C4. When the save key submits a text that decodes to the object
    [obj], the engine goes to the preference prompt with [obj] as the
    pending edit, and there the apply-globally key (y) issues exactly
    one gateway call, the modify command for the current action with
    [obj] and apply-to-general true; the per-recipient key (n) and the
    confirm key issue exactly one, the same command with
    apply-to-general false. The request of that command posts to
    /action/modify an object of four members: the identifier of the
    current action, the object [obj] itself as the payload,
    record_preferences true and apply_to_general_preferences as
    chosen; and the request of every modify command sets
    record_preferences to true. The text of the example decodes to
    the object that maps k to 1. *)
Theorem saved_object_goes_into_one_modify (m : appModel) k (obj : gmap string JSON.value) :
  Type_ k = KeyCtrlS ->
  JSON.Unmarshal (submitted_text m k) = inr (Some obj) ->
  view (fst (handlePayloadKey m k)) = statePromptGeneral
  /\ pending (fst (handlePayloadKey m k)) = Some obj
  /\ (forall key, apply_globally_key key ->
        gateway_calls (snd (handleKeyMsg (fst (handlePayloadKey m k)) key))
        = [modifyActionCmd (currentAction m) (currentActionID m) (Some obj) true])
  /\ (forall key, per_recipient_key key ->
        gateway_calls (snd (handleKeyMsg (fst (handlePayloadKey m k)) key))
        = [modifyActionCmd (currentAction m) (currentActionID m) (Some obj) false])
  /\ gateway_calls (snd (handleKeyMsg (fst (handlePayloadKey m k)) confirm_key))
     = [modifyActionCmd (currentAction m) (currentActionID m) (Some obj) false]
  /\ (forall apply, exists r,
        request_of (modifyActionCmd (currentAction m) (currentActionID m) (Some obj) apply)
        = Some r
        /\ path r = "/action/modify"
        /\ body r !! "action_id" = Some (JSON.Str (currentActionID m))
        /\ body r !! "payload" = Some (JSON.Object obj)
        /\ body r !! "record_preferences" = Some (JSON.Bool true)
        /\ body r !! "apply_to_general_preferences" = Some (JSON.Bool apply)
        /\ dom (body r)
           = {[ "action_id"; "payload"; "record_preferences";
                "apply_to_general_preferences" ]})
  /\ (forall index id payload apply, exists r,
        request_of (modifyActionCmd index id payload apply) = Some r
        /\ path r = "/action/modify"
        /\ body r !! "action_id" = Some (JSON.Str id)
        /\ body r !! "payload"
           = Some (match payload with
                   | Some members => JSON.Object members
                   | None => JSON.Null
                   end)
        /\ body r !! "record_preferences" = Some (JSON.Bool true)
        /\ body r !! "apply_to_general_preferences" = Some (JSON.Bool apply))
  /\ JSON.Unmarshal Examples.object_text
     = inr (Some {[ "k" := JSON.Number (Float64.of_Z 1) ]}).
Proof.
  intros Hk Hu.
  destruct (prompt_after_save m k (Some obj) Hk Hu) as (Hv & Hp & _ & _ & Hy & Hn & He).
  split_and!; try assumption.
  - intros apply. eexists. split; [reflexivity|].
    split_and!; try reflexivity;
      unfold modify_request; cbn [body]; rewrite !dom_insert_L, dom_empty_L; set_solver.
  - intros index id payload apply. eexists. split; [reflexivity|].
    destruct payload; split_and!; reflexivity.
  - vm_compute. reflexivity.
Qed.

(** C2, where the code departs from it. When the save key submits the
    text [null], which is a scalar and not an object, the engine does
    not stay in the editor: it goes to the preference prompt, stores
    the nil map as the pending edit and clears the inline error; from
    there the confirm key issues a modify command whose payload is
    [null]. *)
Theorem null_payload_is_accepted (m : appModel) k :
  Type_ k = KeyCtrlS ->
  submitted_text m k = "null" ->
  view (fst (handlePayloadKey m k)) = statePromptGeneral
  /\ pending (fst (handlePayloadKey m k)) = None
  /\ editorErr (fst (handlePayloadKey m k)) = ""
  /\ gateway_calls (snd (handleKeyMsg (fst (handlePayloadKey m k)) confirm_key))
     = [modifyActionCmd (currentAction m) (currentActionID m) None false]
  /\ body (modify_request (currentActionID m) None false) !! "payload" = Some JSON.Null.
Proof.
  intros Hk Ht.
  assert (Hu : JSON.Unmarshal (submitted_text m k) = inr None) by (rewrite Ht; reflexivity).
  destruct (prompt_after_save m k None Hk Hu) as (Hv & Hp & Hee & _ & _ & _ & He).
  split_and!; try assumption. reflexivity.
Qed.

End Editor.

(** What [json.Unmarshal] does with each kind of text: only an object
    and [null] are taken. *)
Lemma Unmarshal_kinds (data : string) :
  JSON.Unmarshal data
  = match JSON.parse data with
    | None => inl JSON.SyntaxError
    | Some JSON.TNull => inr None
    | Some (JSON.TObject l) =>
        match JSON.members_map l ∅ with
        | inl e => inl e
        | inr obj => inr (Some obj)
        end
    | Some (JSON.TArray _) => inl (JSON.TypeError "array")
    | Some (JSON.TBool _) => inl (JSON.TypeError "bool")
    | Some (JSON.TString _) => inl (JSON.TypeError "string")
    | Some (JSON.TNumber _) => inl (JSON.TypeError "number")
    end.
Proof. reflexivity. Qed.

Lemma Unmarshal_examples :
  JSON.Unmarshal "{invalid" = inl JSON.SyntaxError
  /\ JSON.Unmarshal "[1, 2]" = inl (JSON.TypeError "array")
  /\ JSON.Unmarshal "42" = inl (JSON.TypeError "number")
  /\ JSON.Unmarshal "true" = inl (JSON.TypeError "bool")
  /\ JSON.Unmarshal (Examples.quote +:+ "text" +:+ Examples.quote) = inl (JSON.TypeError "string")
  /\ JSON.Unmarshal "{} {}" = inl JSON.SyntaxError
  /\ JSON.Unmarshal Examples.huge_text = inl (JSON.RangeError "1e999")
  /\ JSON.Unmarshal "null" = inr None
  /\ JSON.Unmarshal "{}" = inr (Some ∅).
Proof. vm_compute. split_and!; reflexivity. Qed.

(** The text of the specification's example is refused as the claim
    says: the screen stays, the inline error is set, nothing is stored
    and no call is issued. *)
Lemma invalid_text_is_rejected :
  view (fst (handlePayloadKey (Examples.editing "{invalid") save_key)) = stateEditingPayload
  /\ editorErr (fst (handlePayloadKey (Examples.editing "{invalid") save_key))
     = "Invalid JSON: syntax error"
  /\ pending (fst (handlePayloadKey (Examples.editing "{invalid") save_key)) = None
  /\ gateway_calls (snd (handlePayloadKey (Examples.editing "{invalid") save_key)) = [].
Proof. vm_compute. split_and!; reflexivity. Qed.

Lemma null_payload_is_accepted_witness :
  Type_ save_key = KeyCtrlS
  /\ submitted_text (Examples.editing "null") save_key = "null"
  /\ view (Examples.editing "null") = stateEditingPayload
  /\ view (fst (handlePayloadKey (Examples.editing "null") save_key)) = statePromptGeneral
  /\ pending (fst (handlePayloadKey (Examples.editing "null") save_key)) = None.
Proof.
  assert (Hk : Type_ save_key = KeyCtrlS) by reflexivity.
  assert (Ht : submitted_text (T := plain) (Examples.editing "null") save_key = "null")
    by (vm_compute; reflexivity).
  pose proof (null_payload_is_accepted (T := plain) (Examples.editing "null") save_key Hk Ht)
    as (Hv & Hp & _).
  split_and!; [exact Hk | exact Ht | vm_compute; reflexivity | exact Hv | exact Hp].
Defined.

Lemma saved_object_goes_into_one_modify_witness :
  Type_ save_key = KeyCtrlS
  /\ JSON.Unmarshal (submitted_text (Examples.editing Examples.object_text) save_key)
     = inr (Some {[ "k" := JSON.Number (Float64.of_Z 1) ]})
  /\ gateway_calls
       (snd (handleKeyMsg (fst (handlePayloadKey (Examples.editing Examples.object_text) save_key))
               {| Type_ := KeyRunes; Runes := "y" |}))
     = [modifyActionCmd 0 "act-1" (Some {[ "k" := JSON.Number (Float64.of_Z 1) ]}) true]
  /\ exists r,
       request_of (T := plain)
         (modifyActionCmd (currentAction (Examples.editing Examples.object_text))
            (currentActionID (Examples.editing Examples.object_text))
            (Some {[ "k" := JSON.Number (Float64.of_Z 1) ]}) true) = Some r
       /\ body r !! "payload"
          = Some (JSON.Object {[ "k" := JSON.Number (Float64.of_Z 1) ]}).
Proof.
  assert (Hk : Type_ save_key = KeyCtrlS) by reflexivity.
  assert (Hu : JSON.Unmarshal
                 (submitted_text (T := plain) (Examples.editing Examples.object_text) save_key)
               = inr (Some {[ "k" := JSON.Number (Float64.of_Z 1) ]}))
    by (vm_compute; reflexivity).
  pose proof (saved_object_goes_into_one_modify (T := plain)
                (Examples.editing Examples.object_text) save_key _ Hk Hu)
    as (_ & _ & Hy & _ & _ & Hr & _).
  split_and!; [exact Hk | exact Hu | |].
  - apply (Hy {| Type_ := KeyRunes; Runes := "y" |}). split; reflexivity.
  - destruct (Hr true) as (r & H1 & _ & _ & H4 & _). exists r. split; [exact H1 | exact H4].
Defined.

(** ** What every reachable world satisfies *)

Ltac side :=
  try first [ assumption | lia | discriminate | (intros _; assumption) | reflexivity | tauto ].

Section Invariant.

Context {T : Toolkit}.

Lemma hasActions_actions (m : appModel) : hasActions m = (0 <? len (actions m)).
Proof. unfold hasActions, actions. destruct (response m); reflexivity. Qed.

Lemma actionAt_actions (m : appModel) i :
  actionAt m i
  = if (i <? 0) || (len (actions m) <=? i) then None else actions m !! Z.to_nat i.
Proof.
  unfold actionAt, actions. destruct (response m); [reflexivity|].
  destruct ((i <? 0) || _); reflexivity.
Qed.

Lemma actionAt_Some (m : appModel) i a :
  actionAt m i = Some a -> 0 <= i < len (actions m) /\ actions m !! Z.to_nat i = Some a.
Proof.
  rewrite actionAt_actions.
  destruct (i <? 0) eqn:E1; [discriminate|]. destruct (len (actions m) <=? i) eqn:E2;
    [discriminate|].
  apply Z.ltb_ge in E1. apply Z.leb_gt in E2. simpl. intros H. split; [lia|exact H].
Qed.

Lemma actionAt_valid (m : appModel) i :
  0 <= i < len (actions m) -> exists a, actionAt m i = Some a.
Proof.
  intros H. rewrite actionAt_actions.
  replace (i <? 0) with false by (symmetry; apply Z.ltb_ge; lia).
  replace (len (actions m) <=? i) with false by (symmetry; apply Z.leb_gt; lia).
  simpl. apply lookup_lt_is_Some. unfold len in H. lia.
Qed.

Lemma store_action_eq i a (m : appModel) :
  store_action i a m = with_response (response (store_action i a m)) m.
Proof.
  unfold store_action. destruct (response m) eqn:E.
  - destruct m; reflexivity.
  - rewrite E. destruct m; simpl in *; subst; reflexivity.
Qed.

Lemma store_action_actions i a (m : appModel) :
  actions (store_action i a m) = <[Z.to_nat i := a]> (actions m).
Proof. unfold store_action, actions. destruct (response m) eqn:E; simpl; [reflexivity|].
  rewrite E. reflexivity. Qed.

Lemma store_action_currentAction i a (m : appModel) :
  currentAction (store_action i a m) = currentAction m.
Proof. rewrite store_action_eq. reflexivity. Qed.

Lemma store_action_currentEmail i a (m : appModel) :
  currentEmail (store_action i a m) = currentEmail m.
Proof. rewrite store_action_eq. reflexivity. Qed.

Lemma store_action_emails i a (m : appModel) : emails (store_action i a m) = emails m.
Proof. rewrite store_action_eq. reflexivity. Qed.

Lemma len_insert {A} (l : list A) n x : len (<[n := x]> l) = len l.
Proof. unfold len. rewrite length_insert. reflexivity. Qed.

Lemma actions_nonempty (m : appModel) : actions m <> [] <-> 0 < len (actions m).
Proof. pose proof (len_nil_iff (actions m)). pose proof (len_nonneg (actions m)). split;
  intros; [|intros E; rewrite E in *; unfold len in *; simpl in *; lia].
  destruct (Z.eq_dec (len (actions m)) 0); [tauto|lia]. Qed.

(** Soundness looks at the screen, the two indices, the actions and
    the emails only. *)
Lemma sound_same (m m' : appModel) calls :
  view m' = view m -> currentAction m' = currentAction m -> actions m' = actions m ->
  currentEmail m' = currentEmail m -> emails m' = emails m ->
  sound m calls -> sound m' calls.
Proof.
  intros Hv Hc Ha He Hs. unfold sound, call_fits. rewrite Hv, Hc, Ha, He, Hs. tauto.
Qed.

(** Off the two waiting screens no call is in flight. *)
Lemma sound_no_call (m : appModel) calls :
  sound m calls -> view m <> stateLoading -> view m <> stateSubmittingAction -> calls = [].
Proof.
  intros (_ & _ & _ & _ & _ & Hc) H1 H2. unfold call_fits in Hc.
  destruct calls as [|c [|c' r]]; [reflexivity| |destruct c; contradiction].
  destruct c; try contradiction; tauto.
Qed.

Lemma sound_quiet (m : appModel) calls :
  sound m calls -> sound m []
.
Proof. unfold sound, call_fits. tauto. Qed.

Lemma batch_calls (call : Cmd) :
  is_gateway call = true -> gateway_calls (Some (Batch [spinner_Tick; call])) = [call].
Proof. destruct call; try discriminate; reflexivity. Qed.

Lemma resize_sound (m : appModel) w h calls :
  sound m calls -> sound (handleWindowSize m w h) calls.
Proof.
  intros Hs. rewrite handleWindowSize_eq. destruct ((w <=? 0) || (h <=? 0)); [exact Hs|].
  revert Hs. apply sound_same; reflexivity.
Qed.

Lemma other_sound (m : appModel) o calls :
  sound m calls ->
  sound (fst (Update m (Other o))) (gateway_calls (snd (Update m (Other o))) ++ calls).
Proof.
  intros Hs. simpl. destruct (spinner_Update (spinner m) o) as [sp c]. cbn [fst snd].
  rewrite widget_is_no_call. revert Hs. apply sound_same; reflexivity.
Qed.

Lemma scroll_sound (m m' : appModel) k calls :
  handleViewportScroll m k = Some m' -> sound m calls -> sound m' calls.
Proof.
  unfold handleViewportScroll. intros H.
  destruct (Type_ k); try discriminate; injection H as <-; apply sound_same; reflexivity.
Qed.

Lemma preview_key_sound (m : appModel) k calls :
  view m = statePreviewEmail -> sound m calls ->
  sound (fst (handlePreviewKey m k)) (gateway_calls (snd (handlePreviewKey m k)) ++ calls).
Proof.
  intros Hv Hs.
  assert (calls = []) as -> by (apply (sound_no_call m); [exact Hs| |]; rewrite Hv; discriminate).
  unfold handlePreviewKey.
  destruct (Type_ k); try exact Hs.
  - destruct (String.eqb _ _); exact Hs.
  - unfold beginEmailSubmission. cbn [fst snd]. rewrite batch_calls by reflexivity.
    destruct Hs as (He & Hsl & Hi & Hr & Hz & Hc). rewrite Hv in *.
    unfold sound, call_fits. autorewrite with fields. cbn [app reviewing not_submitted].
    split_and!; side.
Qed.

Lemma summary_key_sound (m : appModel) k calls :
  view m = stateSummary -> sound m calls ->
  sound (fst (handleViewKey m k)) (gateway_calls (snd (handleViewKey m k)) ++ calls).
Proof.
  intros Hv Hs.
  assert (calls = []) as -> by (apply (sound_no_call m); [exact Hs| |]; rewrite Hv; discriminate).
  unfold handleViewKey. rewrite Hv.
  destruct (Type_ k); try exact Hs. cbn [fst snd].
  destruct Hs as (He & Hsl & Hi & Hr & Hz & Hc). rewrite Hv in *.
  unfold sound. autorewrite with fields. cbn. split_and!; side.
  intros Hne. apply actions_nonempty in Hne. lia.
Qed.

(** Leaving for the screen that waits for an action call, with the
    call for the current action. *)
Lemma beginActionUpdate_sound (m : appModel) message call :
  sound m [] -> actions m <> [] ->
  call_fits (setView stateSubmittingAction message m) [call] ->
  sound (fst (beginActionUpdate message call m))
    (gateway_calls (snd (beginActionUpdate message call m)) ++ []).
Proof.
  intros (He & Hsl & Hi & Hr & Hz & Hc) Hne Hfit.
  assert (Hg : is_gateway call = true).
  { destruct call; try reflexivity; cbn in Hfit; contradiction. }
  unfold beginActionUpdate. cbn [fst snd].
  replace (gateway_calls (Some (Batch [spinner_Tick; call])) ++ []) with [call].
  2:{ rewrite app_nil_r. destruct call; try discriminate; reflexivity. }
  unfold sound. autorewrite with fields. cbn [reviewing not_submitted].
  split_and!; side.
Qed.

Lemma review_key_sound (m : appModel) k calls :
  view m = stateReview -> sound m calls ->
  sound (fst (handleReviewKey m k)) (gateway_calls (snd (handleReviewKey m k)) ++ calls).
Proof.
  intros Hv Hs.
  assert (calls = []) as -> by (apply (sound_no_call m); [exact Hs| |]; rewrite Hv; discriminate).
  assert (Hne : actions m <> []).
  { destruct Hs as (_ & _ & _ & Hr & _). apply Hr. rewrite Hv. reflexivity. }
  unfold handleReviewKey.
  destruct (currentActionRef m) as [action|] eqn:Ha; [|exact Hs].
  destruct (Type_ k); try exact Hs.
  destruct (String.eqb _ "a").
  { apply beginActionUpdate_sound; try assumption. cbn. autorewrite with fields. tauto. }
  destruct (String.eqb _ "r").
  { apply beginActionUpdate_sound; try assumption. cbn. autorewrite with fields. tauto. }
  destruct (String.eqb _ "m"); [|destruct (String.eqb _ "q"); exact Hs].
  unfold enterPayloadEditor. rewrite Ha.
  destruct Hs as (He & Hsl & Hi & Hr & Hz & Hc).
  destruct (toPrettyJSON (Payload action)); unfold fail; cbn [fst snd];
    unfold sound; autorewrite with fields; cbn; split_and!;
    side.
Qed.

Lemma payload_key_sound (m : appModel) k calls :
  view m = stateEditingPayload -> sound m calls ->
  sound (fst (handlePayloadKey m k)) (gateway_calls (snd (handlePayloadKey m k)) ++ calls).
Proof.
  intros Hv Hs.
  assert (calls = []) as -> by (apply (sound_no_call m); [exact Hs| |]; rewrite Hv; discriminate).
  assert (Hne : actions m <> []).
  { destruct Hs as (_ & _ & _ & Hr & _). apply Hr. rewrite Hv. reflexivity. }
  destruct Hs as (He & Hsl & Hi & Hr & Hz & Hc). rewrite Hv in *.
  unfold handlePayloadKey. destruct (textarea_Update (editor m) k) as [ed c].
  assert (Hw : gateway_calls (Widget <$> c) ++ [] = []) by (rewrite widget_is_no_call; reflexivity).
  destruct (Type_ k);
    try (cbn [fst snd]; rewrite Hw; unfold sound; autorewrite with fields; cbn;
         rewrite ?Hv; split_and!;
         side; fail).
  destruct (String.eqb _ _); [|destruct (JSON.Unmarshal _)];
    cbn [fst snd]; rewrite Hw; unfold sound; autorewrite with fields; cbn;
    rewrite ?Hv; split_and!;
    side.
Qed.

Lemma submitModifiedAction_sound (m : appModel) apply :
  view m = statePromptGeneral -> sound m [] ->
  sound (fst (submitModifiedAction apply m))
    (gateway_calls (snd (submitModifiedAction apply m)) ++ []).
Proof.
  intros Hv Hs. unfold submitModifiedAction.
  apply beginActionUpdate_sound; [exact Hs| |].
  - destruct Hs as (_ & _ & _ & Hr & _). apply Hr. rewrite Hv. reflexivity.
  - cbn. autorewrite with fields. tauto.
Qed.

Lemma prompt_key_sound (m : appModel) k calls :
  view m = statePromptGeneral -> sound m calls ->
  sound (fst (handlePromptKey m k)) (gateway_calls (snd (handlePromptKey m k)) ++ calls).
Proof.
  intros Hv Hs.
  assert (calls = []) as -> by (apply (sound_no_call m); [exact Hs| |]; rewrite Hv; discriminate).
  unfold handlePromptKey. destruct (Type_ k); try exact Hs.
  - destruct (String.eqb _ "y"); [apply submitModifiedAction_sound; assumption|].
    destruct (String.eqb _ "n"); [apply submitModifiedAction_sound; assumption|exact Hs].
  - apply submitModifiedAction_sound; assumption.
Qed.

Lemma prepareEmail_sound (m : appModel) index :
  sound m [] -> len (emails m) <= 4 ->
  sound (fst (prepareEmail index m)) (gateway_calls (snd (prepareEmail index m)) ++ [])
  /\ (0 <= index < len (emails m) ->
      exists e, emails m !! Z.to_nat index = Some e
                /\ fst (prepareEmail index m)
                   = setView statePreviewEmail previewInstruction
                       (with_err None (with_editorErr "" (with_currentAction 0
                          (with_pending None (with_response None (with_email e
                             (with_currentEmail index m)))))))).
Proof.
  intros Hs Hl. unfold prepareEmail.
  destruct ((index <? 0) || (len (emails m) <=? index)) eqn:E.
  { split; [exact Hs|]. intros H. apply orb_true_iff in E as [E|E];
      [apply Z.ltb_lt in E | apply Z.leb_le in E]; lia. }
  apply orb_false_iff in E as [E1 E2]. apply Z.ltb_ge in E1. apply Z.leb_gt in E2.
  destruct (emails m !! Z.to_nat index) as [e|] eqn:El.
  2:{ apply lookup_ge_None in El. unfold len in E2. lia. }
  cbn [fst snd]. split; [|intros _; exists e; split; reflexivity].
  destruct Hs as (He & Hsl & Hi & Hr & Hz & Hc).
  unfold sound. autorewrite with fields. cbn. split_and!;
    side.
Qed.

Lemma done_key_sound (m : appModel) k calls :
  view m = stateDone -> sound m calls ->
  sound (fst (handleViewKey m k)) (gateway_calls (snd (handleViewKey m k)) ++ calls).
Proof.
  intros Hv Hs.
  assert (calls = []) as -> by (apply (sound_no_call m); [exact Hs| |]; rewrite Hv; discriminate).
  unfold handleViewKey. rewrite Hv. destruct (Type_ k); try exact Hs.
  - destruct (String.eqb _ _); exact Hs.
  - destruct (hasMoreEmails m); [|exact Hs]. unfold prepareNextEmail.
    destruct (len (emails m) <=? _); [exact Hs|].
    apply prepareEmail_sound; [exact Hs|]. apply Hs.
Qed.

Lemma key_sound (m : appModel) k calls :
  sound m calls ->
  sound (fst (handleKeyMsg m k)) (gateway_calls (snd (handleKeyMsg m k)) ++ calls).
Proof.
  intros Hs.
  assert (Hview : sound (fst (handleViewKey m k))
                    (gateway_calls (snd (handleViewKey m k)) ++ calls)).
  { destruct (view m) eqn:Hv.
    - unfold handleViewKey. rewrite Hv. exact Hs.
    - replace (handleViewKey m k) with (handlePreviewKey m k)
        by (unfold handleViewKey; rewrite Hv; reflexivity).
      apply preview_key_sound; assumption.
    - apply summary_key_sound; assumption.
    - replace (handleViewKey m k) with (handleReviewKey m k)
        by (unfold handleViewKey; rewrite Hv; reflexivity).
      apply review_key_sound; assumption.
    - replace (handleViewKey m k) with (handlePayloadKey m k)
        by (unfold handleViewKey; rewrite Hv; reflexivity).
      apply payload_key_sound; assumption.
    - replace (handleViewKey m k) with (handlePromptKey m k)
        by (unfold handleViewKey; rewrite Hv; reflexivity).
      apply prompt_key_sound; assumption.
    - unfold handleViewKey. rewrite Hv. exact Hs.
    - apply done_key_sound; assumption.
    - unfold handleViewKey. rewrite Hv. destruct (Type_ k); exact Hs. }
  unfold handleKeyMsg.
  destruct (Type_ k) eqn:Hk; try exact Hs;
    (destruct (viewUsesViewport m); [|exact Hview]);
    (destruct (handleViewportScroll m k) as [m'|] eqn:Hsc;
     [cbn [fst snd]; exact (scroll_sound m m' k calls Hsc Hs) | exact Hview]).
Qed.

Lemma fail_sound (m : appModel) e calls : sound m calls -> sound (fst (fail e m)) [].
Proof.
  intros (He & Hsl & Hi & Hr & Hz & Hc). unfold fail. cbn [fst].
  unfold sound. autorewrite with fields. cbn. split_and!; side.
Qed.

(** The completion of the submission installs the result with the
    action index at 0. *)
Lemma newEmail_sound (m : appModel) e r :
  sound m [loadSampleEmailCmd e] -> slice_ok r = true ->
  sound (fst (Update m (newEmailMsg e (Some r) None)))
    (gateway_calls (snd (Update m (newEmailMsg e (Some r) None))) ++ [])
  /\ response (fst (Update m (newEmailMsg e (Some r) None))) = Some r
  /\ currentAction (fst (Update m (newEmailMsg e (Some r) None))) = 0.
Proof.
  intros (He & Hsl & Hi & Hr & Hz & Hc) Hok. cbn in Hc.
  assert (H0 : currentAction m = 0) by (apply Hz; rewrite Hc; reflexivity).
  unfold slice_ok in Hok. apply Z.ltb_lt in Hok.
  cbn [Update]. rewrite hasActions_actions.
  destruct (0 <? len _) eqn:E; cbn [fst snd]; unfold sound; autorewrite with fields;
    cbn; (split; [|split; [reflexivity|exact H0]]); split_and!; side.
  - apply Z.ltb_lt in E. unfold actions in E. cbn in E. rewrite H0. lia.
  - apply Z.ltb_lt in E. unfold actions in E. cbn in E. intros _ Hn.
    rewrite Hn in E. unfold len in E. cbn in E. lia.
  - apply Z.ltb_ge in E. unfold actions in E. cbn in E. intros Hn.
    destruct (ProposedActions r); [congruence|]. unfold len in E. cbn in E. lia.
Qed.

(** The completion of an action call: the action is overwritten, and
    the index advances when there is a next action. *)
Lemma actionUpdated_sound (m : appModel) a :
  sound m [] -> actions m <> [] ->
  sound (fst (Update m (actionUpdatedMsg (currentAction m) a None)))
    (gateway_calls (snd (Update m (actionUpdatedMsg (currentAction m) a None))) ++ []).
Proof.
  intros (He & Hsl & Hi & Hr & Hz & Hc) Hne. specialize (Hi Hne).
  destruct (actionAt_valid m (currentAction m) Hi) as [old Hold].
  cbn [Update]. rewrite Hold.
  destruct (actionAt (store_action _ a m) _) as [next|] eqn:En; cbn [fst snd].
  - apply actionAt_Some in En as [Hn _]. rewrite store_action_actions, len_insert in Hn.
    unfold sound. autorewrite with fields. cbn [with_currentAction currentAction].
    assert (Ha : actions (with_currentAction (GoInt.add (currentAction m) 1)
                            (store_action (currentAction m) a m))
                 = <[Z.to_nat (currentAction m) := a]> (actions m))
      by (rewrite <- store_action_actions; reflexivity).
    rewrite Ha, len_insert.
    change (currentEmail (with_currentAction ?x ?y)) with (currentEmail y).
    change (emails (with_currentAction ?x ?y)) with (emails y).
    rewrite store_action_currentEmail, store_action_emails.
    cbn [reviewing not_submitted]. split_and!; side.
    intros _ Hnil. apply (f_equal len) in Hnil. rewrite len_insert in Hnil.
    unfold len in *. simpl in Hnil. lia.
  - unfold sound. autorewrite with fields.
    rewrite store_action_actions, store_action_currentEmail, store_action_emails,
      store_action_currentAction, len_insert.
    cbn [reviewing not_submitted]. split_and!; side.
Qed.

Lemma completion_sound (m : appModel) call o msg :
  is_gateway call = true -> sound m [call] -> delivers call o = Some msg ->
  sound (fst (Update m msg)) (gateway_calls (snd (Update m msg)) ++ []).
Proof.
  intros Hg Hs Hd.
  assert (Hq : sound m []) by exact (sound_quiet m _ Hs).
  assert (Hact : forall i a,
             call_fits m [call] ->
             (view m = stateSubmittingAction /\ i = currentAction m) ->
             sound (fst (Update m (actionUpdatedMsg i a None)))
               (gateway_calls (snd (Update m (actionUpdatedMsg i a None))) ++ [])).
  { intros i a _ [Hv ->]. apply actionUpdated_sound; [exact Hq|].
    destruct Hq as (_ & _ & _ & Hr & _). apply Hr. rewrite Hv. reflexivity. }
  pose proof Hs as (_ & _ & _ & _ & _ & Hc).
  destruct call; try discriminate; destruct o; cbn in Hd; try discriminate.
  - injection Hd as <-. exact (fail_sound m _ _ Hs).
  - destruct (slice_ok r) eqn:Hok; [|discriminate]. injection Hd as <-.
    apply newEmail_sound; assumption.
  - injection Hd as <-. exact (fail_sound m _ _ Hs).
  - injection Hd as <-. apply Hact; assumption.
  - injection Hd as <-. exact (fail_sound m _ _ Hs).
  - injection Hd as <-. apply Hact; assumption.
  - injection Hd as <-. exact (fail_sound m _ _ Hs).
  - injection Hd as <-. apply Hact; assumption.
Qed.

(** *** The commands in flight *)

Lemma calls_after_deliver (w : world) rest msg :
  calls_in_flight (deliver w rest msg)
  = gateway_calls (snd (Update (model w) msg)) ++ filter is_gateway rest.
Proof.
  unfold deliver, calls_in_flight, gateway_calls.
  destruct (Update (model w) msg) as [m c]. cbn. apply filter_app.
Qed.

Lemma model_after_deliver (w : world) rest msg :
  model (deliver w rest msg) = fst (Update (model w) msg).
Proof. unfold deliver. destruct (Update (model w) msg). reflexivity. Qed.

Lemma filter_delete_split (l : list Cmd) n c :
  l !! n = Some c ->
  filter is_gateway l
  = filter is_gateway (take n l) ++ filter is_gateway [c] ++ filter is_gateway (drop (S n) l)
  /\ filter is_gateway (delete n l)
     = filter is_gateway (take n l) ++ filter is_gateway (drop (S n) l).
Proof.
  intros H. split.
  - rewrite <- (take_drop_middle l n c H) at 1. rewrite filter_app.
    change (c :: drop (S n) l) with ([c] ++ drop (S n) l). rewrite filter_app. reflexivity.
  - rewrite delete_take_drop, filter_app. reflexivity.
Qed.

Lemma fire_consistent (w w' : world) ev :
  consistent w -> fire w ev = Some w' -> consistent w'.
Proof.
  unfold consistent. intros Hs Hf. destruct ev as [k|wd ht|o|n o]; unfold fire in Hf.
  - injection Hf as <-. rewrite calls_after_deliver, model_after_deliver.
    apply (key_sound (model w) k). exact Hs.
  - injection Hf as <-. rewrite calls_after_deliver, model_after_deliver.
    cbn. apply resize_sound. exact Hs.
  - injection Hf as <-. rewrite calls_after_deliver, model_after_deliver.
    apply (other_sound (model w) o). exact Hs.
  - destruct (inflight w !! n) as [c|] eqn:Hn; [|discriminate].
    destruct (delivers c o) as [msg|] eqn:Hd; [|discriminate].
    injection Hf as <-. rewrite calls_after_deliver, model_after_deliver.
    destruct (filter_delete_split _ _ _ Hn) as [Hall Hrest].
    unfold calls_in_flight in Hs. rewrite Hrest.
    destruct (is_gateway c) eqn:Hg.
    + (* the call in flight completes *)
      assert (Hc : filter is_gateway [c] = [c]).
      { cbn. rewrite Hg. reflexivity. }
      rewrite Hc in Hall.
      pose proof Hs as (_ & _ & _ & _ & _ & Hfit). rewrite Hall in Hfit.
      destruct (filter is_gateway (take n (inflight w))) as [|x l1].
      * destruct (filter is_gateway (drop (S n) (inflight w))) as [|y l2].
        -- rewrite Hall in Hs. cbn [app] in *. eapply completion_sound; eassumption.
        -- cbn in Hfit. destruct c; contradiction.
      * cbn in Hfit. destruct l1; cbn in Hfit; destruct x; contradiction.
    + (* a tick or a command of a widget completes *)
      assert (Hc : filter is_gateway [c] = []).
      { cbn. rewrite Hg. reflexivity. }
      rewrite Hc in Hall. cbn [app] in Hall. rewrite <- Hall.
      destruct c; try discriminate; destruct o; cbn in Hd; try discriminate;
        injection Hd as <-; apply (other_sound (model w)); exact Hs.
Qed.

Lemma run_consistent (es : list event) (w w' : world) :
  consistent w -> run w es = Some w' -> consistent w'.
Proof.
  revert w. induction es as [|e es IH]; intros w Hs Hr; cbn in Hr.
  - injection Hr as <-. exact Hs.
  - destruct (fire w e) as [w1|] eqn:Hf; [|discriminate].
    apply (IH w1); [|exact Hr]. exact (fire_consistent w w1 e Hs Hf).
Qed.

Lemma start_consistent client now : consistent (start client now).
Proof.
  unfold consistent, start.
  assert (Hi : Init now (newAppModel client)
               = prepareEmail 0 (with_emails buildSampleEmails (newAppModel client)))
    by reflexivity.
  rewrite Hi. clear Hi.
  set (m0 := with_emails buildSampleEmails (newAppModel client)).
  assert (H0 : sound m0 []).
  { unfold sound. cbn. split_and!; side. }
  assert (Hl : len (emails m0) <= 4) by (unfold len; cbn; lia).
  pose proof (prepareEmail_sound m0 0 H0 Hl) as [Hs _].
  destruct (prepareEmail 0 m0) as [m c] eqn:E. cbn [fst snd] in Hs.
  unfold calls_in_flight. cbn [model inflight].
  unfold gateway_calls in Hs. rewrite app_nil_r in Hs. exact Hs.
Qed.

Theorem reachable_consistent (w : world) : reachable w -> consistent w.
Proof.
  intros (client & now & es & Hr).
  exact (run_consistent es _ w (start_consistent client now) Hr).
Qed.

End Invariant.

(** ** The action index, the next email, the commands of a review *)

Section Reachable.

Context {T : Toolkit}.

Lemma call_in_flight_alone (w : world) n c :
  consistent w -> inflight w !! n = Some c -> is_gateway c = true ->
  calls_in_flight w = [c].
Proof.
  intros Hs Hn Hg. destruct (filter_delete_split _ _ _ Hn) as [Hall _].
  assert (Hc : filter is_gateway [c] = [c]) by (cbn; rewrite Hg; reflexivity).
  rewrite Hc in Hall. unfold consistent, calls_in_flight in *.
  destruct Hs as (_ & _ & _ & _ & _ & Hfit). rewrite Hall in *.
  destruct (filter is_gateway (take n (inflight w))) as [|x l1].
  - destruct (filter is_gateway (drop (S n) (inflight w))) as [|y l2]; [reflexivity|].
    cbn in Hfit. destruct c; contradiction.
  - cbn in Hfit. destruct l1; cbn in Hfit; destruct x; contradiction.
Qed.

(** C3. In every world that the program reaches: when the completion
    of the submission brings a new result, the engine installs it and
    the action index is 0 right after; and whenever there is a result
    with at least one proposed action, the action index is a valid
    index into its actions. *)
Theorem action_index_valid_and_reset (w : world) :
  reachable w ->
  (forall n r w',
      fire w (Completed n (EmailProcessed r)) = Some w' ->
      response (model w') = Some r /\ currentAction (model w') = 0)
  /\ (forall r,
        response (model w) = Some r -> ProposedActions r <> [] ->
        0 <= currentAction (model w) < len (ProposedActions r)).
Proof.
  intros Hr. pose proof (reachable_consistent w Hr) as Hs. split.
  - intros n r w' Hf. unfold fire in Hf.
    destruct (inflight w !! n) as [c|] eqn:Hn; [|discriminate].
    destruct (delivers c (EmailProcessed r)) as [msg|] eqn:Hd; [|discriminate].
    injection Hf as <-. rewrite model_after_deliver.
    destruct c as [| |wc|e|i id|i id|i id p ap|cs]; cbn in Hd; try discriminate.
    destruct (slice_ok r) eqn:Hok; [|discriminate]. injection Hd as <-.
    pose proof (call_in_flight_alone w n _ Hs Hn eq_refl) as Hc.
    unfold consistent in Hs. rewrite Hc in Hs.
    exact (proj2 (newEmail_sound (model w) e r Hs Hok)).
  - intros r Hresp Hne. destruct Hs as (_ & _ & Hi & _).
    unfold actions in Hi. rewrite Hresp in Hi. exact (Hi Hne).
Qed.

(** C9. In every world that the program reaches, on the completion
    screen: when more sample emails remain, that is, when the index
    after the current one is still an index into the sample emails,
    the confirm key returns no command and prepares the next sample
    email, which becomes the current email, with the index into the
    emails advanced by one, the submission result, the pending edit
    and the recorded error cleared, the action index 0, the inline
    error empty, on the preview screen under its instruction,
    whatever these fields held before; when none remains, the confirm
    key returns the quit command and leaves the model as it is. *)
Theorem confirm_on_Done (w : world) :
  reachable w ->
  view (model w) = stateDone ->
  (currentEmail (model w) + 1 < len (emails (model w)) ->
   exists e,
     emails (model w) !! Z.to_nat (currentEmail (model w) + 1) = Some e
     /\ snd (handleKeyMsg (model w) confirm_key) = None
     /\ view (fst (handleKeyMsg (model w) confirm_key)) = statePreviewEmail
     /\ status (fst (handleKeyMsg (model w) confirm_key)) = previewInstruction
     /\ currentEmail (fst (handleKeyMsg (model w) confirm_key)) = currentEmail (model w) + 1
     /\ email (fst (handleKeyMsg (model w) confirm_key)) = e
     /\ emails (fst (handleKeyMsg (model w) confirm_key)) = emails (model w)
     /\ response (fst (handleKeyMsg (model w) confirm_key)) = None
     /\ pending (fst (handleKeyMsg (model w) confirm_key)) = None
     /\ currentAction (fst (handleKeyMsg (model w) confirm_key)) = 0
     /\ editorErr (fst (handleKeyMsg (model w) confirm_key)) = ""
     /\ err (fst (handleKeyMsg (model w) confirm_key)) = None)
  /\ (len (emails (model w)) <= currentEmail (model w) + 1 ->
      handleKeyMsg (model w) confirm_key = (model w, Some Quit)).
Proof.
  intros Hr Hv. pose proof (reachable_consistent w Hr) as Hs. unfold consistent in Hs.
  set (m := model w) in *.
  assert (Hk : handleKeyMsg m confirm_key
               = if hasMoreEmails m then prepareNextEmail m else (m, Some Quit)).
  { unfold handleKeyMsg, handleViewKey, viewUsesViewport. rewrite Hv. reflexivity. }
  pose proof Hs as ((He1 & He2) & _).
  assert (Hadd : GoInt.add (currentEmail m) 1 = currentEmail m + 1).
  { apply add_in_range. unfold GoInt.in_range. lia. }
  rewrite Hk. unfold hasMoreEmails. rewrite Hadd. split.
  - intros Hm.
    replace (currentEmail m + 1 <? len (emails m)) with true
      by (symmetry; apply Z.ltb_lt; exact Hm).
    unfold prepareNextEmail. rewrite Hadd.
    replace (len (emails m) <=? currentEmail m + 1) with false
      by (symmetry; apply Z.leb_gt; exact Hm).
    destruct (prepareEmail_sound m (currentEmail m + 1) (sound_quiet m _ Hs) He2)
      as [_ Hp].
    destruct Hp as (e & Hl & Heq); [lia|]. exists e. split; [exact Hl|].
    split.
    { unfold prepareEmail.
      replace ((currentEmail m + 1 <? 0) || (len (emails m) <=? currentEmail m + 1))
        with false.
      - rewrite Hl. reflexivity.
      - symmetry. apply orb_false_iff. split; [apply Z.ltb_ge|apply Z.leb_gt]; lia. }
    rewrite Heq. autorewrite with fields. split_and!; reflexivity.
  - intros Hm.
    replace (currentEmail m + 1 <? len (emails m)) with false
      by (symmetry; apply Z.ltb_ge; exact Hm).
    reflexivity.
Qed.

Lemma review_key_calls (m : appModel) k a c :
  view m = stateReview -> currentActionRef m = Some a ->
  c ∈ gateway_calls (snd (handleKeyMsg m k)) ->
  c = approveActionCmd (currentAction m) (ActionID a)
  \/ c = rejectActionCmd (currentAction m) (ActionID a).
Proof.
  intros Hv Ha. unfold handleKeyMsg.
  assert (Hview : c ∈ gateway_calls (snd (handleViewKey m k)) ->
                  c = approveActionCmd (currentAction m) (ActionID a)
                  \/ c = rejectActionCmd (currentAction m) (ActionID a)).
  { unfold handleViewKey, handleReviewKey. rewrite Hv, Ha.
    destruct (Type_ k); try (intros H; inversion H; fail).
    destruct (String.eqb _ "a").
    { unfold beginActionUpdate. cbn [snd]. rewrite batch_calls by reflexivity.
      intros H. apply list_elem_of_singleton in H. left. exact H. }
    destruct (String.eqb _ "r").
    { unfold beginActionUpdate. cbn [snd]. rewrite batch_calls by reflexivity.
      intros H. apply list_elem_of_singleton in H. right. exact H. }
    destruct (String.eqb _ "m").
    { unfold enterPayloadEditor. rewrite Ha.
      destruct (toPrettyJSON (Payload a)); intros H; inversion H. }
    destruct (String.eqb _ "q"); intros H; inversion H. }
  destruct (Type_ k) eqn:Hk; try exact Hview; try (intros H; inversion H; fail);
    (destruct (viewUsesViewport m); [|exact Hview]);
    (destruct (handleViewportScroll m k); [intros H; inversion H | exact Hview]).
Qed.

Lemma payload_key_calls (m : appModel) k c :
  view m = stateEditingPayload -> c ∈ gateway_calls (snd (handleKeyMsg m k)) -> False.
Proof.
  intros Hv. unfold handleKeyMsg.
  assert (Hu : viewUsesViewport m = false) by (unfold viewUsesViewport; rewrite Hv; reflexivity).
  rewrite Hu.
  assert (Hview : c ∈ gateway_calls (snd (handleViewKey m k)) -> False).
  { unfold handleViewKey, handlePayloadKey. rewrite Hv.
    destruct (textarea_Update (editor m) k) as [ed cmd].
    destruct (Type_ k); try (cbn [snd]; rewrite widget_is_no_call; intros H; inversion H; fail).
    destruct (String.eqb _ _); [|destruct (JSON.Unmarshal _)];
      cbn [snd]; rewrite widget_is_no_call; intros H; inversion H. }
  destruct (Type_ k); try exact Hview. intros H; inversion H.
Qed.

Lemma prompt_key_calls (m : appModel) k c :
  view m = statePromptGeneral ->
  c ∈ gateway_calls (snd (handleKeyMsg m k)) ->
  exists apply, c = modifyActionCmd (currentAction m) (currentActionID m) (pending m) apply.
Proof.
  intros Hv. unfold handleKeyMsg.
  assert (Hsub : forall apply, c ∈ gateway_calls (snd (submitModifiedAction apply m)) ->
            exists apply, c = modifyActionCmd (currentAction m) (currentActionID m)
                                (pending m) apply).
  { intros apply. rewrite submitModifiedAction_calls. intros H.
    apply list_elem_of_singleton in H. exists apply. exact H. }
  assert (Hview : c ∈ gateway_calls (snd (handleViewKey m k)) ->
            exists apply, c = modifyActionCmd (currentAction m) (currentActionID m)
                                (pending m) apply).
  { unfold handleViewKey, handlePromptKey. rewrite Hv.
    destruct (Type_ k); try (intros H; inversion H; fail).
    - destruct (String.eqb _ "y"); [apply Hsub|].
      destruct (String.eqb _ "n"); [apply Hsub|]. intros H; inversion H.
    - apply Hsub. }
  destruct (Type_ k) eqn:Hk; try exact Hview; try (intros H; inversion H; fail);
    (destruct (viewUsesViewport m); [|exact Hview]);
    (destruct (handleViewportScroll m k); [intros H; inversion H | exact Hview]).
Qed.

(** C10. In every world that the program reaches, on the review
    screen, in the payload editor and on the preference prompt, there
    is a submission result and the action index is a valid index into
    its proposed actions; the position that the review screen shows is
    the index plus one and lies between 1 and the number of actions;
    and every gateway call among the commands that a key returns on
    these screens is an approve or reject command, or a modify command
    carrying the pending edit, for the current index, with the
    identifier of the action at that index. *)
Theorem reviewing_screens_act_on_an_existing_action (w : world) :
  reachable w ->
  view (model w) = stateReview \/ view (model w) = stateEditingPayload
  \/ view (model w) = statePromptGeneral ->
  exists r a,
    response (model w) = Some r
    /\ 0 <= currentAction (model w) < len (ProposedActions r)
    /\ ProposedActions r !! Z.to_nat (currentAction (model w)) = Some a
    /\ position (model w) = currentAction (model w) + 1
    /\ 1 <= position (model w) <= len (ProposedActions r)
    /\ (forall k c,
          c ∈ gateway_calls (snd (handleKeyMsg (model w) k)) ->
          c = approveActionCmd (currentAction (model w)) (ActionID a)
          \/ c = rejectActionCmd (currentAction (model w)) (ActionID a)
          \/ exists apply,
               c = modifyActionCmd (currentAction (model w)) (ActionID a)
                     (pending (model w)) apply).
Proof.
  intros Hr Hv. pose proof (reachable_consistent w Hr) as Hs. unfold consistent in Hs.
  set (m := model w) in *.
  destruct Hs as (_ & Hsl & Hi & Hrev & _).
  assert (Hne : actions m <> []).
  { apply Hrev. destruct Hv as [-> | [-> | ->]]; reflexivity. }
  specialize (Hi Hne).
  destruct (actionAt_valid m (currentAction m) Hi) as [a Ha].
  pose proof (actionAt_Some m _ a Ha) as [_ Hl].
  unfold actions in *. destruct (response m) as [r|] eqn:Hresp; [|congruence].
  exists r, a.
  assert (Hpos : position m = currentAction m + 1).
  { unfold position. apply add_in_range. unfold GoInt.in_range. lia. }
  assert (Hid : currentActionID m = ActionID a).
  { unfold currentActionID, currentActionRef. rewrite Ha. reflexivity. }
  split_and!; try (assumption || lia || reflexivity).
  intros k c Hc. destruct Hv as [Hv | [Hv | Hv]].
  - destruct (review_key_calls m k a c Hv Ha Hc) as [-> | ->]; [left|right; left];
      reflexivity.
  - destruct (payload_key_calls m k c Hv Hc).
  - right. right. destruct (prompt_key_calls m k c Hv Hc) as [apply ->].
    exists apply. rewrite Hid. reflexivity.
Qed.

End Reachable.

Lemma action_index_valid_and_reset_witness :
  reachable Examples.second_submission
  /\ view (model Examples.reviewed_two) = stateDone
  /\ currentAction (model Examples.reviewed_two) = 1
  /\ view (model Examples.second_submission) = stateLoading
  /\ (forall n r w',
        fire Examples.second_submission (Completed n (EmailProcessed r)) = Some w' ->
        response (model w') = Some r /\ currentAction (model w') = 0).
Proof.
  assert (Hr : reachable Examples.second_submission).
  { exists Examples.client, 0,
      (Examples.submit [Examples.draft "act-1"; Examples.draft "act-2"] ++ [Examples.enter]
       ++ Examples.approve_round (Examples.approved "act-1")
       ++ Examples.approve_round (Examples.approved "act-2")
       ++ [Examples.enter; Examples.enter]).
    vm_compute. reflexivity. }
  split; [exact Hr|].
  split; [vm_compute; reflexivity|].
  split; [vm_compute; reflexivity|].
  split; [vm_compute; reflexivity|].
  exact (proj1 (action_index_valid_and_reset (T := plain) Examples.second_submission Hr)).
Defined.

Lemma confirm_on_Done_witness :
  reachable Examples.done_edited
  /\ view (model Examples.done_edited) = stateDone
  /\ currentEmail (model Examples.done_edited) + 1 < len (emails (model Examples.done_edited))
  /\ currentAction (model Examples.done_edited) = 1
  /\ pending (model Examples.done_edited) = Some ∅
  /\ editorErr (model Examples.done_edited) = "Invalid JSON: syntax error"
  /\ response (model Examples.done_edited)
     = Some (Examples.result_with [Examples.approved "act-1"; Examples.approved "act-2"])
  /\ (exists e,
        emails (model Examples.done_edited)
          !! Z.to_nat (currentEmail (model Examples.done_edited) + 1) = Some e
        /\ snd (handleKeyMsg (model Examples.done_edited) confirm_key) = None
        /\ view (fst (handleKeyMsg (model Examples.done_edited) confirm_key))
           = statePreviewEmail
        /\ status (fst (handleKeyMsg (model Examples.done_edited) confirm_key))
           = previewInstruction
        /\ currentEmail (fst (handleKeyMsg (model Examples.done_edited) confirm_key))
           = currentEmail (model Examples.done_edited) + 1
        /\ email (fst (handleKeyMsg (model Examples.done_edited) confirm_key)) = e
        /\ emails (fst (handleKeyMsg (model Examples.done_edited) confirm_key))
           = emails (model Examples.done_edited)
        /\ response (fst (handleKeyMsg (model Examples.done_edited) confirm_key)) = None
        /\ pending (fst (handleKeyMsg (model Examples.done_edited) confirm_key)) = None
        /\ currentAction (fst (handleKeyMsg (model Examples.done_edited) confirm_key)) = 0
        /\ editorErr (fst (handleKeyMsg (model Examples.done_edited) confirm_key)) = ""
        /\ err (fst (handleKeyMsg (model Examples.done_edited) confirm_key)) = None)
  /\ reachable Examples.done_last
  /\ view (model Examples.done_last) = stateDone
  /\ len (emails (model Examples.done_last)) <= currentEmail (model Examples.done_last) + 1
  /\ handleKeyMsg (model Examples.done_last) confirm_key
     = (model Examples.done_last, Some Quit).
Proof.
  assert (Hr : reachable Examples.done_edited).
  { exists Examples.client, 0,
      (Examples.submit [Examples.draft "act-1"; Examples.draft "act-2"] ++ [Examples.enter]
       ++ Examples.modify_round (Examples.approved "act-1")
       ++ Examples.failed_edit ++ Examples.approve_round (Examples.approved "act-2")).
    vm_compute. reflexivity. }
  assert (Hv : view (model Examples.done_edited) = stateDone) by (vm_compute; reflexivity).
  assert (Hm : currentEmail (model Examples.done_edited) + 1
               < len (emails (model Examples.done_edited))) by (vm_compute; reflexivity).
  assert (Hr' : reachable Examples.done_last).
  { exists Examples.client, 0,
      (Examples.submit [] ++ [Examples.enter] ++ Examples.submit [] ++ [Examples.enter]
       ++ Examples.submit [] ++ [Examples.enter] ++ Examples.submit []).
    vm_compute. reflexivity. }
  assert (Hv' : view (model Examples.done_last) = stateDone) by (vm_compute; reflexivity).
  assert (Hm' : len (emails (model Examples.done_last))
                <= currentEmail (model Examples.done_last) + 1)
    by (vm_compute; discriminate).
  split_and!.
  - exact Hr.
  - exact Hv.
  - exact Hm.
  - vm_compute. reflexivity.
  - vm_compute. reflexivity.
  - vm_compute. reflexivity.
  - vm_compute. reflexivity.
  - exact (proj1 (confirm_on_Done (T := plain) Examples.done_edited Hr Hv) Hm).
  - exact Hr'.
  - exact Hv'.
  - exact Hm'.
  - exact (proj2 (confirm_on_Done (T := plain) Examples.done_last Hr' Hv') Hm').
Defined.

Lemma reviewing_screens_act_on_an_existing_action_witness :
  reachable Examples.review_one
  /\ view (model Examples.review_one) = stateReview
  /\ exists r a,
      response (model Examples.review_one) = Some r
      /\ 0 <= currentAction (model Examples.review_one) < len (ProposedActions r)
      /\ ProposedActions r !! Z.to_nat (currentAction (model Examples.review_one)) = Some a
      /\ position (model Examples.review_one) = currentAction (model Examples.review_one) + 1
      /\ 1 <= position (model Examples.review_one) <= len (ProposedActions r)
      /\ (forall k c,
            c ∈ gateway_calls (snd (handleKeyMsg (model Examples.review_one) k)) ->
            c = approveActionCmd (currentAction (model Examples.review_one)) (ActionID a)
            \/ c = rejectActionCmd (currentAction (model Examples.review_one)) (ActionID a)
            \/ exists apply,
                 c = modifyActionCmd (currentAction (model Examples.review_one)) (ActionID a)
                       (pending (model Examples.review_one)) apply).
Proof.
  assert (Hr : reachable Examples.review_one).
  { exists Examples.client, 0, (Examples.submit [Examples.draft "act-1"] ++ [Examples.enter]).
    vm_compute. reflexivity. }
  assert (Hv : view (model Examples.review_one) = stateReview) by (vm_compute; reflexivity).
  split; [exact Hr|]. split; [exact Hv|].
  exact (reviewing_screens_act_on_an_existing_action (T := plain) Examples.review_one Hr
           (or_introl Hv)).
Defined.

(** * More of the engine *)

(** ** Completions *)

Section Completions.

Context {T : Toolkit}.

(** X1. A successful completion of the submission installs the email and
    the result that the message carries and returns no command. With at
    least one proposed action the engine goes to the summary screen with
    an empty status; with none, or with no result at all, it goes
    straight to the completion screen with the status [No actions to
    review.]. The action index, the pending edit and the recorded error
    are left as they were. *)
Theorem submission_result_routes (m : appModel) (e : Email) (resp : option NewEmailResponse) :
  snd (Update m (newEmailMsg e resp None)) = None
  /\ email (fst (Update m (newEmailMsg e resp None))) = e
  /\ response (fst (Update m (newEmailMsg e resp None))) = resp
  /\ currentAction (fst (Update m (newEmailMsg e resp None))) = currentAction m
  /\ pending (fst (Update m (newEmailMsg e resp None))) = pending m
  /\ err (fst (Update m (newEmailMsg e resp None))) = err m
  /\ view (fst (Update m (newEmailMsg e resp None)))
     = match resp with
       | Some r => if 0 <? len (ProposedActions r) then stateSummary else stateDone
       | None => stateDone
       end
  /\ status (fst (Update m (newEmailMsg e resp None)))
     = match resp with
       | Some r => if 0 <? len (ProposedActions r) then "" else "No actions to review."
       | None => "No actions to review."
       end.
Proof.
  cbn [Update]. unfold hasActions. cbn [response with_response].
  destruct resp as [r|]; [destruct (0 <? len (ProposedActions r))|];
    cbn [fst snd]; autorewrite with fields; split_and!; reflexivity.
Qed.

(** X2. [actionAt] answers exactly within the bounds of the proposed
    actions: there is an action at an index if and only if the index is
    at least 0 and less than their number (so never without a result,
    and never for a negative index), and it is then the element at that
    position; [hasActions] holds exactly when there is an action at
    index 0. *)
Theorem actionAt_bounds (m : appModel) (i : Z) :
  ((exists a, actionAt m i = Some a) <-> 0 <= i < len (actions m))
  /\ (forall a, actionAt m i = Some a -> actions m !! Z.to_nat i = Some a)
  /\ (response m = None -> actionAt m i = None)
  /\ (hasActions m = true <-> exists a, actionAt m 0 = Some a).
Proof.
  split_and!.
  - split.
    + intros [a Ha]. exact (proj1 (actionAt_Some m i a Ha)).
    + apply actionAt_valid.
  - intros a Ha. exact (proj2 (actionAt_Some m i a Ha)).
  - intros Hr. unfold actionAt. rewrite Hr. reflexivity.
  - rewrite hasActions_actions. split.
    + intros H. apply Z.ltb_lt in H. apply actionAt_valid. lia.
    + intros [a Ha]. apply actionAt_Some in Ha as [Hb _]. apply Z.ltb_lt. lia.
Qed.

(** X3. A successful completion of an action call writes the returned
    action at the index that the message carries, whatever the current
    index is, and nowhere else: the proposed actions are the same list
    with that one element replaced when the index is within bounds, and
    the same list otherwise. Then, when there is an action at the index
    after it, that index becomes the current one and the screen is the
    review screen; when there is none, the current index is kept and the
    screen is the completion screen. The command is the tick of the
    spinner. *)
Theorem completion_writes_at_its_index (m : appModel) (index : Z) (reply : Action) :
  snd (Update m (actionUpdatedMsg index reply None)) = Some spinner_Tick
  /\ actions (fst (Update m (actionUpdatedMsg index reply None)))
     = (if (0 <=? index) && (index <? len (actions m))
        then <[Z.to_nat index := reply]> (actions m) else actions m)
  /\ length (actions (fst (Update m (actionUpdatedMsg index reply None))))
     = length (actions m)
  /\ (forall j, j <> Z.to_nat index ->
        actions (fst (Update m (actionUpdatedMsg index reply None))) !! j = actions m !! j)
  /\ view (fst (Update m (actionUpdatedMsg index reply None)))
     = (if (0 <=? GoInt.add index 1) && (GoInt.add index 1 <? len (actions m))
        then stateReview else stateDone)
  /\ currentAction (fst (Update m (actionUpdatedMsg index reply None)))
     = (if (0 <=? GoInt.add index 1) && (GoInt.add index 1 <? len (actions m))
        then GoInt.add index 1 else currentAction m).
Proof.
  set (m1 := match actionAt m index with
             | Some _ => store_action index reply m
             | None => m
             end).
  assert (Hacts : actions m1
                  = if (0 <=? index) && (index <? len (actions m))
                    then <[Z.to_nat index := reply]> (actions m) else actions m).
  { unfold m1. rewrite actionAt_actions.
    destruct (index <? 0) eqn:E1; destruct (len (actions m) <=? index) eqn:E2;
      try apply Z.ltb_lt in E1; try apply Z.ltb_ge in E1;
      try apply Z.leb_le in E2; try apply Z.leb_gt in E2; cbn [orb].
    - replace (0 <=? index) with false by (symmetry; apply Z.leb_gt; lia). reflexivity.
    - replace (0 <=? index) with false by (symmetry; apply Z.leb_gt; lia). reflexivity.
    - replace (index <? len (actions m)) with false by (symmetry; apply Z.ltb_ge; lia).
      rewrite andb_false_r. reflexivity.
    - replace (0 <=? index) with true by (symmetry; apply Z.leb_le; lia).
      replace (index <? len (actions m)) with true by (symmetry; apply Z.ltb_lt; lia).
      cbn [andb]. destruct (lookup_lt_is_Some_2 (actions m) (Z.to_nat index)) as [old Hold].
      { unfold len in E2. lia. }
      rewrite Hold. apply store_action_actions. }
  assert (Hlen : length (actions m1) = length (actions m)).
  { rewrite Hacts. destruct (_ && _); [apply length_insert|reflexivity]. }
  assert (Hcur : currentAction m1 = currentAction m).
  { unfold m1. destruct (actionAt m index); [apply store_action_currentAction|reflexivity]. }
  assert (Hnext : actionAt m1 (GoInt.add index 1)
                  = if (0 <=? GoInt.add index 1) && (GoInt.add index 1 <? len (actions m))
                    then actions m1 !! Z.to_nat (GoInt.add index 1) else None).
  { rewrite actionAt_actions. unfold len at 1. rewrite Hlen. fold (len (actions m)).
    destruct (GoInt.add index 1 <? 0) eqn:E1;
      destruct (len (actions m) <=? GoInt.add index 1) eqn:E2;
      try apply Z.ltb_lt in E1; try apply Z.ltb_ge in E1;
      try apply Z.leb_le in E2; try apply Z.leb_gt in E2; cbn [orb].
    - replace (0 <=? GoInt.add index 1) with false by (symmetry; apply Z.leb_gt; lia).
      reflexivity.
    - replace (0 <=? GoInt.add index 1) with false by (symmetry; apply Z.leb_gt; lia).
      reflexivity.
    - replace (GoInt.add index 1 <? len (actions m)) with false
        by (symmetry; apply Z.ltb_ge; lia).
      rewrite andb_false_r. reflexivity.
    - replace (0 <=? GoInt.add index 1) with true by (symmetry; apply Z.leb_le; lia).
      replace (GoInt.add index 1 <? len (actions m)) with true
        by (symmetry; apply Z.ltb_lt; lia).
      reflexivity. }
  cbn [Update]. fold m1. rewrite Hnext.
  destruct ((0 <=? GoInt.add index 1) && (GoInt.add index 1 <? len (actions m))) eqn:E.
  - apply andb_true_iff in E as [E1 E2]. apply Z.leb_le in E1. apply Z.ltb_lt in E2.
    destruct (lookup_lt_is_Some_2 (actions m1) (Z.to_nat (GoInt.add index 1))) as [nx Hnx].
    { rewrite Hlen. unfold len in E2. lia. }
    rewrite Hnx. cbn [fst snd]. autorewrite with fields.
    change (actions (with_currentAction (GoInt.add index 1) m1)) with (actions m1).
    cbn [currentAction with_currentAction].
    split_and!; try reflexivity; try assumption.
    intros j Hj. rewrite Hacts. destruct (_ && _); [|reflexivity].
    apply list_lookup_insert_ne. congruence.
  - cbn [fst snd]. autorewrite with fields.
    split_and!; try reflexivity; try assumption.
    intros j Hj. rewrite Hacts. destruct (_ && _); [|reflexivity].
    apply list_lookup_insert_ne. congruence.
Qed.

(** X4. A completion that carries an error, of the submission or of an
    action call, overwrites nothing: the email, the result with its
    actions, the action index and the pending edit are as before, even
    though the message of an action call also carries an action; the
    error is recorded and the status is emptied. *)
Theorem failed_completion_keeps_the_session (m : appModel) (e : string)
    (em : Email) (resp : option NewEmailResponse) (index : Z) (a : Action) :
  (email (fst (Update m (newEmailMsg em resp (Some e)))) = email m
   /\ response (fst (Update m (newEmailMsg em resp (Some e)))) = response m
   /\ currentAction (fst (Update m (newEmailMsg em resp (Some e)))) = currentAction m
   /\ pending (fst (Update m (newEmailMsg em resp (Some e)))) = pending m
   /\ err (fst (Update m (newEmailMsg em resp (Some e)))) = Some e
   /\ status (fst (Update m (newEmailMsg em resp (Some e)))) = ""
   /\ view (fst (Update m (newEmailMsg em resp (Some e)))) = stateError)
  /\ (email (fst (Update m (actionUpdatedMsg index a (Some e)))) = email m
      /\ response (fst (Update m (actionUpdatedMsg index a (Some e)))) = response m
      /\ currentAction (fst (Update m (actionUpdatedMsg index a (Some e)))) = currentAction m
      /\ pending (fst (Update m (actionUpdatedMsg index a (Some e)))) = pending m
      /\ err (fst (Update m (actionUpdatedMsg index a (Some e)))) = Some e
      /\ status (fst (Update m (actionUpdatedMsg index a (Some e)))) = ""
      /\ view (fst (Update m (actionUpdatedMsg index a (Some e)))) = stateError).
Proof.
  cbn [Update]. unfold fail. cbn [fst]. autorewrite with fields.
  split_and!; reflexivity.
Qed.

End Completions.



(** ** Keys *)

Section Keys.

Context {T : Toolkit}.

(** X5. While a call is awaited, on the loading screen and on the screen
    of a submitted action, no key does anything but the terminate key:
    the model is returned as it is, without a command, so that no second
    call can be issued from these screens. *)
Theorem waiting_screens_ignore_keys (m : appModel) (k : KeyMsg) :
  view m = stateLoading \/ view m = stateSubmittingAction ->
  handleKeyMsg m k
  = match Type_ k with
    | KeyCtrlC => (m, Some Quit)
    | _ => (m, None)
    end.
Proof.
  intros Hv. unfold handleKeyMsg, handleViewKey, viewUsesViewport.
  destruct Hv as [-> | ->]; destruct (Type_ k); reflexivity.
Qed.

Lemma SetYOffset_keeps n v :
  lines (Viewport.SetYOffset n v) = lines v
  /\ Width (Viewport.SetYOffset n v) = Width v
  /\ Height (Viewport.SetYOffset n v) = Height v.
Proof. split_and!; reflexivity. Qed.

Lemma scrolled_viewport_keeps (m m' : appModel) k :
  handleViewportScroll m k = Some m' ->
  m' = with_viewport (viewport m') m
  /\ lines (viewport m') = lines (viewport m)
  /\ Width (viewport m') = Width (viewport m)
  /\ Height (viewport m') = Height (viewport m).
Proof.
  unfold handleViewportScroll. intros H.
  destruct (Type_ k); try discriminate; injection H as <-; cbn [viewport with_viewport];
    (split; [reflexivity|]);
    unfold Viewport.LineUp, Viewport.LineDown, Viewport.ViewUp, Viewport.ViewDown,
      Viewport.GotoTop, Viewport.GotoBottom;
    repeat match goal with |- context [if ?c then _ else _] => destruct c end;
    split_and!; reflexivity.
Qed.

(** X6. On a screen that shows the viewport, the six scrolling keys (up,
    down, page up, page down, home, end) never reach the screen's own
    handler: no command comes back, and the model is the same but for
    the viewport, whose lines, width and height are the same too, so
    that only its offset may move. *)
Theorem scroll_keys_move_only_the_window (m : appModel) (k : KeyMsg) :
  viewUsesViewport m = true -> scroll_key k = true ->
  snd (handleKeyMsg m k) = None
  /\ fst (handleKeyMsg m k) = with_viewport (viewport (fst (handleKeyMsg m k))) m
  /\ lines (viewport (fst (handleKeyMsg m k))) = lines (viewport m)
  /\ Width (viewport (fst (handleKeyMsg m k))) = Width (viewport m)
  /\ Height (viewport (fst (handleKeyMsg m k))) = Height (viewport m).
Proof.
  intros Hu Hk. unfold handleKeyMsg. rewrite Hu.
  destruct (handleViewportScroll m k) as [m'|] eqn:Hs.
  - pose proof (scrolled_viewport_keeps m m' k Hs) as (H1 & H2 & H3 & H4).
    unfold scroll_key in Hk. destruct (Type_ k); try discriminate; cbn [fst snd];
      split_and!; (reflexivity || assumption).
  - unfold handleViewportScroll, scroll_key in *. destruct (Type_ k); discriminate.
Qed.

(** X7. The quit key (q, in either case) returns the quit command on
    exactly three screens: the preview, the completion screen, and the
    review screen when there is a current action. Everywhere else it
    does not: on the summary, the prompt, the error screen and the two
    waiting screens it is ignored, and in the payload editor it goes to
    the text area. *)
Theorem quit_key_quits_exactly_on (m : appModel) (k : KeyMsg) :
  quit_key k ->
  (snd (handleKeyMsg m k) = Some Quit
   <-> view m = statePreviewEmail \/ view m = stateDone
       \/ (view m = stateReview /\ exists a, currentActionRef m = Some a)).
Proof.
  intros Hq. rewrite (letter_not_scroll "q" m k Hq). destruct Hq as [Hk Hr].
  unfold handleViewKey.
  destruct (view m) eqn:Hv.
  - split; [discriminate|]. intros [H|[H|[H _]]]; discriminate.
  - unfold handlePreviewKey. rewrite Hk, Hr. split; [auto|reflexivity].
  - rewrite Hk. split; [discriminate|]. intros [H|[H|[H _]]]; discriminate.
  - unfold handleReviewKey. destruct (currentActionRef m) as [a|] eqn:Ha.
    + rewrite Hk, Hr. split; [intros _; right; right; eauto|reflexivity].
    + split; [discriminate|]. intros [H|[H|[_ [a Ha']]]]; discriminate.
  - unfold handlePayloadKey. destruct (textarea_Update (editor m) k) as [ed c].
    rewrite Hk. cbn [snd]. split.
    + destruct c; discriminate.
    + intros [H|[H|[H _]]]; discriminate.
  - unfold handlePromptKey. rewrite Hk, Hr. split; [discriminate|].
    intros [H|[H|[H _]]]; discriminate.
  - split; [discriminate|]. intros [H|[H|[H _]]]; discriminate.
  - rewrite Hk, Hr. split; [auto|reflexivity].
  - rewrite Hk. split; [discriminate|]. intros [H|[H|[H _]]]; discriminate.
Qed.

(** X8. There is no way back from the preference prompt. Whatever the
    key, the email, the result, the action index, the pending edit and
    the recorded error are kept, and either the screen is still the
    prompt and no gateway call is issued, or the screen is the one of a
    submitted action and exactly one modify command for the current
    action with the pending edit is issued. *)
Theorem prompt_only_leads_to_submission (m : appModel) (k : KeyMsg) :
  view m = statePromptGeneral ->
  same_session m (fst (handleKeyMsg m k))
  /\ ((view (fst (handleKeyMsg m k)) = statePromptGeneral
       /\ gateway_calls (snd (handleKeyMsg m k)) = [])
      \/ (view (fst (handleKeyMsg m k)) = stateSubmittingAction
          /\ exists apply,
               gateway_calls (snd (handleKeyMsg m k))
               = [modifyActionCmd (currentAction m) (currentActionID m) (pending m) apply])).
Proof.
  intros Hv.
  assert (Hstay : same_session m m /\ ((view m = statePromptGeneral /\ @nil Cmd = [])
            \/ (view m = stateSubmittingAction /\ exists apply : bool,
                  @nil Cmd = [modifyActionCmd (currentAction m) (currentActionID m)
                                (pending m) apply]))).
  { split; [unfold same_session; split_and!; reflexivity|]. left. auto. }
  assert (Hsub : forall apply,
            same_session m (fst (submitModifiedAction apply m))
            /\ ((view (fst (submitModifiedAction apply m)) = statePromptGeneral
                 /\ gateway_calls (snd (submitModifiedAction apply m)) = [])
                \/ (view (fst (submitModifiedAction apply m)) = stateSubmittingAction
                    /\ exists ap,
                         gateway_calls (snd (submitModifiedAction apply m))
                         = [modifyActionCmd (currentAction m) (currentActionID m)
                              (pending m) ap]))).
  { intros apply. split.
    - unfold submitModifiedAction, beginActionUpdate, same_session. cbn [fst].
      autorewrite with fields. split_and!; reflexivity.
    - right. split; [apply setView_view|]. exists apply. apply submitModifiedAction_calls. }
  assert (Hview : same_session m (fst (handleViewKey m k))
            /\ ((view (fst (handleViewKey m k)) = statePromptGeneral
                 /\ gateway_calls (snd (handleViewKey m k)) = [])
                \/ (view (fst (handleViewKey m k)) = stateSubmittingAction
                    /\ exists apply,
                         gateway_calls (snd (handleViewKey m k))
                         = [modifyActionCmd (currentAction m) (currentActionID m)
                              (pending m) apply]))).
  { unfold handleViewKey, handlePromptKey. rewrite Hv.
    destruct (Type_ k); try exact Hstay; try apply Hsub.
    destruct (String.eqb _ "y"); [apply Hsub|].
    destruct (String.eqb _ "n"); [apply Hsub|exact Hstay]. }
  unfold handleKeyMsg.
  destruct (Type_ k) eqn:Hk; try exact Hview; try exact Hstay;
    (destruct (viewUsesViewport m); [|exact Hview]);
    (destruct (handleViewportScroll m k) as [m'|] eqn:Hs; [|exact Hview]);
    pose proof (scrolled_viewport_keeps m m' k Hs) as (Heq & _); cbn [fst snd];
    (split; [rewrite Heq; unfold same_session; split_and!; reflexivity|]);
    left; (split; [rewrite Heq; exact Hv | reflexivity]).
Qed.

(** A letter key on the review screen, with a current action. *)
Lemma review_letter (m : appModel) k letter a :
  view m = stateReview -> currentActionRef m = Some a -> letter_key letter k ->
  handleKeyMsg m k
  = if String.eqb letter "a" then
      beginActionUpdate "Approving action..."
        (approveActionCmd (currentAction m) (ActionID a)) m
    else if String.eqb letter "r" then
      beginActionUpdate "Rejecting action..."
        (rejectActionCmd (currentAction m) (ActionID a)) m
    else if String.eqb letter "m" then enterPayloadEditor m
    else if String.eqb letter "q" then (m, Some Quit)
    else (m, None).
Proof.
  intros Hv Ha Hl. rewrite (letter_not_scroll letter m k Hl). destruct Hl as [Hk Hr].
  unfold handleViewKey, handleReviewKey. rewrite Hv, Ha, Hk, Hr. reflexivity.
Qed.

(** X9. On the review screen with a current action, the approve key (a)
    issues exactly one gateway call, the approve command for the current
    index and the identifier of the current action, and the reject key
    (r) exactly one reject command for them; both move to the screen of
    a submitted action with their own status line and keep the session
    as it is. *)
Theorem review_decision_issues_one_call (m : appModel) (k : KeyMsg) (a : Action) :
  view m = stateReview -> currentActionRef m = Some a ->
  (letter_key "a" k ->
     gateway_calls (snd (handleKeyMsg m k))
     = [approveActionCmd (currentAction m) (ActionID a)]
     /\ view (fst (handleKeyMsg m k)) = stateSubmittingAction
     /\ status (fst (handleKeyMsg m k)) = "Approving action..."
     /\ same_session m (fst (handleKeyMsg m k)))
  /\ (letter_key "r" k ->
        gateway_calls (snd (handleKeyMsg m k))
        = [rejectActionCmd (currentAction m) (ActionID a)]
        /\ view (fst (handleKeyMsg m k)) = stateSubmittingAction
        /\ status (fst (handleKeyMsg m k)) = "Rejecting action..."
        /\ same_session m (fst (handleKeyMsg m k))).
Proof.
  intros Hv Ha. split; intros Hl; rewrite (review_letter m k _ a Hv Ha Hl).
  - change (String.eqb "a" "a") with true. cbv iota.
    unfold beginActionUpdate, same_session. cbn [fst snd]. rewrite batch_calls by reflexivity.
    autorewrite with fields. split_and!; reflexivity.
  - change (String.eqb "r" "a") with false. change (String.eqb "r" "r") with true. cbv iota.
    unfold beginActionUpdate, same_session. cbn [fst snd]. rewrite batch_calls by reflexivity.
    autorewrite with fields. split_and!; reflexivity.
Qed.

(** X10. The modify key (m) on the review screen with a current action
    opens the payload editor on the pretty-printed payload of that
    action: the text area receives the text, the cursor goes to its end
    and it takes the focus, the inline error is emptied, and the status
    line and the viewport stay as they were; no command is returned. If
    the payload cannot be rendered, the engine goes to the error screen
    with the error [format payload: ] followed by the encoder's error.
    In both cases the session is kept and no gateway call is issued. *)
Theorem modify_key_opens_the_editor (m : appModel) (k : KeyMsg) (a : Action) :
  view m = stateReview -> currentActionRef m = Some a -> letter_key "m" k ->
  match MarshalIndent (Payload a) with
  | inr pretty =>
      handleKeyMsg m k
      = (with_view stateEditingPayload
           (with_editorErr ""
              (with_editor
                 (textarea_Focus (textarea_CursorEnd (textarea_SetValue pretty (editor m)))) m)),
         None)
  | inl e =>
      snd (handleKeyMsg m k) = None
      /\ view (fst (handleKeyMsg m k)) = stateError
      /\ err (fst (handleKeyMsg m k)) = Some ("format payload: " +:+ e)
      /\ response (fst (handleKeyMsg m k)) = response m
      /\ currentAction (fst (handleKeyMsg m k)) = currentAction m
      /\ pending (fst (handleKeyMsg m k)) = pending m
      /\ editor (fst (handleKeyMsg m k)) = editor m
  end.
Proof.
  intros Hv Ha Hl. rewrite (review_letter m k _ a Hv Ha Hl).
  change (String.eqb "m" "a") with false. change (String.eqb "m" "r") with false.
  change (String.eqb "m" "m") with true. cbv iota.
  unfold enterPayloadEditor, toPrettyJSON. rewrite Ha.
  destruct (MarshalIndent (Payload a)) as [e|pretty]; [|reflexivity].
  unfold fail. cbn [fst snd]. autorewrite with fields. split_and!; reflexivity.
Qed.

Lemma editing_key_step (m : appModel) k :
  view m = stateEditingPayload -> editing_key k = true ->
  view (fst (handleKeyMsg m k)) = stateEditingPayload
  /\ same_session m (fst (handleKeyMsg m k))
  /\ editorErr (fst (handleKeyMsg m k)) = editorErr m
  /\ status (fst (handleKeyMsg m k)) = status m
  /\ viewport (fst (handleKeyMsg m k)) = viewport m
  /\ gateway_calls (snd (handleKeyMsg m k)) = [].
Proof.
  intros Hv Hk. unfold handleKeyMsg, viewUsesViewport, handleViewKey. rewrite Hv.
  unfold handlePayloadKey, editing_key in *.
  destruct (textarea_Update (editor m) k) as [ed c].
  destruct (Type_ k); try discriminate; cbn [fst snd]; rewrite ?widget_is_no_call;
    unfold same_session; split_and!; (reflexivity || assumption).
Qed.

Lemma cancel_step (m : appModel) :
  view m = stateEditingPayload ->
  view (fst (handleKeyMsg m cancel_key)) = stateReview
  /\ same_session m (fst (handleKeyMsg m cancel_key))
  /\ editorErr (fst (handleKeyMsg m cancel_key)) = editorErr m
  /\ status (fst (handleKeyMsg m cancel_key)) = subtleTextStyle "Modification cancelled."
  /\ gateway_calls (snd (handleKeyMsg m cancel_key)) = [].
Proof.
  intros Hv. unfold handleKeyMsg, viewUsesViewport, handleViewKey. rewrite Hv.
  unfold handlePayloadKey. cbn [cancel_key Type_].
  destruct (textarea_Update (editor m) cancel_key) as [ed c]. cbn [fst snd].
  rewrite widget_is_no_call. unfold same_session. autorewrite with fields.
  split_and!; reflexivity.
Qed.

Lemma same_session_trans (m1 m2 m3 : appModel) :
  same_session m1 m2 -> same_session m2 m3 -> same_session m1 m3.
Proof. unfold same_session. intros H1 H2. split_and!; etransitivity; (apply H2 || apply H1). Qed.

(** X11. An edit that is cancelled changes nothing of the session. From
    the payload editor, after any keys that are neither the save key nor
    the cancel key, the cancel key returns to the review screen with the
    status [Modification cancelled.], and the email, the result with its
    actions, the action index, the pending edit and the recorded error
    are what they were when the keys began; the viewport holds the
    review content again. *)
Theorem cancelled_edit_changes_nothing (m : appModel) (ks : list KeyMsg) :
  view m = stateEditingPayload -> forallb editing_key ks = true ->
  view (fst (handleKeyMsg (press_all m ks) cancel_key)) = stateReview
  /\ same_session m (fst (handleKeyMsg (press_all m ks) cancel_key))
  /\ editorErr (fst (handleKeyMsg (press_all m ks) cancel_key)) = editorErr m
  /\ status (fst (handleKeyMsg (press_all m ks) cancel_key))
     = subtleTextStyle "Modification cancelled."
  /\ shows_current_content (fst (handleKeyMsg (press_all m ks) cancel_key)).
Proof.
  intros Hv Hks.
  assert (Hall : view (press_all m ks) = stateEditingPayload
                 /\ same_session m (press_all m ks)
                 /\ editorErr (press_all m ks) = editorErr m).
  { revert m Hv Hks. induction ks as [|k ks IH]; intros m Hv Hks; cbn [press_all].
    - split; [exact Hv|]. split; [unfold same_session; split_and!; reflexivity|reflexivity].
    - cbn [forallb] in Hks. apply andb_true_iff in Hks as [Hk Hks].
      destruct (editing_key_step m k Hv Hk) as (Hv1 & Hs1 & He1 & _).
      destruct (IH _ Hv1 Hks) as (Hv2 & Hs2 & He2).
      split_and!; [exact Hv2 | exact (same_session_trans _ _ _ Hs1 Hs2) | congruence]. }
  destruct Hall as (Hv' & Hs' & He').
  destruct (cancel_step (press_all m ks) Hv') as (Hv2 & Hs2 & He2 & Hst & _).
  split_and!.
  - exact Hv2.
  - exact (same_session_trans _ _ _ Hs' Hs2).
  - congruence.
  - exact Hst.
  - unfold handleKeyMsg, viewUsesViewport, handleViewKey. rewrite Hv'.
    unfold handlePayloadKey. cbn [cancel_key Type_].
    destruct (textarea_Update (editor (press_all m ks)) cancel_key) as [ed c]. cbn [fst].
    intros _. rewrite setView_lines by reflexivity.
    rewrite (setView_eq stateReview _ _). 
    set (x := with_status _ _).
    replace (currentViewContent (with_viewport (viewport (setView stateReview
               (subtleTextStyle "Modification cancelled.")
               (with_editor ed (press_all m ks)))) x)) with (currentViewContent x);
      [reflexivity|].
    destruct x. reflexivity.
Qed.

(** X12. The save key on a buffer that is empty or white space only
    keeps the operator in the editor with the inline error [Payload
    cannot be empty.]; on a text that the decoder refuses, with the
    inline error [Invalid JSON: ] followed by the decoder's error. In
    both cases the text area keeps what it holds, the pending edit and
    the session are untouched, and the only command is the one of the
    text area. *)
Theorem save_key_errors (m : appModel) (k : KeyMsg) :
  Type_ k = KeyCtrlS ->
  (submitted_text m k = "" ->
     fst (handlePayloadKey m k)
     = with_editorErr "Payload cannot be empty."
         (with_editor (fst (textarea_Update (editor m) k)) m))
  /\ (forall e, submitted_text m k <> "" -> JSON.Unmarshal (submitted_text m k) = inl e ->
        fst (handlePayloadKey m k)
        = with_editorErr ("Invalid JSON: " +:+ Unmarshal_Error (submitted_text m k) e)
            (with_editor (fst (textarea_Update (editor m) k)) m))
  /\ snd (handlePayloadKey m k) = Widget <$> snd (textarea_Update (editor m) k).
Proof.
  intros Hk. rewrite (handlePayloadKey_save m k Hk). cbv zeta. split_and!.
  - intros ->. reflexivity.
  - intros e Hne He. apply String.eqb_neq in Hne. rewrite Hne, He. reflexivity.
  - destruct (String.eqb _ _); [reflexivity|]. destruct (JSON.Unmarshal _); reflexivity.
Qed.

(** X13. The confirm key on the preview issues exactly one gateway call,
    the submission of the current email, goes to the loading screen with
    the status [Submitting email to the agents...] and keeps the
    session; and when that call then succeeds with a result, the email
    installed with the result is the one that was previewed. *)
Theorem preview_confirm_submits_the_current_email (m : appModel) (r : NewEmailResponse) :
  view m = statePreviewEmail ->
  gateway_calls (snd (handleKeyMsg m confirm_key)) = [loadSampleEmailCmd (email m)]
  /\ view (fst (handleKeyMsg m confirm_key)) = stateLoading
  /\ status (fst (handleKeyMsg m confirm_key)) = "Submitting email to the agents..."
  /\ same_session m (fst (handleKeyMsg m confirm_key))
  /\ (slice_ok r = true ->
      exists msg,
        delivers (loadSampleEmailCmd (email m)) (EmailProcessed r) = Some msg
        /\ email (fst (Update (fst (handleKeyMsg m confirm_key)) msg)) = email m
        /\ response (fst (Update (fst (handleKeyMsg m confirm_key)) msg)) = Some r).
Proof.
  intros Hv.
  assert (Hk : handleKeyMsg m confirm_key = beginEmailSubmission m).
  { unfold handleKeyMsg, handleViewKey, viewUsesViewport. rewrite Hv. reflexivity. }
  rewrite Hk. unfold beginEmailSubmission, same_session. cbn [fst snd].
  rewrite batch_calls by reflexivity. autorewrite with fields.
  split_and!; try reflexivity.
  intros Hok. cbn [delivers]. rewrite Hok. cbn [PostNewEmail].
  eexists. split; [reflexivity|].
  cbn [Update]. destruct (hasActions _); cbn [fst]; autorewrite with fields;
    split; reflexivity.
Qed.

End Keys.



(** ** The viewport and the calls in flight, in every reachable world *)

Section Fresh.

Context {T : Toolkit}.

Lemma content_with_viewport vp (m : appModel) :
  currentViewContent (with_viewport vp m) = currentViewContent m.
Proof. destruct m. reflexivity. Qed.

Lemma fresh_setView v st (m : appModel) : shows_current_content (setView v st m).
Proof.
  intros Hu.
  assert (Hu' : viewUsesViewport (with_status st (with_view v m)) = true).
  { unfold viewUsesViewport in *. rewrite setView_view in Hu. exact Hu. }
  rewrite (setView_lines v st m Hu'). rewrite (setView_eq v st m) at 1.
  rewrite content_with_viewport. reflexivity.
Qed.

Lemma fresh_off_screen (m : appModel) : viewUsesViewport m = false -> shows_current_content m.
Proof. intros H Hu. congruence. Qed.

Lemma fresh_same (m m' : appModel) :
  view m' = view m -> currentViewContent m' = currentViewContent m ->
  lines (viewport m') = lines (viewport m) ->
  shows_current_content m -> shows_current_content m'.
Proof.
  intros Hv Hc Hl H Hu. rewrite Hc, Hl. apply H.
  unfold viewUsesViewport in *. rewrite <- Hv. exact Hu.
Qed.

Lemma fresh_resize (m : appModel) w h :
  shows_current_content m -> shows_current_content (handleWindowSize m w h).
Proof.
  intros H. rewrite handleWindowSize_eq. destruct ((w <=? 0) || (h <=? 0)); [exact H|].
  intros Hu.
  assert (Hu' : viewUsesViewport m = true) by exact Hu.
  rewrite currentViewContent_frame. cbn [viewport with_viewport].
  unfold resized_viewport. rewrite Hu'. rewrite GotoTop_lines. apply SetContent_lines.
Qed.

Lemma fresh_prepareEmail index (m : appModel) :
  shows_current_content m -> shows_current_content (fst (prepareEmail index m)).
Proof.
  intros H. unfold prepareEmail. destruct ((index <? 0) || _); [exact H|].
  destruct (emails m !! Z.to_nat index); [apply fresh_setView|exact H].
Qed.

Lemma fresh_view_key (m : appModel) k :
  shows_current_content m -> shows_current_content (fst (handleViewKey m k)).
Proof.
  intros H. unfold handleViewKey. destruct (view m) eqn:Hv; try exact H.
  - unfold handlePreviewKey. destruct (Type_ k); try exact H.
    + destruct (String.eqb _ _); exact H.
    + apply fresh_setView.
  - destruct (Type_ k); try exact H. apply fresh_setView.
  - unfold handleReviewKey. destruct (currentActionRef m) as [a|] eqn:Ha; [|exact H].
    destruct (Type_ k); try exact H.
    destruct (String.eqb _ "a"); [apply fresh_setView|].
    destruct (String.eqb _ "r"); [apply fresh_setView|].
    destruct (String.eqb _ "m"); [|destruct (String.eqb _ "q"); exact H].
    unfold enterPayloadEditor. rewrite Ha.
    destruct (toPrettyJSON (Payload a)); [apply fresh_setView|].
    apply fresh_off_screen. reflexivity.
  - unfold handlePayloadKey. destruct (textarea_Update (editor m) k) as [ed c].
    destruct (Type_ k);
      try (apply fresh_off_screen; unfold viewUsesViewport; cbn; rewrite Hv; reflexivity);
      try apply fresh_setView.
    destruct (String.eqb _ _); [|destruct (JSON.Unmarshal _)];
      try (apply fresh_off_screen; unfold viewUsesViewport; cbn; rewrite Hv; reflexivity);
      apply fresh_setView.
  - unfold handlePromptKey. destruct (Type_ k); try exact H; try apply fresh_setView.
    destruct (String.eqb _ "y"); [apply fresh_setView|].
    destruct (String.eqb _ "n"); [apply fresh_setView|exact H].
  - destruct (Type_ k); try exact H.
    + destruct (String.eqb _ _); exact H.
    + destruct (hasMoreEmails m); [|exact H]. unfold prepareNextEmail.
      destruct (len (emails m) <=? _); [exact H|]. apply fresh_prepareEmail. exact H.
  - destruct (Type_ k); exact H.
Qed.

Lemma fresh_key (m : appModel) k :
  shows_current_content m -> shows_current_content (fst (handleKeyMsg m k)).
Proof.
  intros H. pose proof (fresh_view_key m k H) as Hview. unfold handleKeyMsg.
  destruct (Type_ k) eqn:Hk; try exact H;
    (destruct (viewUsesViewport m); [|exact Hview]);
    (destruct (handleViewportScroll m k) as [m'|] eqn:Hs; [|exact Hview]);
    pose proof (scrolled_viewport_keeps m m' k Hs) as (Heq & Hl & _); cbn [fst];
    (apply (fresh_same m m'); [rewrite Heq; reflexivity
                              | rewrite Heq; apply content_with_viewport
                              | exact Hl | exact H]).
Qed.

(** If the viewport holds the lines of the content of the current
    screen, it still does after any message: every change of the session
    or of the screen is followed by a refresh, a resize renders the
    content again, and the scrolling keys and the messages of the
    widgets leave both the content and the lines alone. *)
Lemma fresh_update (m : appModel) (msg : Msg) :
  shows_current_content m -> shows_current_content (fst (Update m msg)).
Proof.
  intros H. destruct msg as [w h|k|e resp er|i a er|o]; cbn [Update].
  - cbn [fst]. apply fresh_resize. exact H.
  - apply fresh_key. exact H.
  - destruct er; [apply fresh_setView|].
    destruct (hasActions _); apply fresh_setView.
  - destruct er; [apply fresh_setView|].
    destruct (actionAt _ (GoInt.add i 1)); apply fresh_setView.
  - destruct (spinner_Update (spinner m) o) as [sp c]. cbn [fst].
    revert H. apply fresh_same; reflexivity.
Qed.

Lemma fresh_fire (w w' : world) ev :
  shows_current_content (model w) -> fire w ev = Some w' -> shows_current_content (model w').
Proof.
  intros H Hf. destruct ev as [k|wd ht|o|n o]; unfold fire in Hf.
  - injection Hf as <-. rewrite model_after_deliver. apply fresh_update, H.
  - injection Hf as <-. rewrite model_after_deliver. apply fresh_update, H.
  - injection Hf as <-. rewrite model_after_deliver. apply fresh_update, H.
  - destruct (inflight w !! n); [|discriminate]. destruct (delivers _ o); [|discriminate].
    injection Hf as <-. rewrite model_after_deliver.
    apply fresh_update, H.
Qed.

Lemma fresh_run (es : list event) (w w' : world) :
  shows_current_content (model w) -> run w es = Some w' -> shows_current_content (model w').
Proof.
  revert w. induction es as [|e es IH]; intros w H Hr; cbn in Hr.
  - injection Hr as <-. exact H.
  - destruct (fire w e) as [w1|] eqn:Hf; [|discriminate].
    exact (IH w1 (fresh_fire w w1 e H Hf) Hr).
Qed.

(** X14. The viewport never shows stale content: in every world that
    the program reaches, on every screen that shows the viewport, the
    viewport holds exactly the lines of the content of that screen as
    rendered from the current session. *)
Theorem reachable_viewport_is_current (w : world) :
  reachable w -> shows_current_content (model w).
Proof.
  intros (client & now & es & Hr). refine (fresh_run es _ w _ Hr).
  unfold start.
  assert (Hi : Init now (newAppModel client)
               = prepareEmail 0 (with_emails buildSampleEmails (newAppModel client)))
    by reflexivity.
  rewrite Hi. destruct (prepareEmail 0 _) as [m c] eqn:E. cbn [model].
  change m with (fst (m, c)). rewrite <- E. apply fresh_prepareEmail.
  apply fresh_off_screen. reflexivity.
Qed.

(** X15. In every world that the program reaches at most one gateway
    call is in flight: none off the two waiting screens; on the loading
    screen only a submission; on the screen of a submitted action only
    an approve, reject or modify command, and for the current action
    index. *)
Theorem one_gateway_call_at_a_time (w : world) :
  reachable w ->
  match calls_in_flight w with
  | [] => True
  | [c] =>
      match c with
      | loadSampleEmailCmd _ => view (model w) = stateLoading
      | approveActionCmd i _ | rejectActionCmd i _ | modifyActionCmd i _ _ _ =>
          view (model w) = stateSubmittingAction /\ i = currentAction (model w)
      | _ => False
      end
  | _ => False
  end
  /\ (view (model w) <> stateLoading -> view (model w) <> stateSubmittingAction ->
      calls_in_flight w = []).
Proof.
  intros Hr. pose proof (reachable_consistent w Hr) as Hs. unfold consistent in Hs. split.
  - destruct Hs as (_ & _ & _ & _ & _ & Hc). unfold call_fits in Hc.
    destruct (calls_in_flight w) as [|c [|c' l]]; [exact I| |].
    + destruct c; try contradiction; exact Hc.
    + destruct c; contradiction.
  - intros H1 H2. exact (sound_no_call _ _ Hs H1 H2).
Qed.

End Fresh.



(** ** The email and the calls, in every reachable world *)

Section InStep.

Context {T : Toolkit}.

Lemma prepareEmail_emails index (m : appModel) :
  emails (fst (prepareEmail index m)) = emails m
  /\ (emails m !! Z.to_nat (currentEmail m) = Some (email m) ->
      emails m !! Z.to_nat (currentEmail (fst (prepareEmail index m)))
      = Some (email (fst (prepareEmail index m))))
  /\ snd (prepareEmail index m) = None.
Proof.
  unfold prepareEmail. destruct ((index <? 0) || _); [split_and!; auto|].
  destruct (emails m !! Z.to_nat index) as [e|] eqn:El; [|split_and!; auto].
  cbn [fst snd]. autorewrite with fields. cbn. split_and!; auto.
Qed.

Lemma currentActionID_setView v st (m : appModel) :
  currentActionID (setView v st m) = currentActionID m.
Proof. apply currentActionID_frame; autorewrite with fields; reflexivity. Qed.

(** What a key does to the emails, and what its gateway calls carry. *)
Lemma key_in_step (m : appModel) k :
  emails m !! Z.to_nat (currentEmail m) = Some (email m) ->
  emails (fst (handleKeyMsg m k)) = emails m
  /\ emails m !! Z.to_nat (currentEmail (fst (handleKeyMsg m k)))
     = Some (email (fst (handleKeyMsg m k)))
  /\ Forall (call_is_current (fst (handleKeyMsg m k))) (gateway_calls (snd (handleKeyMsg m k))).
Proof.
  intros He.
  assert (Hstay : emails m = emails m
                  /\ emails m !! Z.to_nat (currentEmail m) = Some (email m)
                  /\ Forall (call_is_current m) (@nil Cmd)).
  { split_and!; [reflexivity | exact He | constructor]. }
  assert (Hbegin : forall message call,
             is_gateway call = true ->
             call_is_current m call ->
             emails (fst (beginActionUpdate message call m)) = emails m
             /\ emails m !! Z.to_nat (currentEmail (fst (beginActionUpdate message call m)))
                = Some (email (fst (beginActionUpdate message call m)))
             /\ Forall (call_is_current (fst (beginActionUpdate message call m)))
                  (gateway_calls (snd (beginActionUpdate message call m)))).
  { intros message call Hg Hc. unfold beginActionUpdate. cbn [fst snd].
    rewrite (batch_calls call Hg). autorewrite with fields.
    split_and!; [reflexivity | exact He |]. constructor; [|constructor].
    destruct call; try discriminate; cbn in *;
      rewrite ?currentActionID_setView; autorewrite with fields; exact Hc. }
  assert (Hview : emails (fst (handleViewKey m k)) = emails m
            /\ emails m !! Z.to_nat (currentEmail (fst (handleViewKey m k)))
               = Some (email (fst (handleViewKey m k)))
            /\ Forall (call_is_current (fst (handleViewKey m k)))
                 (gateway_calls (snd (handleViewKey m k)))).
  { unfold handleViewKey. destruct (view m) eqn:Hv; try exact Hstay.
    - unfold handlePreviewKey. destruct (Type_ k); try exact Hstay.
      + destruct (String.eqb _ _); exact Hstay.
      + unfold beginEmailSubmission. cbn [fst snd]. rewrite batch_calls by reflexivity.
        autorewrite with fields. split_and!; [reflexivity | exact He |].
        constructor; [reflexivity|constructor].
    - destruct (Type_ k); try exact Hstay. cbn [fst snd]. autorewrite with fields.
      split_and!; [reflexivity | exact He | constructor].
    - unfold handleReviewKey. destruct (currentActionRef m) as [a|] eqn:Ha; [|exact Hstay].
      assert (Hid : currentActionID m = ActionID a)
        by (unfold currentActionID; rewrite Ha; reflexivity).
      destruct (Type_ k); try exact Hstay.
      destruct (String.eqb _ "a"); [apply Hbegin; [reflexivity|symmetry; exact Hid]|].
      destruct (String.eqb _ "r"); [apply Hbegin; [reflexivity|symmetry; exact Hid]|].
      destruct (String.eqb _ "m"); [|destruct (String.eqb _ "q"); exact Hstay].
      unfold enterPayloadEditor. rewrite Ha.
      destruct (toPrettyJSON (Payload a)); unfold fail; cbn [fst snd];
        autorewrite with fields; split_and!; try reflexivity; try exact He; constructor.
    - unfold handlePayloadKey. destruct (textarea_Update (editor m) k) as [ed c].
      destruct (Type_ k);
        try (cbn [fst snd]; rewrite widget_is_no_call; autorewrite with fields;
             split_and!; [reflexivity | exact He | constructor]).
      destruct (String.eqb _ _); [|destruct (JSON.Unmarshal _)];
        cbn [fst snd]; rewrite widget_is_no_call; autorewrite with fields;
        split_and!; try reflexivity; try exact He; constructor.
    - unfold handlePromptKey.
      assert (Hsub : forall apply,
               emails (fst (submitModifiedAction apply m)) = emails m
               /\ emails m !! Z.to_nat (currentEmail (fst (submitModifiedAction apply m)))
                  = Some (email (fst (submitModifiedAction apply m)))
               /\ Forall (call_is_current (fst (submitModifiedAction apply m)))
                    (gateway_calls (snd (submitModifiedAction apply m)))).
      { intros apply. unfold submitModifiedAction. apply Hbegin; [reflexivity|].
        cbn. split; reflexivity. }
      destruct (Type_ k); try exact Hstay; try apply Hsub.
      destruct (String.eqb _ "y"); [apply Hsub|].
      destruct (String.eqb _ "n"); [apply Hsub|exact Hstay].
    - destruct (Type_ k); try exact Hstay.
      + destruct (String.eqb _ _); exact Hstay.
      + destruct (hasMoreEmails m); [|exact Hstay]. unfold prepareNextEmail.
        destruct (len (emails m) <=? _); [exact Hstay|].
        destruct (prepareEmail_emails (GoInt.add (currentEmail m) 1) m) as (H1 & H2 & H3).
        rewrite H3. split_and!; [exact H1 | exact (H2 He) | constructor].
    - destruct (Type_ k); exact Hstay. }
  unfold handleKeyMsg.
  destruct (Type_ k) eqn:Hk; try exact Hview; try exact Hstay;
    (destruct (viewUsesViewport m); [|exact Hview]);
    (destruct (handleViewportScroll m k) as [m'|] eqn:Hs; [|exact Hview]);
    pose proof (scrolled_viewport_keeps m m' k Hs) as (Heq & _); cbn [fst snd];
    rewrite Heq; (split_and!; [reflexivity | exact He | constructor]).
Qed.

Lemma waiting_key_keeps (m : appModel) k :
  view m = stateLoading \/ view m = stateSubmittingAction -> fst (handleKeyMsg m k) = m.
Proof.
  intros Hv. unfold handleKeyMsg, handleViewKey, viewUsesViewport.
  destruct Hv as [-> | ->]; destruct (Type_ k); reflexivity.
Qed.

Lemma frame_in_step (m m' : appModel) calls :
  email m' = email m -> response m' = response m -> currentAction m' = currentAction m ->
  pending m' = pending m ->
  Forall (call_is_current m) calls -> Forall (call_is_current m') calls.
Proof.
  intros He Hr Hc Hp Hall. eapply Forall_impl; [exact Hall|]. intros c H.
  pose proof (currentActionID_frame m m' Hr Hc) as Hid.
  destruct c; cbn in *; rewrite ?He, ?Hid, ?Hp; exact H.
Qed.

Lemma viewState_waiting (v : viewState) :
  (v = stateLoading \/ v = stateSubmittingAction)
  \/ (v <> stateLoading /\ v <> stateSubmittingAction).
Proof. destruct v; try (left; auto; fail); right; split; discriminate. Qed.

Lemma completion_in_step (m : appModel) c o msg :
  is_gateway c = true -> call_is_current m c ->
  emails m !! Z.to_nat (currentEmail m) = Some (email m) ->
  delivers c o = Some msg ->
  emails (fst (Update m msg)) = emails m
  /\ emails m !! Z.to_nat (currentEmail (fst (Update m msg))) = Some (email (fst (Update m msg)))
  /\ gateway_calls (snd (Update m msg)) = [].
Proof.
  intros Hg Hcc He Hd.
  assert (Hfail : forall t,
            emails (fst (fail t m)) = emails m
            /\ emails m !! Z.to_nat (currentEmail (fst (fail t m))) = Some (email (fst (fail t m)))
            /\ gateway_calls (snd (fail t m)) = []).
  { intros t. unfold fail. cbn [fst snd]. autorewrite with fields.
    split_and!; [reflexivity | exact He | reflexivity]. }
  assert (Hact : forall i a,
            emails (fst (Update m (actionUpdatedMsg i a None))) = emails m
            /\ emails m !! Z.to_nat (currentEmail (fst (Update m (actionUpdatedMsg i a None))))
               = Some (email (fst (Update m (actionUpdatedMsg i a None))))
            /\ gateway_calls (snd (Update m (actionUpdatedMsg i a None))) = []).
  { intros i a. cbn [Update].
    set (m1 := match actionAt m i with Some _ => store_action i a m | None => m end).
    assert (Hm1 : emails m1 = emails m /\ currentEmail m1 = currentEmail m
                  /\ email m1 = email m).
    { unfold m1. destruct (actionAt m i); [|split_and!; reflexivity].
      rewrite store_action_eq. split_and!; reflexivity. }
    destruct Hm1 as (E1 & E2 & E3).
    destruct (actionAt m1 (GoInt.add i 1)); cbn [fst snd]; autorewrite with fields;
      cbn [emails currentEmail email with_currentAction]; rewrite E1, E2, E3;
      (split_and!; [reflexivity | exact He | reflexivity]). }
  destruct c as [| |wc|e|i id|i id|i id p ap|cs]; try discriminate;
    destruct o as [t|r|a|ow]; cbn in Hd; try discriminate;
    try (destruct (slice_ok r); [|discriminate]);
    injection Hd as <-; try apply Hfail; try apply Hact.
  cbn in Hcc. subst e. cbn [Update].
  destruct (hasActions _); cbn [fst snd]; autorewrite with fields;
    (split_and!; [reflexivity | exact He | reflexivity]).
Qed.

Lemma fire_in_step (w w' : world) ev :
  consistent w -> in_step w -> fire w ev = Some w' -> in_step w'.
Proof.
  intros Hs (Hems & He & Hc) Hf. unfold in_step.
  destruct ev as [k|wd ht|o|n o]; unfold fire in Hf.
  - injection Hf as <-. rewrite calls_after_deliver, model_after_deliver.
    change (Update (model w) (Key k)) with (handleKeyMsg (model w) k).
    destruct (key_in_step (model w) k He) as (H1 & H2 & H3).
    rewrite H1. split_and!; [exact Hems | exact H2 |].
    apply Forall_app. split; [exact H3|]. fold (calls_in_flight w).
    destruct (calls_in_flight w) as [|c l] eqn:Ec; [constructor|].
    assert (Hw : view (model w) = stateLoading \/ view (model w) = stateSubmittingAction).
    { destruct (viewState_waiting (view (model w))) as [H|H]; [exact H|].
      pose proof (sound_no_call _ _ Hs (proj1 H) (proj2 H)) as Hn. congruence. }
    rewrite (waiting_key_keeps _ k Hw). exact Hc.
  - injection Hf as <-. rewrite calls_after_deliver, model_after_deliver.
    cbn [Update fst snd]. rewrite handleWindowSize_eq.
    destruct ((wd <=? 0) || (ht <=? 0)); cbn [gateway_calls issued filter app];
      (split_and!; [exact Hems | exact He |]);
      [exact Hc | revert Hc; apply frame_in_step; reflexivity].
  - injection Hf as <-. rewrite calls_after_deliver, model_after_deliver.
    cbn [Update]. destruct (spinner_Update (spinner (model w)) o) as [sp c]. cbn [fst snd].
    rewrite widget_is_no_call. split_and!; [exact Hems | exact He |].
    revert Hc. apply frame_in_step; reflexivity.
  - destruct (inflight w !! n) as [c|] eqn:Hn; [|discriminate].
    destruct (delivers c o) as [msg|] eqn:Hd; [|discriminate].
    injection Hf as <-. rewrite calls_after_deliver, model_after_deliver.
    destruct (filter_delete_split _ _ _ Hn) as [Hall Hrest]. rewrite Hrest.
    destruct (is_gateway c) eqn:Hg.
    + pose proof (call_in_flight_alone w n c Hs Hn Hg) as Hone.
      assert (Hcc : call_is_current (model w) c).
      { rewrite Hone in Hc. inversion Hc. assumption. }
      assert (Hnone : filter is_gateway (take n (inflight w))
                      ++ filter is_gateway (drop (S n) (inflight w)) = []).
      { unfold calls_in_flight in Hone. rewrite Hall in Hone.
        assert (Hcg : filter is_gateway [c] = [c]) by (cbn; rewrite Hg; reflexivity).
        rewrite Hcg in Hone.
        destruct (filter is_gateway (take n (inflight w))) as [|x l1];
          [|destruct l1; discriminate].
        cbn in Hone. injection Hone as ->. reflexivity. }
      rewrite Hnone, app_nil_r.
      destruct (completion_in_step (model w) c o msg Hg Hcc He Hd) as (H1 & H2 & H3).
      rewrite H1, H3. split_and!; [exact Hems | exact H2 | constructor].
    + assert (Hcg : filter is_gateway [c] = []) by (cbn; rewrite Hg; reflexivity).
      rewrite Hcg in Hall. cbn [app] in Hall. rewrite <- Hall.
      destruct c; try discriminate; destruct o; cbn in Hd; try discriminate;
        injection Hd as <-; cbn [Update];
        destruct (spinner_Update (spinner (model w)) o) as [sp c']; cbn [fst snd];
        rewrite widget_is_no_call; (split_and!; [exact Hems | exact He |]);
        revert Hc; apply frame_in_step; reflexivity.
Qed.

Lemma run_in_step (es : list event) (w w' : world) :
  consistent w -> in_step w -> run w es = Some w' -> in_step w'.
Proof.
  revert w. induction es as [|e es IH]; intros w Hs Hi Hr; cbn in Hr.
  - injection Hr as <-. exact Hi.
  - destruct (fire w e) as [w1|] eqn:Hf; [|discriminate].
    exact (IH w1 (fire_consistent w w1 e Hs Hf) (fire_in_step w w1 e Hs Hi Hf) Hr).
Qed.

Lemma start_in_step client now : in_step (start client now).
Proof.
  unfold in_step, start.
  assert (Hi : Init now (newAppModel client)
               = prepareEmail 0 (with_emails buildSampleEmails (newAppModel client)))
    by reflexivity.
  rewrite Hi. clear Hi.
  set (m0 := with_emails buildSampleEmails (newAppModel client)).
  assert (E : prepareEmail 0 m0
              = (setView statePreviewEmail previewInstruction
                   (with_err None (with_editorErr "" (with_currentAction 0
                   (with_pending None (with_response None
                   (with_email (default (email m0) (emails m0 !! 0%nat))
                   (with_currentEmail 0 m0))))))), None)) by reflexivity.
  rewrite E. unfold calls_in_flight. cbn [model inflight issued filter].
  autorewrite with fields. split_and!; [reflexivity | reflexivity | constructor].
Qed.

(** X16. In every world that the program reaches the email of the
    session is the sample at the current index of the list built at the
    start, and a gateway call in flight is about the session as it is
    now: a submission carries the current email, an approve or a reject
    the ID of the current action, a modify that ID and the pending
    edit. *)
Theorem reachable_in_step (w : world) : reachable w -> in_step w.
Proof.
  intros (client & now & es & Hr).
  exact (run_in_step es _ w (start_consistent client now) (start_in_step client now) Hr).
Qed.

End InStep.


(** ** The gateway client and the renderers of text *)

Section Text.

Lemma chars_app (a b : string) : chars (a +:+ b) = chars a ++ chars b.
Proof.
  unfold chars. induction a as [|c a IH]; [reflexivity|].
  change (String c a +:+ b) with (String c (a +:+ b)). cbn. f_equal. exact IH.
Qed.

Lemma chars_text (l : list ascii) : chars (text l) = l.
Proof. apply list_ascii_of_string_of_list_ascii. Qed.

Lemma text_chars (s : string) : text (chars s) = s.
Proof. apply string_of_list_ascii_of_string. Qed.

Lemma append_empty (s : string) : s +:+ "" = s.
Proof.
  induction s as [|c s IH]; [reflexivity|].
  change (String c s +:+ "") with (String c (s +:+ "")). f_equal. exact IH.
Qed.

Lemma byte_slash (c : ascii) : byte c = 47 -> c = "/"%char.
Proof.
  unfold byte. intros H. rewrite <- (ascii_N_embedding c).
  replace (N_of_ascii c) with 47%N by lia. reflexivity.
Qed.

Lemma drop_slashes_spec (r : list ascii) :
  exists k, r = repeat "/"%char k ++ drop_slashes r.
Proof.
  induction r as [|c r [k IH]]; [exists 0%nat; reflexivity|]. cbn [drop_slashes].
  destruct (byte c =? 47) eqn:E.
  - apply Z.eqb_eq, byte_slash in E. subst c. exists (S k). cbn. f_equal. exact IH.
  - exists 0%nat. reflexivity.
Qed.

Lemma drop_slashes_head (r : list ascii) : head (drop_slashes r) <> Some "/"%char.
Proof.
  induction r as [|c r IH]; [discriminate|]. cbn [drop_slashes].
  destruct (byte c =? 47) eqn:E; [exact IH|]. cbn. intros [= ->]. discriminate.
Qed.

Lemma drop_slashes_done (r : list ascii) : head r <> Some "/"%char -> drop_slashes r = r.
Proof.
  destruct r as [|c r]; [reflexivity|]. cbn. intros H.
  destruct (byte c =? 47) eqn:E; [|reflexivity].
  apply Z.eqb_eq, byte_slash in E. subst c. contradiction.
Qed.

Lemma repeat_rev {A : Type} (x : A) k : rev (repeat x k) = repeat x k.
Proof.
  induction k as [|k IH]; [reflexivity|]. cbn [repeat rev]. rewrite IH.
  clear IH. induction k as [|k IH]; [reflexivity|]. cbn. f_equal. exact IH.
Qed.

(** X17. The base address of a new client is the address given without
    the slashes at its end: the address given is the base address
    followed by slashes only, the base address does not end in a slash,
    and a base address given again is kept as it is. *)
Theorem base_url_has_no_slash_at_the_end (url : string) :
  (exists k, chars url = chars (baseURL (NewAPIClient url)) ++ repeat "/"%char k)
  /\ last (chars (baseURL (NewAPIClient url))) <> Some "/"%char
  /\ NewAPIClient (baseURL (NewAPIClient url)) = NewAPIClient url.
Proof.
  cbn [NewAPIClient baseURL]. unfold TrimRightSlash. rewrite chars_text.
  split_and!.
  - destruct (drop_slashes_spec (rev (chars url))) as [k Hk]. exists k.
    rewrite <- (rev_involutive (chars url)) at 1. rewrite Hk at 1.
    rewrite rev_app_distr, repeat_rev. reflexivity.
  - rewrite (rev_alt (drop_slashes _)).
    change (rev_append (drop_slashes (rev (chars url))) [])
      with (reverse (drop_slashes (rev (chars url)))).
    rewrite last_reverse. apply drop_slashes_head.
  - unfold NewAPIClient, TrimRightSlash. f_equal. f_equal. f_equal.
    rewrite chars_text, rev_involutive.
    apply drop_slashes_done, drop_slashes_head.
Qed.

(** X18. A request that does not come back with a status from 200 to
    299 ends the session on the error screen, whatever the model and
    whatever the decoders of the responses would make of the body, which
    they are not asked: the request could not be encoded, created or
    sent, or the status is outside that range, and then the error is
    the path that the command posts to (/new_email for a submission,
    /action/approve, /action/reject and /action/modify for the three
    action commands), the status and the body without the white space
    around it. *)
Theorem exchange_without_success_ends_on_Error {T : Toolkit}
    (decodeEmail : string -> string + NewEmailResponse)
    (decodeAction : string -> string + Action) (m : appModel) (c : Cmd) (x : exchange)
    (msg : Msg) :
  (forall code raw, x = Responds code raw -> code < 200 \/ 300 <= code) ->
  run_call decodeEmail decodeAction c x = Some msg ->
  (exists e, Update m msg = fail e m)
  /\ (forall decodeEmail' decodeAction', run_call decodeEmail' decodeAction' c x = Some msg)
  /\ (forall code raw, x = Responds code raw ->
      exists path,
        match c with
        | loadSampleEmailCmd _ => path = "/new_email"
        | approveActionCmd _ _ => path = "/action/approve"
        | rejectActionCmd _ _ => path = "/action/reject"
        | modifyActionCmd _ _ _ _ => path = "/action/modify"
        | _ => False
        end
        /\ Update m msg
           = fail ("post " +:+ path +:+ ": status " +:+ itoa code +:+ ": " +:+ TrimSpace raw) m).
Proof.
  intros Hx Hr.
  destruct x as [e|e|e|code raw].
  1-3: destruct c; try discriminate; cbn in Hr; injection Hr as <-;
    (split_and!; [eexists; reflexivity | reflexivity | discriminate]).
  assert (Hc : (code <? 200) || (300 <=? code) = true).
  { destruct (Hx code raw eq_refl); apply orb_true_iff; [left|right]; lia. }
  destruct c; try discriminate; unfold run_call, post in *; rewrite Hc in *; cbn in Hr;
    injection Hr as <-;
    (split_and!; [eexists; reflexivity | reflexivity |]);
    intros code' raw' [= <- <-]; eexists; (split; reflexivity).
Qed.

(** X19. What the closure of a gateway call returns is one of the
    outcomes that the event loop delivers for it: for every exchange
    there is an outcome of the call that delivers the same message. A
    decoded response holds a slice, which has fewer than [2 ^ 63]
    elements. *)
Theorem every_exchange_is_an_outcome {T : Toolkit}
    (decodeEmail : string -> string + NewEmailResponse)
    (decodeAction : string -> string + Action) (c : Cmd) (x : exchange) :
  (forall raw r, decodeEmail raw = inr r -> slice_ok r = true) ->
  is_gateway c = true ->
  exists o msg, run_call decodeEmail decodeAction c x = Some msg /\ delivers c o = Some msg.
Proof.
  intros Hd Hg.
  destruct c as [| |wc|e|i id|i id|i id p ap|cs]; try discriminate.
  - destruct (post decodeEmail "/new_email" x) as [t|r] eqn:E.
    + exists (GatewayFailed t). eexists. unfold run_call. rewrite E. split; reflexivity.
    + exists (EmailProcessed r). eexists. unfold run_call. rewrite E. cbn.
      assert (Hs : slice_ok r = true).
      { destruct x as [t|t|t|code raw]; try discriminate. unfold post in E.
        destruct ((code <? 200) || (300 <=? code)); [discriminate|].
        destruct (decodeEmail raw) as [t|r'] eqn:E'; [discriminate|].
        injection E as <-. exact (Hd raw r' E'). }
      rewrite Hs. split; reflexivity.
  - destruct (post decodeAction "/action/approve" x) as [t|a] eqn:E.
    + exists (GatewayFailed t). eexists. unfold run_call. rewrite E. split; reflexivity.
    + exists (ActionReturned a). eexists. unfold run_call. rewrite E. split; reflexivity.
  - destruct (post decodeAction "/action/reject" x) as [t|a] eqn:E.
    + exists (GatewayFailed t). eexists. unfold run_call. rewrite E. split; reflexivity.
    + exists (ActionReturned a). eexists. unfold run_call. rewrite E. split; reflexivity.
  - destruct (post decodeAction "/action/modify" x) as [t|a] eqn:E.
    + exists (GatewayFailed t). eexists. unfold run_call. rewrite E. split; reflexivity.
    + exists (ActionReturned a). eexists. unfold run_call. rewrite E. split; reflexivity.
Qed.

(** X20. The order in which the keys of the probability map are
    enumerated does not show in the classification block: whatever
    enumeration of the keys the block is rendered from, the result is
    the same. *)
Theorem classification_ignores_the_order_of_the_keys
    (c : ClassificationPayload) (probs : gmap string float64) (keys : list string) :
  Probabilities c = Some probs ->
  keys ≡ₚ mapsKeys probs ->
  renderClassificationFrom keys c = renderClassification c.
Proof.
  intros Hp Hk. unfold renderClassificationFrom, renderClassification. rewrite Hp.
  destruct (len (map_to_list probs) =? 0); [reflexivity|].
  rewrite (sorted_keys_unique probs keys Hk). reflexivity.
Qed.

Lemma split_lines_run (p rest cur : list ascii) :
  Forall (fun c => byte c <> 10) p ->
  split_lines (p ++ rest) cur = split_lines rest (rev p ++ cur).
Proof.
  revert cur. induction p as [|c p IH]; intros cur Hp; [reflexivity|].
  inversion Hp as [|? ? Hc Hp']; subst. cbn [app split_lines].
  destruct (byte c =? 10) eqn:E; [apply Z.eqb_eq in E; contradiction|].
  rewrite (IH _ Hp'). cbn [rev]. rewrite <- app_assoc. reflexivity.
Qed.

Lemma split_lines_one_line (l cur : list ascii) :
  Forall (fun c => byte c <> 10) cur -> Forall one_line (split_lines l cur).
Proof.
  revert cur. induction l as [|c l IH]; intros cur Hc; cbn [split_lines].
  - constructor; [|constructor]. unfold one_line. rewrite chars_text.
    rewrite rev_alt. apply Forall_reverse. exact Hc.
  - destruct (byte c =? 10) eqn:E.
    + constructor; [|apply IH; constructor]. unfold one_line. rewrite chars_text.
      rewrite rev_alt. apply Forall_reverse. exact Hc.
    + apply IH. constructor; [|exact Hc]. apply Z.eqb_neq. exact E.
Qed.

Lemma split_lines_not_nil (l cur : list ascii) : split_lines l cur <> [].
Proof.
  revert cur. induction l as [|c l IH]; intros cur; cbn [split_lines]; [discriminate|].
  destruct (byte c =? 10); [discriminate | apply IH].
Qed.

Lemma split_join (l : string) (ls : list string) (cur : list ascii) :
  Forall one_line (l :: ls) ->
  split_lines (chars (Join (l :: ls) nl)) cur = text (rev cur ++ chars l) :: ls.
Proof.
  revert l cur. induction ls as [|l' ls IH]; intros l cur Hl.
  - cbn [Join]. inversion Hl as [|? ? H1 _]; subst.
    rewrite <- (app_nil_r (chars l)) at 1. rewrite (split_lines_run _ _ _ H1).
    cbn [split_lines]. rewrite rev_app_distr, rev_involutive. reflexivity.
  - inversion Hl as [|? ? H1 H2]; subst.
    change (Join (l :: l' :: ls) nl) with (l +:+ nl +:+ Join (l' :: ls) nl).
    rewrite !chars_app. rewrite (split_lines_run _ _ _ H1).
    change (chars nl) with ["010"%char]. cbn [app split_lines].
    change (byte "010" =? 10) with true. cbv iota.
    rewrite (IH l' [] H2). cbn [rev app]. rewrite text_chars.
    rewrite rev_app_distr, rev_involutive. reflexivity.
Qed.

(** X21. With an indent that holds no line feed, the lines of the
    indented text are the lines of the text, CRLF read as LF, each with
    the indent before it: as many lines as before, and an empty text or
    an empty line gives the indent alone. *)
Theorem indented_lines (txt indent : string) :
  one_line indent ->
  SplitLines (indentMultiline txt indent)
  = (fun line => indent +:+ line) <$> SplitLines (text (crlf_to_lf (chars txt))).
Proof.
  intros Hi.
  assert (Hone : forall l : string, SplitLines l = [l] <-> one_line l).
  { intros l. split.
    - intros H. pose proof (split_lines_one_line (chars l) [] (Forall_nil_2 _)) as Hf.
      fold (SplitLines l) in Hf. rewrite H in Hf. inversion Hf. assumption.
    - intros H. unfold SplitLines. rewrite <- (app_nil_r (chars l)).
      rewrite (split_lines_run _ _ _ H). cbn [split_lines].
      rewrite app_nil_r, rev_involutive, text_chars. reflexivity. }
  unfold indentMultiline. destruct (String.eqb txt "") eqn:E.
  - apply String.eqb_eq in E. subst txt. cbn. rewrite append_empty.
    apply Hone. exact Hi.
  - set (ls := SplitLines (text (crlf_to_lf (chars txt)))).
    assert (Hls : Forall one_line ls) by (apply split_lines_one_line; constructor).
    assert (Hm : (fun line => if String.eqb line "" then indent else indent +:+ line) <$> ls
                 = (fun line => indent +:+ line) <$> ls).
    { apply list_fmap_ext. intros _ l _. destruct (String.eqb l "") eqn:El; [|reflexivity].
      apply String.eqb_eq in El. subst l. symmetry. apply append_empty. }
    rewrite Hm. clear Hm.
    destruct ls as [|l ls'] eqn:Els.
    { exfalso. exact (split_lines_not_nil _ _ Els). }
    cbn [fmap list_fmap]. unfold SplitLines.
    change (split_lines (chars (Join ((indent +:+ l) :: ((fun line => indent +:+ line) <$> ls')) nl)) []
            = (indent +:+ l) :: ((fun line => indent +:+ line) <$> ls')).
    rewrite split_join.
    + cbn [rev app]. rewrite text_chars. reflexivity.
    + apply (Forall_fmap (fun line => indent +:+ line) one_line (l :: ls')).
      eapply Forall_impl; [exact Hls|]. intros s Hs. cbn. unfold one_line.
      rewrite chars_app. apply Forall_app. split; assumption.
Qed.

End Text.


(** ** A review from the first action to the last *)

Section Rounds.

Context {T : Toolkit}.

(** A key on the screens of a review keeps the result and the action
    index, and stays on these screens. *)
Lemma key_in_review (m : appModel) k :
  in_review (view m) = true -> review_kept m (fst (handleKeyMsg m k)).
Proof.
  intros Hr.
  assert (Hstay : review_kept m m) by (split_and!; [exact Hr | reflexivity | reflexivity]).
  assert (Hbegin : forall message call, review_kept m (fst (beginActionUpdate message call m))).
  { intros message call. unfold beginActionUpdate, review_kept. cbn [fst].
    autorewrite with fields. split_and!; reflexivity. }
  assert (Hview : review_kept m (fst (handleViewKey m k))).
  { unfold handleViewKey. destruct (view m) eqn:Hv; try discriminate Hr; try exact Hstay.
    - unfold handleReviewKey. destruct (currentActionRef m) as [a|] eqn:Ha; [|exact Hstay].
      destruct (Type_ k); try exact Hstay.
      destruct (String.eqb _ "a"); [apply Hbegin|].
      destruct (String.eqb _ "r"); [apply Hbegin|].
      destruct (String.eqb _ "m"); [|destruct (String.eqb _ "q"); exact Hstay].
      unfold enterPayloadEditor. rewrite Ha.
      destruct (toPrettyJSON (Payload a)); unfold fail, review_kept; cbn [fst];
        autorewrite with fields; split_and!; reflexivity.
    - unfold handlePayloadKey. destruct (textarea_Update (editor m) k) as [ed c].
      destruct (Type_ k);
        try (unfold review_kept; cbn [fst]; autorewrite with fields;
             cbn [view response currentAction with_editor]; rewrite ?Hv;
             split_and!; reflexivity).
      destruct (String.eqb _ _); [|destruct (JSON.Unmarshal _)];
        unfold review_kept; cbn [fst]; autorewrite with fields;
        cbn [view response currentAction with_editor with_editorErr with_pending];
        rewrite ?Hv; split_and!; reflexivity.
    - unfold handlePromptKey, submitModifiedAction.
      destruct (Type_ k); try exact Hstay; try apply Hbegin.
      destruct (String.eqb _ "y"); [apply Hbegin|].
      destruct (String.eqb _ "n"); [apply Hbegin|exact Hstay].
    - destruct (Type_ k); exact Hstay. }
  unfold handleKeyMsg.
  destruct (Type_ k) eqn:Hk; try exact Hview; try exact Hstay;
    (destruct (viewUsesViewport m); [|exact Hview]);
    (destruct (handleViewportScroll m k) as [m'|] eqn:Hs; [|exact Hview]);
    pose proof (scrolled_viewport_keeps m m' k Hs) as (Heq & _); cbn [fst];
    rewrite Heq; exact Hstay.
Qed.

(** The completion of a call for the current action, at a valid index:
    the record of the action is overwritten by the action returned;
    when there is a next action the index advances by one and the
    screen is the review screen, otherwise the index stays and the
    screen is the completion screen. *)
Lemma completion_step (m : appModel) (a : Action) :
  0 <= currentAction m < len (actions m) -> len (actions m) < 2 ^ 63 ->
  actions (fst (Update m (actionUpdatedMsg (currentAction m) a None)))
  = <[Z.to_nat (currentAction m) := a]> (actions m)
  /\ (if currentAction m + 1 <? len (actions m)
      then view (fst (Update m (actionUpdatedMsg (currentAction m) a None))) = stateReview
           /\ currentAction (fst (Update m (actionUpdatedMsg (currentAction m) a None)))
              = currentAction m + 1
      else view (fst (Update m (actionUpdatedMsg (currentAction m) a None))) = stateDone
           /\ currentAction (fst (Update m (actionUpdatedMsg (currentAction m) a None)))
              = currentAction m).
Proof.
  intros Hi Hsl.
  assert (Hadd : GoInt.add (currentAction m) 1 = currentAction m + 1).
  { apply add_in_range. unfold GoInt.in_range. lia. }
  cbn [Update].
  destruct (actionAt_valid m (currentAction m) Hi) as [o Ho]. rewrite Ho, Hadd.
  set (m2 := store_action (currentAction m) a m).
  assert (Ha2 : actions m2 = <[Z.to_nat (currentAction m) := a]> (actions m))
    by apply store_action_actions.
  destruct (currentAction m + 1 <? len (actions m)) eqn:E.
  - apply Z.ltb_lt in E.
    destruct (actionAt_valid m2 (currentAction m + 1)) as [nx Hnx].
    { rewrite Ha2, len_insert. lia. }
    rewrite Hnx. cbn [fst]. autorewrite with fields. cbn [currentAction with_currentAction].
    split; [|split; reflexivity].
    rewrite <- Ha2. reflexivity.
  - apply Z.ltb_ge in E.
    destruct (actionAt m2 (currentAction m + 1)) as [nx|] eqn:Hnx.
    { apply actionAt_Some in Hnx as [Hb _]. rewrite Ha2, len_insert in Hb. lia. }
    cbn [fst]. autorewrite with fields. split; [exact Ha2|]. split; [reflexivity|].
    unfold m2. apply store_action_currentAction.
Qed.

(** An event that is not the successful completion of an action call
    keeps the review as it is. *)
Lemma fire_quiet (w w' : world) e :
  consistent w -> in_review (view (model w)) = true ->
  fire w e = Some w' -> returned e = None ->
  review_kept (model w) (model w').
Proof.
  intros Hs Hr Hf Hret.
  assert (Hstay : review_kept (model w) (model w))
    by (split_and!; [exact Hr | reflexivity | reflexivity]).
  assert (Hother : forall o, review_kept (model w) (fst (Update (model w) (Other o)))).
  { intros o. cbn [Update]. destruct (spinner_Update (spinner (model w)) o) as [sp c].
    exact Hstay. }
  destruct e as [k|wd ht|o|n o]; unfold fire in Hf.
  - injection Hf as <-. rewrite model_after_deliver. apply key_in_review. exact Hr.
  - injection Hf as <-. rewrite model_after_deliver. cbn [Update fst].
    rewrite handleWindowSize_eq. destruct ((wd <=? 0) || (ht <=? 0)); exact Hstay.
  - injection Hf as <-. rewrite model_after_deliver. apply Hother.
  - destruct (inflight w !! n) as [c|] eqn:Hn; [|discriminate].
    destruct (delivers c o) as [msg|] eqn:Hd; [|discriminate].
    injection Hf as <-. rewrite model_after_deliver.
    destruct c as [| |wc|em|i id|i id|i id p ap|cs]; destruct o as [t|r|a|ow];
      cbn in Hd; try discriminate; try (injection Hd as <-; apply Hother);
      try (pose proof (call_in_flight_alone w n _ Hs Hn eq_refl) as Hc;
           unfold consistent in Hs; rewrite Hc in Hs;
           destruct Hs as (_ & _ & _ & _ & _ & Hfit); cbn in Hfit;
           rewrite Hfit in Hr; discriminate Hr);
      injection Hd as <-; cbn [Update]; unfold fail, review_kept; cbn [fst];
      autorewrite with fields; split_and!; reflexivity.
Qed.

(** The successful completion of an action call on the screens of a
    review is the completion of the call for the current action, whose
    index is valid. *)
Lemma fire_completion (w w' : world) n a :
  consistent w -> in_review (view (model w)) = true ->
  fire w (Completed n (ActionReturned a)) = Some w' ->
  model w' = fst (Update (model w) (actionUpdatedMsg (currentAction (model w)) a None))
  /\ 0 <= currentAction (model w) < len (actions (model w))
  /\ len (actions (model w)) < 2 ^ 63.
Proof.
  intros Hs Hr Hf. unfold fire in Hf.
  destruct (inflight w !! n) as [c|] eqn:Hn; [|discriminate].
  destruct (delivers c (ActionReturned a)) as [msg|] eqn:Hd; [|discriminate].
  injection Hf as <-. rewrite model_after_deliver.
  destruct c as [| |wc|em|i id|i id|i id p ap|cs]; cbn in Hd; try discriminate;
    injection Hd as <-;
    pose proof (call_in_flight_alone w n _ Hs Hn eq_refl) as Hc;
    unfold consistent in Hs; rewrite Hc in Hs;
    destruct Hs as (_ & Hsl & Hi & Hrev & _ & Hfit); cbn in Hfit;
    destruct Hfit as [Hv ->];
    (split; [reflexivity|]); (split; [|exact Hsl]);
    apply Hi, Hrev; rewrite Hv; reflexivity.
Qed.

Lemma completions_cons (e : event) (es : list event) :
  completions (e :: es)
  = ((match returned e with Some _ => 1 | None => 0 end) + completions es)%nat.
Proof. unfold completions. cbn [omap list_omap]. destruct (returned e); reflexivity. Qed.

Lemma in_review_not_Done (v : viewState) : in_review v = true -> v <> stateDone.
Proof. intros H ->. discriminate H. Qed.

Lemma entered_from_review (v v' : viewState) :
  in_review v = true ->
  match v, v' with
  | stateDone, _ => 0%nat
  | _, stateDone => 1%nat
  | _, _ => 0%nat
  end = match v' with stateDone => 1%nat | _ => 0%nat end.
Proof. intros H. destruct v; try discriminate H; destruct v'; reflexivity. Qed.

Lemma not_entered (v : viewState) :
  in_review v = true -> match v with stateDone => 1%nat | _ => 0%nat end = 0%nat.
Proof. intros H. destruct v; try discriminate H; reflexivity. Qed.

(** A run on the screens of a review, from the index [j], that goes at
    most as far as the completion for the last action. *)
Lemma review_run (es : list event) :
  forall (w : world) (j : nat) (ws : list world),
    consistent w -> in_review (view (model w)) = true ->
    currentAction (model w) = Z.of_nat j ->
    (j < length (actions (model w)))%nat ->
    run_trace w es = Some ws ->
    (forall i, (i < length es)%nat ->
               (j + completions (take i es) < length (actions (model w)))%nat) ->
    (forall i w0 w1 e,
        (w :: ws) !! i = Some w0 -> ws !! i = Some w1 -> es !! i = Some e ->
        match returned e with
        | Some a =>
            actions (model w1)
            = <[Z.to_nat (currentAction (model w0)) := a]> (actions (model w0))
            /\ (if currentAction (model w0) + 1 <? len (actions (model w))
                then view (model w1) = stateReview
                     /\ currentAction (model w1) = currentAction (model w0) + 1
                else view (model w1) = stateDone
                     /\ currentAction (model w1) = currentAction (model w0))
        | None =>
            actions (model w1) = actions (model w0)
            /\ currentAction (model w1) = currentAction (model w0)
            /\ view (model w1) <> stateDone
        end)
    /\ (forall i wi,
          ws !! i = Some wi ->
          currentAction (model wi)
          = Z.of_nat (Nat.min (j + completions (take (S i) es))
                        (length (actions (model w)) - 1))
          /\ (view (model wi) = stateDone
              <-> (j + completions (take (S i) es))%nat = length (actions (model w)))
          /\ length (actions (model wi)) = length (actions (model w)))
    /\ advances (Z.of_nat j) (model <$> ws)
       = Nat.min (completions es) (length (actions (model w)) - 1 - j)
    /\ entries_to_Done (view (model w)) (model <$> ws)
       = (if (j + completions es =? length (actions (model w)))%nat then 1 else 0)%nat.
Proof.
  induction es as [|e rest IH]; intros w j ws Hs Hr Hc Hj Ht Hpre.
  { cbn in Ht. injection Ht as <-. split_and!.
    - intros i w0 w1 e _ H. rewrite lookup_nil in H. discriminate.
    - intros i wi H. rewrite lookup_nil in H. discriminate.
    - reflexivity.
    - cbn. replace (j + 0 =? length (actions (model w)))%nat with false; [reflexivity|].
      symmetry. apply Nat.eqb_neq. lia. }
  cbn [run_trace] in Ht.
  destruct (fire w e) as [w1|] eqn:Hf; [|discriminate].
  destruct (run_trace w1 rest) as [ws1|] eqn:Ht1; [|discriminate].
  cbn in Ht. injection Ht as <-.
  pose proof (fire_consistent w w1 e Hs Hf) as Hs1.
  set (N := length (actions (model w))) in *.
  assert (HN : len (actions (model w)) = Z.of_nat N) by reflexivity.
  destruct (returned e) as [a|] eqn:Hret.
  - (* the completion of an action call *)
    destruct e as [k|wd ht|o|n o]; try discriminate Hret.
    destruct o as [t|r|a'|ow]; try discriminate Hret. injection Hret as ->.
    destruct (fire_completion w w1 n a Hs Hr Hf) as (Hm & Hi & Hsl).
    destruct (completion_step (model w) a Hi Hsl) as [Hacts Hnext].
    rewrite <- Hm in Hacts, Hnext.
    assert (Hlen1 : length (actions (model w1)) = N).
    { rewrite Hacts. apply length_insert. }
    assert (Hce : forall l, completions (Completed n (ActionReturned a) :: l)
                            = S (completions l)) by (intros l; apply completions_cons).
    destruct (currentAction (model w) + 1 <? len (actions (model w))) eqn:E.
    + (* a next action *)
      apply Z.ltb_lt in E. destruct Hnext as [Hv1 Hc1].
      assert (Hc1' : currentAction (model w1) = Z.of_nat (S j)) by lia.
      assert (Hj1 : (S j < length (actions (model w1)))%nat) by lia.
      assert (Hr1 : in_review (view (model w1)) = true) by (rewrite Hv1; reflexivity).
      assert (Hpre1 : forall i, (i < length rest)%nat ->
                (S j + completions (take i rest) < length (actions (model w1)))%nat).
      { intros i Hi'. specialize (Hpre (S i) ltac:(cbn; lia)).
        cbn [take] in Hpre. rewrite ?take_0 in Hpre. rewrite Hce in Hpre. lia. }
      destruct (IH w1 (S j) ws1 Hs1 Hr1 Hc1' Hj1 Ht1 Hpre1) as (Hloc & Hglob & Hadv & Hent).
      rewrite Hlen1 in Hglob, Hadv, Hent.
      split_and!.
      * intros [|i] w0 w1' e' H0 H1 He; cbn in H0, H1, He.
        -- injection H0 as <-. injection H1 as <-. injection He as <-. cbn [returned].
           split; [exact Hacts|].
           replace (currentAction (model w) + 1 <? len (actions (model w))) with true
             by (symmetry; apply Z.ltb_lt; exact E).
           split; [exact Hv1 | exact Hc1].
        -- specialize (Hloc i w0 w1' e' H0 H1 He).
           replace (len (actions (model w1))) with (len (actions (model w))) in Hloc
             by (unfold len; rewrite Hlen1; reflexivity).
           exact Hloc.
      * intros [|i] wi Hl; cbn in Hl.
        -- injection Hl as <-. cbn [take]. rewrite ?take_0, Hce.
           change (completions []) with 0%nat.
           split_and!; [rewrite Hc1'; f_equal; lia | | exact Hlen1].
           rewrite Hv1. split; [discriminate | lia].
        -- destruct (Hglob i wi Hl) as (G1 & G2 & G3). cbn [take]. rewrite ?take_0, Hce.
           replace (j + S (completions (take (S i) rest)))%nat
             with (S j + completions (take (S i) rest))%nat by lia.
           split_and!; assumption.
      * cbn [fmap list_fmap advances]. rewrite Hc1'.
        replace (Z.of_nat j =? Z.of_nat (S j)) with false by (symmetry; apply Z.eqb_neq; lia).
        rewrite Hadv, Hce. lia.
      * cbn [fmap list_fmap entries_to_Done]. rewrite (entered_from_review _ _ Hr).
        rewrite Hv1 in *. rewrite Hent, Hce.
        replace (j + S (completions rest))%nat with (S j + completions rest)%nat by lia.
        reflexivity.
    + (* the last action *)
      apply Z.ltb_ge in E. destruct Hnext as [Hv1 Hc1].
      assert (HjN : S j = N) by lia.
      assert (rest = []) as ->.
      { destruct rest as [|e2 rest2]; [reflexivity|]. exfalso.
        specialize (Hpre 1%nat ltac:(cbn; lia)). cbn [take] in Hpre. rewrite ?take_0 in Hpre.
        rewrite Hce in Hpre. change (completions []) with 0%nat in Hpre. lia. }
      cbn in Ht1. injection Ht1 as <-.
      split_and!.
      * intros [|i] w0 w1' e' H0 H1 He; cbn in H0, H1, He; [|discriminate].
        injection H0 as <-. injection H1 as <-. injection He as <-. cbn [returned].
        split; [exact Hacts|].
        replace (currentAction (model w) + 1 <? len (actions (model w))) with false
          by (symmetry; apply Z.ltb_ge; exact E).
        split; [exact Hv1 | exact Hc1].
      * intros [|i] wi Hl; cbn in Hl; [|discriminate]. injection Hl as <-.
        cbn [take]. rewrite ?take_0, Hce. change (completions []) with 0%nat.
        split_and!; [rewrite Hc1, Hc; f_equal; lia | | exact Hlen1].
        rewrite Hv1. split; [intros _; lia | reflexivity].
      * cbn [fmap list_fmap advances]. rewrite Hc1, Hc, Z.eqb_refl, Hce.
        change (completions []) with 0%nat. lia.
      * cbn [fmap list_fmap entries_to_Done]. rewrite (entered_from_review _ _ Hr), Hv1.
        rewrite Hce. change (completions []) with 0%nat.
        replace (j + 1 =? N)%nat with true by (symmetry; apply Nat.eqb_eq; lia).
        reflexivity.
  - (* any other event *)
    destruct (fire_quiet w w1 e Hs Hr Hf Hret) as (Hr1 & Hresp & Hc1).
    assert (Hacts : actions (model w1) = actions (model w))
      by (unfold actions; rewrite Hresp; reflexivity).
    assert (Hce : forall l, completions (e :: l) = completions l).
    { intros l. rewrite completions_cons, Hret. reflexivity. }
    assert (Hc1' : currentAction (model w1) = Z.of_nat j) by congruence.
    assert (Hj1 : (j < length (actions (model w1)))%nat) by (rewrite Hacts; exact Hj).
    assert (Hpre1 : forall i, (i < length rest)%nat ->
              (j + completions (take i rest) < length (actions (model w1)))%nat).
    { intros i Hi'. specialize (Hpre (S i) ltac:(cbn; lia)).
      cbn [take] in Hpre. rewrite ?take_0 in Hpre. rewrite Hce in Hpre. rewrite Hacts. exact Hpre. }
    destruct (IH w1 j ws1 Hs1 Hr1 Hc1' Hj1 Ht1 Hpre1) as (Hloc & Hglob & Hadv & Hent).
    rewrite Hacts in Hloc, Hglob, Hadv, Hent. fold N in Hglob, Hadv, Hent.
    split_and!.
    + intros [|i] w0 w1' e' H0 H1 He; cbn in H0, H1, He.
      * injection H0 as <-. injection H1 as <-. injection He as <-. rewrite Hret.
        split_and!; [exact Hacts | exact Hc1 | apply in_review_not_Done; exact Hr1].
      * exact (Hloc i w0 w1' e' H0 H1 He).
    + intros [|i] wi Hl; cbn in Hl.
      * injection Hl as <-. cbn [take]. rewrite ?take_0, Hce. change (completions []) with 0%nat.
        split_and!; [rewrite Hc1'; f_equal; lia | | rewrite Hacts; reflexivity].
        split; [intros Hd; exfalso; exact (in_review_not_Done _ Hr1 Hd) | lia].
      * destruct (Hglob i wi Hl) as (G1 & G2 & G3). cbn [take]. rewrite ?take_0, Hce.
        split_and!; assumption.
    + cbn [fmap list_fmap advances]. rewrite Hc1', Z.eqb_refl, Hadv, Hce. reflexivity.
    + cbn [fmap list_fmap entries_to_Done]. rewrite (entered_from_review _ _ Hr).
      rewrite (not_entered _ Hr1), Hent, Hce. reflexivity.
Qed.

Lemma completions_app (l1 l2 : list event) :
  completions (l1 ++ l2) = (completions l1 + completions l2)%nat.
Proof. unfold completions. rewrite omap_app, length_app. reflexivity. Qed.

Lemma completions_bound (es : list event) (n : nat) :
  (forall i, (i < length es)%nat -> (completions (take i es) < n)%nat) ->
  (0 < n)%nat -> (completions es <= n)%nat.
Proof.
  intros Hpre Hn. destruct (decide (es = [])) as [->|Hne]; [cbn; lia|].
  assert (Hl : (0 < length es)%nat) by (destruct es; [congruence | cbn; lia]).
  specialize (Hpre (length es - 1)%nat ltac:(lia)).
  rewrite <- (take_drop (length es - 1) es) at 1. rewrite completions_app.
  assert (Hd : (completions (drop (length es - 1) es) <= 1)%nat).
  { assert (Hone : length (drop (length es - 1) es) = 1%nat) by (rewrite length_drop; lia).
    destruct (drop (length es - 1) es) as [|e [|e' l]]; try discriminate Hone.
    rewrite completions_cons. change (completions []) with 0%nat.
    destruct (returned e); lia. }
  lia.
Qed.

(** C1, as the code has it. From a world that the program reaches, on
    the review screen at index 0, with N proposed actions (there is at
    least one), take any run of events (keys, resizes, messages of the
    widgets, completions of the commands in flight, failed or not) that
    goes on at most until the Nth successful completion of an action
    call, be the call an approve, a reject or a modify command. A
    successful completion overwrites the record of the current action
    with the action returned; while there is a next action it advances
    the action index by one and comes back to the review screen; the
    Nth goes to the completion screen and leaves the index where it
    is, at N - 1. No other event changes the actions or the index or
    reaches the completion screen. So after k successful completions
    the index is k, or N - 1 once k is N; the screen is the completion
    screen exactly when k is N; and along the whole run the index is
    advanced N - 1 times in all (not N) and the completion screen is
    entered exactly once, with the Nth successful completion. *)
Theorem review_reaches_Done_after_last (w : world) (es : list event) (ws : list world) :
  reachable w ->
  view (model w) = stateReview -> currentAction (model w) = 0 ->
  run_trace w es = Some ws ->
  (forall i, (i < length es)%nat ->
             (completions (take i es) < length (actions (model w)))%nat) ->
  (1 <= length (actions (model w)))%nat
  /\ (completions es <= length (actions (model w)))%nat
  /\ (forall i w0 w1 e,
        (w :: ws) !! i = Some w0 -> ws !! i = Some w1 -> es !! i = Some e ->
        match returned e with
        | Some a =>
            actions (model w1)
            = <[Z.to_nat (currentAction (model w0)) := a]> (actions (model w0))
            /\ (if currentAction (model w0) + 1 <? len (actions (model w))
                then view (model w1) = stateReview
                     /\ currentAction (model w1) = currentAction (model w0) + 1
                else view (model w1) = stateDone
                     /\ currentAction (model w1) = currentAction (model w0))
        | None =>
            actions (model w1) = actions (model w0)
            /\ currentAction (model w1) = currentAction (model w0)
            /\ view (model w1) <> stateDone
        end)
  /\ (forall i wi,
        ws !! i = Some wi ->
        currentAction (model wi)
        = Z.of_nat (Nat.min (completions (take (S i) es)) (length (actions (model w)) - 1))
        /\ (view (model wi) = stateDone
            <-> completions (take (S i) es) = length (actions (model w)))
        /\ length (actions (model wi)) = length (actions (model w)))
  /\ advances 0 (model <$> ws)
     = Nat.min (completions es) (length (actions (model w)) - 1)
  /\ entries_to_Done stateReview (model <$> ws)
     = (if (completions es =? length (actions (model w)))%nat then 1 else 0)%nat
  /\ (completions es = length (actions (model w)) ->
      advances 0 (model <$> ws) = (length (actions (model w)) - 1)%nat
      /\ entries_to_Done stateReview (model <$> ws) = 1%nat).
Proof.
  intros Hreach Hv Hc Ht Hpre.
  pose proof (reachable_consistent w Hreach) as Hs.
  assert (Hn : (1 <= length (actions (model w)))%nat).
  { destruct Hs as (_ & _ & _ & Hrev & _). rewrite Hv in Hrev.
    specialize (Hrev eq_refl). destruct (actions (model w)); [congruence | cbn; lia]. }
  assert (Hr : in_review (view (model w)) = true) by (rewrite Hv; reflexivity).
  destruct (review_run es w 0%nat ws Hs Hr Hc ltac:(lia) Ht Hpre)
    as (Hloc & Hglob & Hadv & Hent).
  cbn [Nat.add] in Hglob, Hent. rewrite Hv in Hent. rewrite Nat.sub_0_r in Hadv.
  change (Z.of_nat 0) with 0 in Hadv.
  split_and!; try assumption.
  - apply completions_bound; [exact Hpre | lia].
  - intros Hk. rewrite Hadv, Hent, Hk, Nat.eqb_refl. split; [lia | reflexivity].
Qed.

End Rounds.

(** With one proposed action, the one successful completion of the
    review goes to the completion screen and leaves the action index at
    0: it has not been advanced once. C1 as stated, with its N advances,
    fails. *)
Lemma review_of_one_action_never_advances :
  reachable Examples.review_one
  /\ view (model Examples.review_one) = stateReview
  /\ currentAction (model Examples.review_one) = 0
  /\ length (actions (model Examples.review_one)) = 1%nat
  /\ completions (Examples.approve_round (Examples.approved "act-1")) = 1%nat
  /\ exists ws,
       run_trace Examples.review_one (Examples.approve_round (Examples.approved "act-1"))
       = Some ws
       /\ (view <$> (model <$> ws)) = [stateSubmittingAction; stateDone]
       /\ (currentAction <$> (model <$> ws)) = [0; 0]
       /\ advances 0 (model <$> ws) = 0%nat
       /\ advances 0 (model <$> ws) <> length (actions (model Examples.review_one)).
Proof.
  split.
  { exists Examples.client, 0, (Examples.submit [Examples.draft "act-1"] ++ [Examples.enter]).
    vm_compute. reflexivity. }
  split; [vm_compute; reflexivity|]. split; [vm_compute; reflexivity|].
  split; [vm_compute; reflexivity|]. split; [vm_compute; reflexivity|].
  exists (default [] (run_trace Examples.review_one
                        (Examples.approve_round (Examples.approved "act-1")))).
  vm_compute. split_and!; try reflexivity. discriminate.
Qed.

Lemma review_reaches_Done_after_last_witness :
  reachable Examples.review_two
  /\ view (model Examples.review_two) = stateReview
  /\ currentAction (model Examples.review_two) = 0
  /\ run_trace Examples.review_two Examples.review_events = Some Examples.review_worlds
  /\ (forall i, (i < length Examples.review_events)%nat ->
                (completions (take i Examples.review_events)
                 < length (actions (model Examples.review_two)))%nat)
  /\ length (actions (model Examples.review_two)) = 2%nat
  /\ completions Examples.review_events = 2%nat
  /\ (view <$> (model <$> Examples.review_worlds))
     = [stateEditingPayload; statePromptGeneral; stateSubmittingAction; stateReview;
        stateReview; stateEditingPayload; stateEditingPayload; stateEditingPayload;
        stateReview; stateSubmittingAction; stateDone]
  /\ advances 0 (model <$> Examples.review_worlds) = 1%nat
  /\ entries_to_Done stateReview (model <$> Examples.review_worlds) = 1%nat.
Proof.
  assert (Hr : reachable Examples.review_two).
  { exists Examples.client, 0,
      (Examples.submit [Examples.draft "act-1"; Examples.draft "act-2"] ++ [Examples.enter]).
    vm_compute. reflexivity. }
  assert (Hv : view (model Examples.review_two) = stateReview) by (vm_compute; reflexivity).
  assert (Hc : currentAction (model Examples.review_two) = 0) by (vm_compute; reflexivity).
  assert (Ht : run_trace Examples.review_two Examples.review_events
               = Some Examples.review_worlds) by (vm_compute; reflexivity).
  assert (Hp : forall i, (i < length Examples.review_events)%nat ->
                 (completions (take i Examples.review_events)
                  < length (actions (model Examples.review_two)))%nat).
  { intros i Hi.
    do 11 (destruct i as [|i]; [vm_compute; lia|]).
    vm_compute in Hi. lia. }
  assert (Hk : completions Examples.review_events
               = length (actions (model Examples.review_two))) by (vm_compute; reflexivity).
  pose proof (review_reaches_Done_after_last (T := plain) Examples.review_two
                Examples.review_events Examples.review_worlds Hr Hv Hc Ht Hp)
    as (_ & _ & _ & _ & _ & _ & Hlast).
  destruct (Hlast Hk) as [Hadv Hent].
  split_and!; [exact Hr | exact Hv | exact Hc | exact Ht | exact Hp | vm_compute; reflexivity
              | vm_compute; reflexivity | vm_compute; reflexivity | exact Hadv | exact Hent].
Defined.


(** ** The theorems above on the sessions of the examples *)

Lemma waiting_screens_ignore_keys_witness :
  view (model Examples.second_submission) = stateLoading
  /\ handleKeyMsg (model Examples.second_submission) confirm_key
     = (model Examples.second_submission, None).
Proof.
  assert (Hv : view (T := plain) (model Examples.second_submission) = stateLoading)
    by (vm_compute; reflexivity).
  split; [exact Hv|].
  exact (waiting_screens_ignore_keys (T := plain) (model Examples.second_submission)
           confirm_key (or_introl Hv)).
Defined.

Lemma scroll_keys_move_only_the_window_witness :
  viewUsesViewport (model Examples.review_one) = true
  /\ scroll_key {| Type_ := KeyDown; Runes := "" |} = true
  /\ snd (handleKeyMsg (model Examples.review_one) {| Type_ := KeyDown; Runes := "" |}) = None
  /\ lines (viewport (fst (handleKeyMsg (model Examples.review_one)
                             {| Type_ := KeyDown; Runes := "" |})))
     = lines (viewport (model Examples.review_one)).
Proof.
  assert (Hv : viewUsesViewport (T := plain) (model Examples.review_one) = true)
    by (vm_compute; reflexivity).
  assert (Hk : scroll_key {| Type_ := KeyDown; Runes := "" |} = true) by reflexivity.
  pose proof (scroll_keys_move_only_the_window (T := plain) (model Examples.review_one)
                {| Type_ := KeyDown; Runes := "" |} Hv Hk) as (H1 & _ & H3 & _).
  split_and!; [exact Hv | exact Hk | exact H1 | exact H3].
Defined.

Lemma quit_key_quits_exactly_on_witness :
  quit_key {| Type_ := KeyRunes; Runes := "Q" |}
  /\ view (model Examples.done_none) = stateDone
  /\ snd (handleKeyMsg (model Examples.done_none) {| Type_ := KeyRunes; Runes := "Q" |})
     = Some Quit.
Proof.
  assert (Hk : quit_key {| Type_ := KeyRunes; Runes := "Q" |})
    by (split; vm_compute; reflexivity).
  assert (Hv : view (T := plain) (model Examples.done_none) = stateDone)
    by (vm_compute; reflexivity).
  split_and!; [exact Hk | exact Hv |].
  apply (proj2 (quit_key_quits_exactly_on (T := plain) (model Examples.done_none)
                  {| Type_ := KeyRunes; Runes := "Q" |} Hk)).
  right. left. exact Hv.
Defined.

Lemma prompt_only_leads_to_submission_witness :
  view (fst (handlePayloadKey (Examples.editing Examples.object_text) save_key))
  = statePromptGeneral
  /\ same_session
       (fst (handlePayloadKey (Examples.editing Examples.object_text) save_key))
       (fst (handleKeyMsg
               (fst (handlePayloadKey (Examples.editing Examples.object_text) save_key))
               {| Type_ := KeyRunes; Runes := "y" |})).
Proof.
  assert (Hv : view (fst (handlePayloadKey (T := plain)
                            (Examples.editing Examples.object_text) save_key))
               = statePromptGeneral) by (vm_compute; reflexivity).
  split; [exact Hv|].
  exact (proj1 (prompt_only_leads_to_submission (T := plain)
                  (fst (handlePayloadKey (Examples.editing Examples.object_text) save_key))
                  {| Type_ := KeyRunes; Runes := "y" |} Hv)).
Defined.

Lemma review_decision_issues_one_call_witness :
  view (model Examples.review_one) = stateReview
  /\ currentActionRef (model Examples.review_one) = Some (Examples.draft "act-1")
  /\ letter_key "a" {| Type_ := KeyRunes; Runes := "A" |}
  /\ gateway_calls (snd (handleKeyMsg (model Examples.review_one)
                           {| Type_ := KeyRunes; Runes := "A" |}))
     = [approveActionCmd (currentAction (model Examples.review_one))
          (ActionID (Examples.draft "act-1"))].
Proof.
  assert (Hv : view (T := plain) (model Examples.review_one) = stateReview)
    by (vm_compute; reflexivity).
  assert (Ha : currentActionRef (T := plain) (model Examples.review_one)
               = Some (Examples.draft "act-1")) by (vm_compute; reflexivity).
  assert (Hk : letter_key "a" {| Type_ := KeyRunes; Runes := "A" |})
    by (split; vm_compute; reflexivity).
  split_and!; [exact Hv | exact Ha | exact Hk |].
  exact (proj1 (proj1 (review_decision_issues_one_call (T := plain)
                         (model Examples.review_one) {| Type_ := KeyRunes; Runes := "A" |}
                         (Examples.draft "act-1") Hv Ha) Hk)).
Defined.

Lemma modify_key_opens_the_editor_witness :
  view (model Examples.review_one) = stateReview
  /\ currentActionRef (model Examples.review_one) = Some (Examples.draft "act-1")
  /\ letter_key "m" {| Type_ := KeyRunes; Runes := "m" |}
  /\ handleKeyMsg (model Examples.review_one) {| Type_ := KeyRunes; Runes := "m" |}
     = (with_view stateEditingPayload
          (with_editorErr "" (with_editor (T := plain) "{}" (model Examples.review_one))),
        None).
Proof.
  assert (Hv : view (T := plain) (model Examples.review_one) = stateReview)
    by (vm_compute; reflexivity).
  assert (Ha : currentActionRef (T := plain) (model Examples.review_one)
               = Some (Examples.draft "act-1")) by (vm_compute; reflexivity).
  assert (Hk : letter_key "m" {| Type_ := KeyRunes; Runes := "m" |})
    by (split; vm_compute; reflexivity).
  split_and!; [exact Hv | exact Ha | exact Hk |].
  exact (modify_key_opens_the_editor (T := plain) (model Examples.review_one)
           {| Type_ := KeyRunes; Runes := "m" |} (Examples.draft "act-1") Hv Ha Hk).
Defined.

Lemma cancelled_edit_changes_nothing_witness :
  view (Examples.editing "{}") = stateEditingPayload
  /\ forallb editing_key
       [{| Type_ := KeyRunes; Runes := "x" |}; {| Type_ := KeyEnter; Runes := "" |}] = true
  /\ view (fst (handleKeyMsg
                  (press_all (Examples.editing "{}")
                     [{| Type_ := KeyRunes; Runes := "x" |};
                      {| Type_ := KeyEnter; Runes := "" |}])
                  cancel_key)) = stateReview
  /\ same_session (Examples.editing "{}")
       (fst (handleKeyMsg
               (press_all (Examples.editing "{}")
                  [{| Type_ := KeyRunes; Runes := "x" |};
                   {| Type_ := KeyEnter; Runes := "" |}])
               cancel_key)).
Proof.
  assert (Hv : view (T := plain) (Examples.editing "{}") = stateEditingPayload)
    by (vm_compute; reflexivity).
  assert (Hk : forallb editing_key
                 [{| Type_ := KeyRunes; Runes := "x" |}; {| Type_ := KeyEnter; Runes := "" |}]
               = true) by reflexivity.
  pose proof (cancelled_edit_changes_nothing (T := plain) (Examples.editing "{}")
                [{| Type_ := KeyRunes; Runes := "x" |}; {| Type_ := KeyEnter; Runes := "" |}]
                Hv Hk) as (H1 & H2 & _).
  split_and!; [exact Hv | exact Hk | exact H1 | exact H2].
Defined.

Lemma save_key_errors_witness :
  Type_ save_key = KeyCtrlS
  /\ submitted_text (Examples.editing "  ") save_key = ""
  /\ fst (handlePayloadKey (Examples.editing "  ") save_key)
     = with_editorErr "Payload cannot be empty."
         (with_editor (fst (textarea_Update (editor (Examples.editing "  ")) save_key))
            (Examples.editing "  ")).
Proof.
  assert (Hk : Type_ save_key = KeyCtrlS) by reflexivity.
  assert (Ht : submitted_text (T := plain) (Examples.editing "  ") save_key = "")
    by (vm_compute; reflexivity).
  split_and!; [exact Hk | exact Ht |].
  exact (proj1 (save_key_errors (T := plain) (Examples.editing "  ") save_key Hk) Ht).
Defined.

Lemma preview_confirm_submits_the_current_email_witness :
  view (model (start (T := plain) Examples.client 0)) = statePreviewEmail
  /\ gateway_calls (snd (handleKeyMsg (model (start (T := plain) Examples.client 0)) confirm_key))
     = [loadSampleEmailCmd (email (model (start (T := plain) Examples.client 0)))].
Proof.
  assert (Hv : view (T := plain) (model (start (T := plain) Examples.client 0)) = statePreviewEmail)
    by (vm_compute; reflexivity).
  split; [exact Hv|].
  exact (proj1 (preview_confirm_submits_the_current_email (T := plain)
                  (model (start (T := plain) Examples.client 0)) (Examples.result_with []) Hv)).
Defined.

Lemma reachable_viewport_is_current_witness :
  reachable Examples.review_one
  /\ shows_current_content (model Examples.review_one).
Proof.
  assert (Hr : reachable Examples.review_one).
  { exists Examples.client, 0, (Examples.submit [Examples.draft "act-1"] ++ [Examples.enter]).
    vm_compute. reflexivity. }
  split; [exact Hr|].
  exact (reachable_viewport_is_current (T := plain) Examples.review_one Hr).
Defined.

Lemma one_gateway_call_at_a_time_witness :
  reachable Examples.failed
  /\ (view (model Examples.failed) <> stateLoading ->
      view (model Examples.failed) <> stateSubmittingAction ->
      calls_in_flight Examples.failed = []).
Proof.
  assert (Hr : reachable Examples.failed).
  { exists Examples.client, 0,
      [Examples.enter; Completed 1 (GatewayFailed "post /new_email: status 500: boom")].
    vm_compute. reflexivity. }
  split; [exact Hr|].
  exact (proj2 (one_gateway_call_at_a_time (T := plain) Examples.failed Hr)).
Defined.

Lemma reachable_in_step_witness :
  reachable Examples.done_none /\ in_step Examples.done_none.
Proof.
  assert (Hr : reachable Examples.done_none).
  { exists Examples.client, 0, (Examples.submit []). vm_compute. reflexivity. }
  split; [exact Hr|].
  exact (reachable_in_step (T := plain) Examples.done_none Hr).
Defined.

Lemma exchange_without_success_ends_on_Error_witness :
  (forall code raw, Responds 503 " busy " = Responds code raw -> code < 200 \/ 300 <= code)
  /\ run_call (T := plain) (fun _ => inr (Examples.result_with []))
       (fun _ => inr (Examples.approved "act-1"))
       (rejectActionCmd 0 "act-1") (Responds 503 " busy ")
     = Some (actionUpdatedMsg 0 zeroAction (Some "post /action/reject: status 503: busy"))
  /\ Update (model Examples.review_one)
       (actionUpdatedMsg 0 zeroAction (Some "post /action/reject: status 503: busy"))
     = fail ("post " +:+ "/action/reject" +:+ ": status " +:+ itoa 503 +:+ ": "
             +:+ TrimSpace " busy ") (model Examples.review_one).
Proof.
  assert (Hx : forall code raw,
             Responds 503 " busy " = Responds code raw -> code < 200 \/ 300 <= code)
    by (intros code raw [= <- _]; right; lia).
  assert (Hr : run_call (T := plain) (fun _ => inr (Examples.result_with []))
                 (fun _ => inr (Examples.approved "act-1"))
                 (rejectActionCmd 0 "act-1") (Responds 503 " busy ")
               = Some (actionUpdatedMsg 0 zeroAction
                         (Some "post /action/reject: status 503: busy")))
    by (vm_compute; reflexivity).
  split_and!; [exact Hx | exact Hr |].
  destruct (proj2 (proj2 (exchange_without_success_ends_on_Error (T := plain) _ _
                            (model Examples.review_one) _ _ _ Hx Hr)) 503 " busy " eq_refl)
    as (path & -> & Hu).
  exact Hu.
Defined.

Lemma every_exchange_is_an_outcome_witness :
  (forall raw r,
      (fun _ : string => inr (Examples.result_with []) : string + NewEmailResponse) raw = inr r ->
      slice_ok r = true)
  /\ is_gateway (T := plain) (loadSampleEmailCmd (buildSampleEmail 0)) = true
  /\ exists o msg,
       run_call (T := plain) (fun _ => inr (Examples.result_with []))
         (fun _ => inr (Examples.approved "act-1"))
         (loadSampleEmailCmd (buildSampleEmail 0)) (Responds 200 "{}") = Some msg
       /\ delivers (loadSampleEmailCmd (buildSampleEmail 0)) o = Some msg.
Proof.
  assert (Hd : forall raw r,
             (fun _ : string => inr (Examples.result_with []) : string + NewEmailResponse) raw
             = inr r -> slice_ok r = true)
    by (intros raw r [= <-]; reflexivity).
  assert (Hg : is_gateway (T := plain) (loadSampleEmailCmd (buildSampleEmail 0)) = true)
    by reflexivity.
  split_and!; [exact Hd | exact Hg |].
  exact (every_exchange_is_an_outcome (T := plain) _ (fun _ => inr (Examples.approved "act-1"))
           (loadSampleEmailCmd (buildSampleEmail 0)) (Responds 200 "{}") Hd Hg).
Defined.

Lemma classification_ignores_the_order_of_the_keys_witness :
  Probabilities Examples.three_labels
  = Some {[ "urgent" := Examples.p082; "fyi" := Float64.of_decimal false 125 (-3);
            "spam" := Float64.of_decimal false 25 (-4) ]}
  /\ mapsKeys {[ "urgent" := Examples.p082; "fyi" := Float64.of_decimal false 125 (-3);
                 "spam" := Float64.of_decimal false 25 (-4) ]}
     = ["spam"; "urgent"; "fyi"]
  /\ ["urgent"; "fyi"; "spam"]
     ≡ₚ mapsKeys {[ "urgent" := Examples.p082; "fyi" := Float64.of_decimal false 125 (-3);
                    "spam" := Float64.of_decimal false 25 (-4) ]}
  /\ renderClassificationFrom ["urgent"; "fyi"; "spam"] Examples.three_labels
     = renderClassification Examples.three_labels
  /\ renderClassificationFrom ["urgent"; "fyi"; "spam"] Examples.three_labels
     = "- fyi: 12.5%" +:+ nl +:+ "- spam: 0.2%" +:+ nl +:+ "- urgent: 82.0% (selected)".
Proof.
  assert (Hp : Probabilities Examples.three_labels
               = Some {[ "urgent" := Examples.p082;
                         "fyi" := Float64.of_decimal false 125 (-3);
                         "spam" := Float64.of_decimal false 25 (-4) ]}) by reflexivity.
  assert (Hm : mapsKeys {[ "urgent" := Examples.p082;
                           "fyi" := Float64.of_decimal false 125 (-3);
                           "spam" := Float64.of_decimal false 25 (-4) ]}
               = ["spam"; "urgent"; "fyi"]) by (vm_compute; reflexivity).
  assert (Hk : ["urgent"; "fyi"; "spam"]
               ≡ₚ mapsKeys {[ "urgent" := Examples.p082;
                              "fyi" := Float64.of_decimal false 125 (-3);
                              "spam" := Float64.of_decimal false 25 (-4) ]}).
  { rewrite Hm. etrans; [apply perm_skip, perm_swap | apply perm_swap]. }
  split_and!; [exact Hp | exact Hm | exact Hk | |].
  - exact (classification_ignores_the_order_of_the_keys Examples.three_labels _
             ["urgent"; "fyi"; "spam"] Hp Hk).
  - vm_compute. reflexivity.
Defined.

Lemma indented_lines_witness :
  one_line "  "
  /\ SplitLines (indentMultiline ("a" +:+ nl +:+ nl +:+ "b") "  ")
     = (fun line => "  " +:+ line) <$> SplitLines (text (crlf_to_lf (chars ("a" +:+ nl +:+ nl +:+ "b")))).
Proof.
  assert (Hi : one_line "  ").
  { unfold one_line. repeat (constructor; [vm_compute; discriminate|]). constructor. }
  split; [exact Hi|].
  exact (indented_lines ("a" +:+ nl +:+ nl +:+ "b") "  " Hi).
Defined.
